(** * Soundscape backend: room / connection lifecycle manager

    A shallow embedding of [src/RoomManager.ts], of the raw-WebSocket server
    that drives it and of the socket.io server, followed by the properties of
    the specification that were checked against them.

    Conventions of the embedding.

    - A JavaScript [Map] is an association list in insertion order
      ([JsMap]): [forEach] visits the entries in that order and the
      callbacks have side effects on the very map they iterate, so the order
      and the liveness of the iteration are part of the behaviour.
    - [Room] objects are mutable and are held through references (the local
      [room] of [addClient] and [removeClient], the closure variable [room]
      of the socket.io handlers). The registry therefore maps a room id to
      an address in a heap of rooms, and every write goes through the
      address.
    - Sockets are objects of the [ws] library, shared between the server,
      the manager and the clients of a room. They live in a store indexed by
      a socket number. Of a socket the code only reads [readyState], calls
      [send] (which may throw) and [close], and registers listeners.
    - [Date.now()] is a parameter [now] of every operation; one synchronous
      operation reads one clock value.
    - [removeClient] and [broadcastToRoom] call each other; the recursion is
      not bounded by the code, so both take a recursion budget and return
      [None] when it is exhausted: the error that JavaScript raises then
      unwinds every caller that does not catch it. The one caller that
      does, the 'message' handler of the raw-WebSocket server, goes on from
      the state reached when the error was raised ([Unwinding]). *)

From Stdlib Require Import ZArith Ascii String List Lia.
From stdpp Require Import base option list strings.

Open Scope string_scope.
Open Scope list_scope.

(** ** JavaScript [Map] with string keys, in insertion order *)

Module JsMap.

Section Ops.
Context {V : Type}.

Fixpoint get (k : string) (m : list (string * V)) : option V :=
  match m with
  | [] => None
  | (k', v) :: m' => if decide (k = k') then Some v else get k m'
  end.

Definition has (k : string) (m : list (string * V)) : bool :=
  match get k m with Some _ => true | None => false end.

(** [set] keeps the position of an existing key and appends a new one. *)
Fixpoint set (k : string) (v : V) (m : list (string * V)) : list (string * V) :=
  match m with
  | [] => [(k, v)]
  | (k', v') :: m' =>
      if decide (k = k') then (k, v) :: m' else (k', v') :: set k v m'
  end.

Fixpoint delete (k : string) (m : list (string * V)) : list (string * V) :=
  match m with
  | [] => []
  | (k', v') :: m' =>
      if decide (k = k') then delete k m' else (k', v') :: delete k m'
  end.

Definition keys (m : list (string * V)) : list string := map fst m.

Definition size (m : list (string * V)) : nat := length m.

(** In-place mutation of the object stored under [k]. *)
Fixpoint update (k : string) (f : V -> V) (m : list (string * V)) : list (string * V) :=
  match m with
  | [] => []
  | (k', v') :: m' =>
      if decide (k = k') then (k', f v') :: m' else (k', v') :: update k f m'
  end.

End Ops.

(** [m.forEach(body)] on a map that the body may shrink: the keys present
    when the iteration starts are visited in order, and [body] itself skips
    a key that has been deleted meanwhile (it looks the key up in the
    current state). No body in this program inserts during an iteration. *)
Fixpoint forEach {S A : Type} (ks : list A) (body : S -> A -> option S)
    (st : S) : option S :=
  match ks with
  | [] => Some st
  | k :: ks' =>
      match body st k with
      | None => None
      | Some st' => forEach ks' body st'
      end
  end.

End JsMap.

(** ** Messages (types.ts) *)

Inductive MessageType : Type :=
  | user_joined | user_left | init | update | ping | pong.

#[global] Instance MessageType_eq_dec : EqDecision MessageType.
Proof. solve_decision. Defined.

(** The particle payload is passed through unread; it is kept as the text
    of its encoding. *)
Definition Particles : Type := string.

Record WebSocketMessage : Type := mkMessage {
  m_type : MessageType;
  m_userId : string;
  m_timestamp : Z;
  m_particles : option Particles;
  m_color : option Z
}.

(** [JSON.stringify(message)]: the text sent is a function of the message
    record alone; a socket's outbox stores the record it encodes. *)
Definition JSON_stringify (m : WebSocketMessage) : WebSocketMessage := m.

(** ** Sockets of the [ws] library *)

Inductive ReadyState : Type := CONNECTING | OPEN | CLOSING | CLOSED.

#[global] Instance ReadyState_eq_dec : EqDecision ReadyState.
Proof. solve_decision. Defined.

Record WebSocket : Type := mkWebSocket {
  readyState : ReadyState;
  (** whether [send] throws on this socket (chosen by the environment) *)
  sendThrows : bool;
  (** the texts handed to [send] that did not throw, oldest first *)
  sent : list WebSocketMessage;
  (** the [(roomId, userId)] captured by the 'message', 'close' and 'error'
      listeners that [addClient] registered on this socket, oldest first *)
  listeners : list (string * string)
}.

#[global] Instance WebSocket_inhabited : Inhabited WebSocket :=
  populate (mkWebSocket CLOSED false [] []).

(** ** RoomManager.ts *)

Module RoomManager.

Definition CLEANUP_INTERVAL : Z := 30000.
Definition CLIENT_TIMEOUT : Z := 60000.

Record RoomClient : Type := mkRoomClient {
  ws : nat;
  userId : string;
  lastSeen : Z
}.

Record Room : Type := mkRoom {
  id : string;
  clients : list (string * RoomClient);
  lastCleanup : Z
}.

#[global] Instance Room_inhabited : Inhabited Room := populate (mkRoom "" [] 0).

Record State : Type := mkState {
  (** [this.rooms]: room id to the address of the [Room] object *)
  rooms : list (string * nat);
  (** the [Room] objects ever created, by address *)
  heap : list Room;
  (** [this.pingIntervals]: key to timer handle *)
  pingIntervals : list (string * nat);
  (** the running interval timers: handle and the [(roomId, userId)] their
      callback passes to [pingClient]; handles are allocated from
      [nextTimer] *)
  timers : list (nat * (string * string));
  nextTimer : nat;
  sockets : list WebSocket
}.

(** [new RoomManager()] over a given population of sockets. *)
Definition init_state (socks : list WebSocket) : State :=
  mkState [] [] [] [] 0 socks.

(** *** Access to the two stores *)

Definition room_at (st : State) (p : nat) : Room := heap st !!! p.

Definition sock (st : State) (w : nat) : WebSocket := sockets st !!! w.

Definition with_room (p : nat) (f : Room -> Room) (st : State) : State :=
  mkState (rooms st) (alter f p (heap st)) (pingIntervals st) (timers st)
          (nextTimer st) (sockets st).

Definition with_sock (w : nat) (f : WebSocket -> WebSocket) (st : State) : State :=
  mkState (rooms st) (heap st) (pingIntervals st) (timers st)
          (nextTimer st) (alter f w (sockets st)).

Definition with_clients (f : list (string * RoomClient) -> list (string * RoomClient))
    (r : Room) : Room :=
  mkRoom (id r) (f (clients r)) (lastCleanup r).

Definition set_lastSeen (t : Z) (c : RoomClient) : RoomClient :=
  mkRoomClient (ws c) (userId c) t.

Definition set_lastCleanup (t : Z) (r : Room) : Room :=
  mkRoom (id r) (clients r) t.

(** [ws.send(text)] when it does not throw, and [ws.close()]. *)
Definition ws_send (m : WebSocketMessage) (s : WebSocket) : WebSocket :=
  mkWebSocket (readyState s) (sendThrows s) (sent s ++ [m]) (listeners s).

Definition ws_close (s : WebSocket) : WebSocket :=
  mkWebSocket CLOSING (sendThrows s) (sent s) (listeners s).

Definition ws_on (h : string * string) (s : WebSocket) : WebSocket :=
  mkWebSocket (readyState s) (sendThrows s) (sent s) (listeners s ++ [h]).

Definition is_open (s : WebSocket) : bool := bool_decide (readyState s = OPEN).

(** *** createRoom, getRoom, getOrCreateRoom *)

Definition createRoom (now : Z) (st : State) (roomId : string) : State * nat :=
  let p := length (heap st) in
  (mkState (JsMap.set roomId p (rooms st)) (heap st ++ [mkRoom roomId [] now])
           (pingIntervals st) (timers st) (nextTimer st) (sockets st), p).

Definition getRoom (st : State) (roomId : string) : option nat :=
  JsMap.get roomId (rooms st).

Definition getOrCreateRoom (now : Z) (st : State) (roomId : string) : State * nat :=
  match getRoom st roomId with
  | Some p => (st, p)
  | None => createRoom now st roomId
  end.

(** *** broadcastToRoom and removeClient *)

(** [!excludeUserId || client.userId !== excludeUserId]: an absent and an
    empty [excludeUserId] both exclude nobody. *)
Definition not_excluded (excludeUserId : option string) (c : RoomClient) : bool :=
  match excludeUserId with
  | None => true
  | Some e => bool_decide (e = "") || negb (bool_decide (userId c = e))
  end.

(** The body of [room.clients.forEach] in [broadcastToRoom], for the entry
    under key [k] of the room at [p]; [rc] is [this.removeClient]. *)
Definition deliver (rc : State -> string -> string -> option State) (now : Z)
    (roomId : string) (p : nat) (messageStr : WebSocketMessage)
    (excludeUserId : option string) (st : State) (k : string) : option State :=
  match JsMap.get k (clients (room_at st p)) with
  | None => Some st
  | Some client =>
      if not_excluded excludeUserId client && is_open (sock st (ws client)) then
        if sendThrows (sock st (ws client)) then
          rc st roomId (userId client)
        else
          Some (with_room p (with_clients (JsMap.update k (set_lastSeen now)))
                  (with_sock (ws client) (ws_send messageStr) st))
      else Some st
  end.

Definition broadcastWith (rc : State -> string -> string -> option State) (now : Z)
    (st : State) (roomId : string) (message : WebSocketMessage)
    (excludeUserId : option string) : option State :=
  match getRoom st roomId with
  | None => Some st
  | Some p =>
      let messageStr := JSON_stringify message in
      JsMap.forEach (JsMap.keys (clients (room_at st p)))
        (deliver rc now roomId p messageStr excludeUserId) st
  end.

(** The key [`${roomId}-${userId}`] of [pingIntervals]. *)
Definition pingKey (roomId userId : string) : string :=
  (roomId ++ "-" ++ userId)%string.

Definition clearPing (roomId userId : string) (st : State) : State :=
  match JsMap.get (pingKey roomId userId) (pingIntervals st) with
  | Some h =>
      mkState (rooms st) (heap st)
              (JsMap.delete (pingKey roomId userId) (pingIntervals st))
              (filter (fun t => t.1 ≠ h) (timers st))
              (nextTimer st) (sockets st)
  | None => st
  end.

Definition rooms_delete (roomId : string) (st : State) : State :=
  mkState (JsMap.delete roomId (rooms st)) (heap st) (pingIntervals st)
          (timers st) (nextTimer st) (sockets st).

Definition user_left_message (userId : string) (now : Z) : WebSocketMessage :=
  mkMessage user_left userId now None None.

(** [fuel] bounds the depth of the calls [removeClient] ->
    [broadcastToRoom] -> [removeClient] (made from the catch of a failed
    send); [None] means that the bound was reached. A call that needs no
    nested [removeClient] deeper than [fuel] returns the state it leaves. *)
Fixpoint removeClient (fuel : nat) (now : Z) (st : State) (roomId userId : string)
    : option State :=
  match fuel with
  | O => None
  | S fuel' =>
      match getRoom st roomId with
      | None => Some st
      | Some p =>
          match broadcastWith (removeClient fuel' now) now st roomId
                  (user_left_message userId now) (Some userId) with
          | None => None
          | Some st1 =>
              let st2 := clearPing roomId userId st1 in
              if JsMap.has userId (clients (room_at st2 p)) then
                let st3 := with_room p (with_clients (JsMap.delete userId)) st2 in
                if Nat.eqb (JsMap.size (clients (room_at st3 p))) 0
                then Some (rooms_delete roomId st3)
                else Some st3
              else Some st2
          end
      end
  end.

Definition broadcastToRoom (fuel : nat) (now : Z) (st : State) (roomId : string)
    (message : WebSocketMessage) (excludeUserId : option string) : option State :=
  broadcastWith (removeClient fuel now) now st roomId message excludeUserId.

(** *** pingClient, updateClientLastSeen *)

Definition ping_message (now : Z) : WebSocketMessage :=
  mkMessage ping "server" now None None.

(** [room?.clients.get(userId)] for [room = this.getRoom(roomId)]. *)
Definition getClient (st : State) (roomId userId : string) : option RoomClient :=
  match getRoom st roomId with
  | Some p => JsMap.get userId (clients (room_at st p))
  | None => None
  end.

Definition pingClient (fuel : nat) (now : Z) (st : State) (roomId userId : string)
    : option State :=
  match getClient st roomId userId with
  | Some client =>
      if is_open (sock st (ws client)) then
        if sendThrows (sock st (ws client)) then
          removeClient fuel now st roomId userId
        else
          Some (with_sock (ws client) (ws_send (JSON_stringify (ping_message now))) st)
      else removeClient fuel now st roomId userId
  | None => removeClient fuel now st roomId userId
  end.

Definition updateClientLastSeen (now : Z) (st : State) (roomId userId : string) : State :=
  match getRoom st roomId with
  | Some p =>
      match JsMap.get userId (clients (room_at st p)) with
      | Some _ => with_room p (with_clients (JsMap.update userId (set_lastSeen now))) st
      | None => st
      end
  | None => st
  end.

(** *** addClient *)

(** [setInterval(() => this.pingClient(roomId, userId), PING_INTERVAL)]
    followed by [this.pingIntervals.set(key, handle)]. *)
Definition startPing (roomId userId : string) (st : State) : State :=
  let h := nextTimer st in
  mkState (rooms st) (heap st)
          (JsMap.set (pingKey roomId userId) h (pingIntervals st))
          (timers st ++ [(h, (roomId, userId))])
          (S h) (sockets st).

(** The block guarded by [room.clients.has(userId)]. *)
Definition evictExisting (fuel : nat) (now : Z) (st : State) (roomId userId : string)
    (p : nat) : option State :=
  match JsMap.get userId (clients (room_at st p)) with
  | Some oldClient =>
      let st' :=
        if is_open (sock st (ws oldClient))
        then with_sock (ws oldClient) ws_close st
        else st in
      removeClient fuel now st' roomId userId
  | None => Some st
  end.

Definition addClient (fuel : nat) (now : Z) (st : State) (roomId userId : string)
    (w : nat) : option State :=
  let '(st0, p) := getOrCreateRoom now st roomId in
  match evictExisting fuel now st0 roomId userId p with
  | None => None
  | Some st1 =>
      let client := mkRoomClient w userId now in
      (* [room] is still the object fetched on entry *)
      let st2 := with_room p (with_clients (JsMap.set userId client)) st1 in
      let st3 := startPing roomId userId st2 in
      let st4 := with_sock w (ws_on (roomId, userId)) st3 in
      pingClient fuel now st4 roomId userId
  end.

(** *** The listeners installed by addClient

    [data] is [None] when [JSON.parse] throws; the handler catches it. *)

Definition onMessage (now : Z) (st : State) (h : string * string)
    (data : option WebSocketMessage) : State :=
  match data with
  | Some d =>
      if decide (m_type d = pong) then updateClientLastSeen now st h.1 h.2 else st
  | None => st
  end.

Definition onClose (fuel : nat) (now : Z) (st : State) (h : string * string)
    : option State :=
  removeClient fuel now st h.1 h.2.

Definition onError (fuel : nat) (now : Z) (st : State) (h : string * string)
    : option State :=
  removeClient fuel now st h.1 h.2.

(** *** cleanupInactiveClients *)

(** The body of the inner [room.clients.forEach]. *)
Definition sweepClient (fuel : nat) (now : Z) (roomId : string) (p : nat)
    (st : State) (userId : string) : option State :=
  match JsMap.get userId (clients (room_at st p)) with
  | None => Some st
  | Some client =>
      if (now - lastSeen client >? CLIENT_TIMEOUT)%Z
      then removeClient fuel now st roomId userId
      else Some st
  end.

(** The body of the outer [this.rooms.forEach]. *)
Definition sweepRoom (fuel : nat) (now : Z) (st : State) (roomId : string)
    : option State :=
  match getRoom st roomId with
  | None => Some st
  | Some p =>
      if (now - lastCleanup (room_at st p) <? CLEANUP_INTERVAL)%Z then Some st
      else
        match JsMap.forEach (JsMap.keys (clients (room_at st p)))
                (sweepClient fuel now roomId p) st with
        | None => None
        | Some st' => Some (with_room p (set_lastCleanup now) st')
        end
  end.

Definition cleanupInactiveClients (fuel : nat) (now : Z) (st : State) : option State :=
  JsMap.forEach (JsMap.keys (rooms st)) (sweepRoom fuel now) st.

(** *** cleanup *)

Definition closeIfOpen (s : WebSocket) : WebSocket :=
  if is_open s then ws_close s else s.

Definition closeRoom (st : State) (p : nat) : State :=
  fold_left (fun s kc => with_sock (ws kc.2) closeIfOpen s) (clients (room_at st p)) st.

(** [clearInterval] is called on the handles that [pingIntervals] records;
    the timer of the sweep itself is not part of the state. *)
Definition cleanup (st : State) : State :=
  let recorded := map snd (pingIntervals st) in
  let st' := fold_left (fun s kp => closeRoom s kp.2) (rooms st) st in
  mkState [] (heap st') [] (filter (fun t => t.1 ∉ recorded) (timers st'))
          (nextTimer st') (sockets st').

(** *** The same calls, for a caller that catches

    When the recursion budget is used up, [removeClient] raises (a
    RangeError in JavaScript) and the methods that called it are unwound.
    Nothing is undone: a caller that catches the error goes on from the
    state reached when it was raised. The functions below are the methods
    above with that state kept; [returned] of their outcome is the result
    of the method above (see [removeClient_returned] and the lemmas next to
    it). *)

Inductive Outcome : Type :=
  | Returned (st : State)
  | Raised (st : State).

Definition state_of (o : Outcome) : State :=
  match o with
  | Returned st => st
  | Raised st => st
  end.

Definition returned (o : Outcome) : option State :=
  match o with
  | Returned st => Some st
  | Raised _ => None
  end.

Module Unwinding.

(** [m.forEach(f)] when [f] may raise: the error leaves the loop. *)
Fixpoint forEach {A : Type} (ks : list A) (body : State -> A -> Outcome) (st : State)
    : Outcome :=
  match ks with
  | [] => Returned st
  | k :: ks' =>
      match body st k with
      | Returned st' => forEach ks' body st'
      | Raised st' => Raised st'
      end
  end.

Definition deliver (rc : State -> string -> string -> Outcome) (now : Z)
    (roomId : string) (p : nat) (messageStr : WebSocketMessage)
    (excludeUserId : option string) (st : State) (k : string) : Outcome :=
  match JsMap.get k (clients (room_at st p)) with
  | None => Returned st
  | Some client =>
      if not_excluded excludeUserId client && is_open (sock st (ws client)) then
        if sendThrows (sock st (ws client)) then
          rc st roomId (userId client)
        else
          Returned (with_room p (with_clients (JsMap.update k (set_lastSeen now)))
                      (with_sock (ws client) (ws_send messageStr) st))
      else Returned st
  end.

Definition broadcastWith (rc : State -> string -> string -> Outcome) (now : Z)
    (st : State) (roomId : string) (message : WebSocketMessage)
    (excludeUserId : option string) : Outcome :=
  match getRoom st roomId with
  | None => Returned st
  | Some p =>
      let messageStr := JSON_stringify message in
      forEach (JsMap.keys (clients (room_at st p)))
        (deliver rc now roomId p messageStr excludeUserId) st
  end.

Fixpoint removeClient (fuel : nat) (now : Z) (st : State) (roomId userId : string)
    : Outcome :=
  match fuel with
  | O => Raised st
  | S fuel' =>
      match getRoom st roomId with
      | None => Returned st
      | Some p =>
          match broadcastWith (removeClient fuel' now) now st roomId
                  (user_left_message userId now) (Some userId) with
          | Raised st1 => Raised st1
          | Returned st1 =>
              let st2 := clearPing roomId userId st1 in
              if JsMap.has userId (clients (room_at st2 p)) then
                let st3 := with_room p (with_clients (JsMap.delete userId)) st2 in
                if Nat.eqb (JsMap.size (clients (room_at st3 p))) 0
                then Returned (rooms_delete roomId st3)
                else Returned st3
              else Returned st2
          end
      end
  end.

Definition broadcastToRoom (fuel : nat) (now : Z) (st : State) (roomId : string)
    (message : WebSocketMessage) (excludeUserId : option string) : Outcome :=
  broadcastWith (removeClient fuel now) now st roomId message excludeUserId.

Definition pingClient (fuel : nat) (now : Z) (st : State) (roomId userId : string)
    : Outcome :=
  match getClient st roomId userId with
  | Some client =>
      if is_open (sock st (ws client)) then
        if sendThrows (sock st (ws client)) then
          removeClient fuel now st roomId userId
        else
          Returned (with_sock (ws client) (ws_send (JSON_stringify (ping_message now))) st)
      else removeClient fuel now st roomId userId
  | None => removeClient fuel now st roomId userId
  end.

Definition evictExisting (fuel : nat) (now : Z) (st : State) (roomId userId : string)
    (p : nat) : Outcome :=
  match JsMap.get userId (clients (room_at st p)) with
  | Some oldClient =>
      let st' :=
        if is_open (sock st (ws oldClient))
        then with_sock (ws oldClient) ws_close st
        else st in
      removeClient fuel now st' roomId userId
  | None => Returned st
  end.

Definition addClient (fuel : nat) (now : Z) (st : State) (roomId userId : string)
    (w : nat) : Outcome :=
  let '(st0, p) := getOrCreateRoom now st roomId in
  match evictExisting fuel now st0 roomId userId p with
  | Raised st1 => Raised st1
  | Returned st1 =>
      let client := mkRoomClient w userId now in
      let st2 := with_room p (with_clients (JsMap.set userId client)) st1 in
      let st3 := startPing roomId userId st2 in
      let st4 := with_sock w (ws_on (roomId, userId)) st3 in
      pingClient fuel now st4 roomId userId
  end.

End Unwinding.

(** *** Views used in the statements *)

(** The user ids registered in a room, [None] when the registry has no such
    room. *)
Definition members (st : State) (roomId : string) : option (list string) :=
  match getRoom st roomId with
  | Some p => Some (JsMap.keys (clients (room_at st p)))
  | None => None
  end.

(** How many clients the registry holds for a user id in a room. *)
Definition registrations (st : State) (roomId userId : string) : nat :=
  match getRoom st roomId with
  | Some p => length (filter (fun kc => kc.1 = userId) (clients (room_at st p)))
  | None => 0
  end.

(** A member whose socket is open and whose [send] throws. *)
Definition thrower (st : State) (c : RoomClient) : bool :=
  is_open (sock st (ws c)) && sendThrows (sock st (ws c)).

(** No [send] on a member of the room at [p] throws. *)
Definition quiet_room (st : State) (p : nat) : Prop :=
  forall k c, JsMap.get k (clients (room_at st p)) = Some c -> thrower st c = false.

End RoomManager.

(** ** The raw-WebSocket server built on the manager *)

Module WsServer.
Import RoomManager.

(** [s.split('/').pop()]: the text after the last slash. *)
Fixpoint lastSegment (acc s : string) : string :=
  match s with
  | EmptyString => acc
  | String c s' =>
      if decide (c = "/"%char) then lastSegment "" s'
      else lastSegment (acc ++ String c "")%string s'
  end.

(** [req.url?.split('/').pop() || 'default'] *)
Definition roomIdOfUrl (url : option string) : string :=
  match url with
  | Some u =>
      let seg := lastSegment "" u in
      if decide (seg = "") then "default" else seg
  | None => "default"
  end.

(** The variables closed over by the handlers of one connection. *)
Record Connection : Type := mkConnection {
  conn_ws : nat;
  conn_roomId : string;
  conn_userId : option string
}.

(** [wss.on('connection')]: computes the room id and installs the handlers;
    neither the manager nor the socket is touched. *)
Definition onConnection (st : State) (w : nat) (url : option string)
    : State * Connection :=
  (st, mkConnection w (roomIdOfUrl url) None).

(** The server's own removal of a previous session, before [addClient]. *)
Definition dropStale (st : State) (roomId userId : string) : State :=
  match getRoom st roomId with
  | Some p =>
      match JsMap.get userId (clients (room_at st p)) with
      | Some oldClient =>
          let st' :=
            if is_open (sock st (ws oldClient))
            then with_sock (ws oldClient) ws_close st
            else st in
          with_room p (with_clients (JsMap.delete userId)) st'
      | None => st
      end
  | None => st
  end.

Definition user_joined_message (userId : string) (now : Z) : WebSocketMessage :=
  mkMessage user_joined userId now None None.

(** The test [data.type === 'user_joined' && data.userId]. *)
Definition joins (data : WebSocketMessage) : bool :=
  bool_decide (m_type data = user_joined) && negb (bool_decide (m_userId data = "")).

(** The branch guarded by that test. [userId] is assigned before
    [addClient] is called, so the connection is identified also when one of
    the calls raises. *)
Definition identify (fuel : nat) (now : Z) (c : Connection) (data : WebSocketMessage)
    (st : State) : Outcome * Connection :=
  if joins data then
    let st1 := dropStale st (conn_roomId c) (m_userId data) in
    let c1 := mkConnection (conn_ws c) (conn_roomId c) (Some (m_userId data)) in
    match Unwinding.addClient fuel now st1 (conn_roomId c) (m_userId data) (conn_ws c) with
    | Raised st2 => (Raised st2, c1)
    | Returned st2 =>
        (Unwinding.broadcastToRoom fuel now st2 (conn_roomId c)
           (user_joined_message (m_userId data) now) (Some (m_userId data)), c1)
    end
  else (Returned st, c).

(** [ws.on('message')] of the server. The body is inside [try]: what it
    raises is caught and logged, and the handler returns with the state
    reached. [frame] is [None] when [JSON.parse] throws. *)
Definition onMessage (fuel : nat) (now : Z) (c : Connection)
    (frame : option WebSocketMessage) (st : State) : State * Connection :=
  match frame with
  | None => (st, c)
  | Some data =>
      match identify fuel now c data st with
      | (Raised st1, c1) => (st1, c1)
      | (Returned st1, c1) =>
          match conn_userId c1 with
          | Some u =>
              if decide (u = "") then (st1, c1)
              else
                (state_of (Unwinding.broadcastToRoom fuel now st1 (conn_roomId c1)
                             data (Some u)), c1)
          | None => (st1, c1)
          end
      end
  end.

(** One inbound frame on a connection: the server's listener runs first,
    then the listeners that [addClient] had registered on the socket before
    the frame arrived. *)
Definition receive (fuel : nat) (now : Z) (c : Connection)
    (frame : option WebSocketMessage) (st : State) : State * Connection :=
  let ls := listeners (sock st (conn_ws c)) in
  let '(st1, c1) := onMessage fuel now c frame st in
  (fold_left (fun s h => RoomManager.onMessage now s h frame) ls st1, c1).

(** [ws.on('close')] and [ws.on('error')] of the server. *)
Definition onClose (fuel : nat) (now : Z) (c : Connection) (st : State) : option State :=
  match conn_userId c with
  | Some u =>
      if decide (u = "") then Some st
      else removeClient fuel now st (conn_roomId c) u
  | None => Some st
  end.

Definition ws_closed (s : WebSocket) : WebSocket :=
  mkWebSocket CLOSED (sendThrows s) (sent s) (listeners s).

(** The socket of a connection closes: every 'close' listener runs. *)
Definition closed (fuel : nat) (now : Z) (c : Connection) (st : State) : option State :=
  let ls := listeners (sock st (conn_ws c)) in
  match onClose fuel now c (with_sock (conn_ws c) ws_closed st) with
  | None => None
  | Some st1 => JsMap.forEach ls (RoomManager.onClose fuel now) st1
  end.

End WsServer.

(** ** The socket.io server *)

Module SocketIO.

Record User : Type := mkUser {
  id : string;
  color : Z;
  particles : option Particles;
  lastUpdate : Z
}.

Record Room : Type := mkRoom {
  users : list (string * User);
  lastActivity : Z
}.

#[global] Instance Room_inhabited : Inhabited Room := populate (mkRoom [] 0).

(** What the server hands to socket.io for delivery. *)
Inductive Emit : Type :=
  | ToRoom (roomId : string) (m : WebSocketMessage)
      (* io.to(roomId).emit('message', m) *)
  | ToOthers (socketId roomId : string) (m : WebSocketMessage)
      (* socket.to(roomId).emit('message', m) *)
  | ClientsOf (roomId : string) (cs : list User).
      (* io.to(roomId).emit('clients', cs) *)

Record State : Type := mkState {
  rooms : list (string * nat);
  heap : list Room;
  socketToUser : list (string * string);
  (** [socket.join(roomId)] calls: socket id and room *)
  joined : list (string * string);
  (** sockets on which the server called [socket.disconnect()] *)
  dropped : list string;
  emitted : list Emit
}.

Definition init_state : State := mkState [] [] [] [] [] [].

(** The variables closed over by the handlers of one accepted socket;
    [sk_room] is the [Room] object fetched when it connected. *)
Record Socket : Type := mkSocket {
  sk_id : string;
  sk_userId : string;
  sk_roomId : string;
  sk_room : nat
}.

Definition room_at (st : State) (p : nat) : Room := heap st !!! p.

Definition with_room (p : nat) (f : Room -> Room) (st : State) : State :=
  mkState (rooms st) (alter f p (heap st)) (socketToUser st) (joined st)
          (dropped st) (emitted st).

Definition emit (e : Emit) (st : State) : State :=
  mkState (rooms st) (heap st) (socketToUser st) (joined st) (dropped st)
          (emitted st ++ [e]).

Definition with_users (f : list (string * User) -> list (string * User)) (r : Room) : Room :=
  mkRoom (f (users r)) (lastActivity r).

Definition set_lastActivity (t : Z) (r : Room) : Room := mkRoom (users r) t.

(** A query parameter read as [!x]: absent or empty. *)
Definition missing (x : option string) : bool :=
  match x with
  | Some s => bool_decide (s = "")
  | None => true
  end.

(** [io.on('connection')] *)
Definition onConnection (now : Z) (st : State) (socketId : string)
    (qUserId qRoomId : option string) : State * option Socket :=
  match qUserId, qRoomId with
  | Some userId, Some roomId =>
      if missing qUserId || missing qRoomId then
        (mkState (rooms st) (heap st) (socketToUser st) (joined st)
                 (dropped st ++ [socketId]) (emitted st), None)
      else
        let st1 :=
          if JsMap.has roomId (rooms st) then st
          else mkState (JsMap.set roomId (length (heap st)) (rooms st))
                       (heap st ++ [mkRoom [] now]) (socketToUser st) (joined st)
                       (dropped st) (emitted st) in
        let p := default 0 (JsMap.get roomId (rooms st1)) in
        let st2 :=
          with_room p (with_users (JsMap.set userId (mkUser userId 16777215 None now))) st1 in
        let st3 :=
          mkState (rooms st2) (heap st2) (JsMap.set socketId userId (socketToUser st2))
                  (joined st2 ++ [(socketId, roomId)]) (dropped st2) (emitted st2) in
        (emit (ToRoom roomId (mkMessage user_joined userId now None None)) st3,
         Some (mkSocket socketId userId roomId p))
  | _, _ =>
      (mkState (rooms st) (heap st) (socketToUser st) (joined st)
               (dropped st ++ [socketId]) (emitted st), None)
  end.

(** The argument of an 'update' event; [None] when reading its fields
    throws. *)
Record UpdatePayload : Type := mkUpdate {
  up_particles : option Particles;
  up_color : option Z
}.

(** [message.color || user.color] *)
Definition pick_color (c : option Z) (old : Z) : Z :=
  match c with
  | Some v => if decide (v = 0%Z) then old else v
  | None => old
  end.

(** [socket.on('update')] *)
Definition onUpdate (now : Z) (sk : Socket) (message : option UpdatePayload)
    (st : State) : State :=
  let st1 := with_room (sk_room sk) (set_lastActivity now) st in
  match JsMap.get (sk_userId sk) (users (room_at st1 (sk_room sk))) with
  | Some _ =>
      match message with
      | Some msg =>
          let f u := mkUser (id u) (pick_color (up_color msg) (color u))
                            (up_particles msg) now in
          let st2 := with_room (sk_room sk) (with_users (JsMap.update (sk_userId sk) f)) st1 in
          emit (ToOthers (sk_id sk) (sk_roomId sk)
                  (mkMessage update (sk_userId sk) now (up_particles msg) (up_color msg)))
               st2
      | None => st1
      end
  | None => st1
  end.

(** [socket.on('disconnect')] *)
Definition onDisconnect (now : Z) (sk : Socket) (st : State) : State :=
  match JsMap.get (sk_id sk) (socketToUser st) with
  | None => st
  | Some uid =>
      if decide (uid = "") then st
      else
        let st1 := with_room (sk_room sk) (with_users (JsMap.delete uid)) st in
        let st2 :=
          mkState (rooms st1) (heap st1) (JsMap.delete (sk_id sk) (socketToUser st1))
                  (joined st1) (dropped st1) (emitted st1) in
        let st3 := emit (ToRoom (sk_roomId sk) (mkMessage user_left uid now None None)) st2 in
        if Nat.eqb (JsMap.size (users (room_at st3 (sk_room sk)))) 0
        then mkState (JsMap.delete (sk_roomId sk) (rooms st3)) (heap st3)
                     (socketToUser st3) (joined st3) (dropped st3) (emitted st3)
        else st3
  end.

(** The five-minute sweep of inactive rooms. *)
Definition reap (now : Z) (st : State) : State :=
  mkState (filter (fun kp => ¬ (now - lastActivity (room_at st kp.2) > 5 * 60 * 1000)%Z)
             (rooms st))
          (heap st) (socketToUser st) (joined st) (dropped st) (emitted st).

(** The 50 ms broadcast of every non-empty room's users. *)
Definition broadcastState (st : State) : State :=
  fold_left
    (fun s kp =>
       let cs := map snd (users (room_at s kp.2)) in
       if Nat.ltb 0 (length cs) then emit (ClientsOf kp.1 cs) s else s)
    (rooms st) st.

Definition members (st : State) (roomId : string) : option (list string) :=
  match JsMap.get roomId (rooms st) with
  | Some p => Some (JsMap.keys (users (room_at st p)))
  | None => None
  end.

End SocketIO.

(** ** Predicates used in the statements *)

Import RoomManager.

(** The registry shows no room [roomId] with zero members: the room is
    absent or has a member. *)
Definition inhabited_or_absent (st : State) (roomId : string) : Prop :=
  members st roomId ≠ Some [].

Definition sio_inhabited_or_absent (st : SocketIO.State) (roomId : string) : Prop :=
  SocketIO.members st roomId ≠ Some [].

(** [c'] is the client [c] whose [lastSeen] was left alone, or set to [now]
    after a send on its socket, which was open in [st]. *)
Definition refreshed (now : Z) (st : State) (c c' : RoomClient) : Prop :=
  ws c' = ws c /\ userId c' = userId c /\
  (lastSeen c' = lastSeen c \/
   (lastSeen c' = now /\ is_open (sock st (ws c)) = true)).

(** An entry that is still there, refreshed at most. *)
Definition kept (now : Z) (st : State) (o o' : option RoomClient) : Prop :=
  match o, o' with
  | Some c, Some c' => refreshed now st c c'
  | None, None => True
  | _, _ => False
  end.

(** An entry that is still there, refreshed at most, or gone. *)
Definition kept_or_gone (now : Z) (st : State) (o o' : option RoomClient) : Prop :=
  match o, o' with
  | Some c, Some c' => refreshed now st c c'
  | _, None => True
  | None, Some _ => False
  end.

(** The sockets kept their state and only gained outgoing messages. *)
Definition same_wire (st st' : State) : Prop :=
  forall w,
    readyState (sock st' w) = readyState (sock st w) /\
    sendThrows (sock st' w) = sendThrows (sock st w) /\
    listeners (sock st' w) = listeners (sock st w) /\
    exists l, sent (sock st' w) = sent (sock st w) ++ l.

(** What deliveries in the room at [p] may change. *)
Record quiet_step (now : Z) (p : nat) (st st' : State) : Prop := mkQuietStep {
  qs_rooms : rooms st' = rooms st;
  qs_wire : same_wire st st';
  qs_len : length (heap st') = length (heap st);
  qs_other : forall q, q ≠ p -> room_at st' q = room_at st q;
  qs_cleanup : lastCleanup (room_at st' p) = lastCleanup (room_at st p);
  qs_clients : forall k,
    kept now st (JsMap.get k (clients (room_at st p)))
                (JsMap.get k (clients (room_at st' p)))
}.

(** What deliveries and removals in the room [roomId], at [p], may change. *)
Record thinning (now : Z) (roomId : string) (p : nat) (st st' : State) : Prop := mkThinning {
  th_rooms : rooms st' = rooms st \/
             (rooms st' = JsMap.delete roomId (rooms st) /\ clients (room_at st' p) = []);
  th_wire : same_wire st st';
  th_len : length (heap st') = length (heap st);
  th_other : forall q, q ≠ p -> room_at st' q = room_at st q;
  th_cleanup : lastCleanup (room_at st' p) = lastCleanup (room_at st p);
  th_clients : forall k,
    kept_or_gone now st (JsMap.get k (clients (room_at st p)))
                        (JsMap.get k (clients (room_at st' p)))
}.

(** The test that guards [send] in [broadcastToRoom]. *)
Definition eligible (excludeUserId : option string) (st : State) (c : RoomClient) : bool :=
  not_excluded excludeUserId c && is_open (sock st (ws c)).

(** ** Concrete histories

    The states below are reached from a fresh manager by the raw-WebSocket
    server (see the [_reached] lemmas); the statements about particular
    inputs are evaluated on them. *)

Module Scenario.

Definition fresh_socket : WebSocket := mkWebSocket OPEN false [] [].

Definition start : State := init_state [fresh_socket; fresh_socket; fresh_socket].

(** Connections 0, 1 and 2 to the room R1, before and after they named their
    user. *)
Definition conn (w : nat) : WsServer.Connection :=
  WsServer.mkConnection w "R1" None.

Definition conn_of (w : nat) (u : string) : WsServer.Connection :=
  WsServer.mkConnection w "R1" (Some u).

Definition hello (u : string) (clientTime : Z) : option WebSocketMessage :=
  Some (mkMessage user_joined u clientTime None None).

(** alice joined R1 on socket 0 at time 100. *)
Definition alice_alone : State :=
  mkState [("R1", 0)]
          [mkRoom "R1" [("alice", mkRoomClient 0 "alice" 100)] 100]
          [("R1-alice", 0)] [(0, ("R1", "alice"))] 1
          [mkWebSocket OPEN false [ping_message 100] [("R1", "alice")];
           fresh_socket; fresh_socket].

(** then bob joined R1 on socket 1 at time 200. *)
Definition alice_and_bob : State :=
  mkState [("R1", 0)]
          [mkRoom "R1" [("alice", mkRoomClient 0 "alice" 200);
                        ("bob", mkRoomClient 1 "bob" 200)] 100]
          [("R1-alice", 0); ("R1-bob", 1)]
          [(0, ("R1", "alice")); (1, ("R1", "bob"))] 2
          [mkWebSocket OPEN false
             [ping_message 100; WsServer.user_joined_message "bob" 200;
              mkMessage user_joined "bob" 8 None None]
             [("R1", "alice")];
           mkWebSocket OPEN false [ping_message 200] [("R1", "bob")];
           fresh_socket].

(** The environment makes [send] throw on a socket from now on. *)
Definition fails (s : WebSocket) : WebSocket :=
  mkWebSocket (readyState s) true (sent s) (listeners s).

(** alice and bob are in R1 and [send] throws on both their sockets. *)
Definition both_failing : State :=
  with_sock 1 fails (with_sock 0 fails alice_and_bob).

(** alice, bob and carol are in R1 and [send] throws on bob's socket. *)
Definition bob_failing : State :=
  mkState [("R1", 0)]
          [mkRoom "R1" [("alice", mkRoomClient 0 "alice" 300);
                        ("bob", mkRoomClient 1 "bob" 300);
                        ("carol", mkRoomClient 2 "carol" 300)] 100]
          [("R1-alice", 0); ("R1-bob", 1); ("R1-carol", 2)]
          [(0, ("R1", "alice")); (1, ("R1", "bob")); (2, ("R1", "carol"))] 3
          [mkWebSocket OPEN false [] [("R1", "alice")];
           mkWebSocket OPEN true [] [("R1", "bob")];
           mkWebSocket OPEN false [] [("R1", "carol")]].

(** Frames that alice's client sends, stamped with its own clock. *)
Definition alice_update : WebSocketMessage :=
  mkMessage update "alice" 5 (Some "[]") None.

Definition alice_pong : WebSocketMessage :=
  mkMessage pong "alice" 990 None None.

(** The same two users on the socket.io server. *)
Definition sio_alice_socket : SocketIO.Socket :=
  SocketIO.mkSocket "s1" "alice" "R1" 0.

Definition sio_alice_and_bob : SocketIO.State :=
  SocketIO.mkState
    [("R1", 0)]
    [SocketIO.mkRoom [("alice", SocketIO.mkUser "alice" 16777215 None 100);
                      ("bob", SocketIO.mkUser "bob" 16777215 None 200)] 100]
    [("s1", "alice"); ("s2", "bob")]
    [("s1", "R1"); ("s2", "R1")] []
    [SocketIO.ToRoom "R1" (mkMessage user_joined "alice" 100 None None);
     SocketIO.ToRoom "R1" (mkMessage user_joined "bob" 200 None None)].

End Scenario.

(** The room at [p] has under key [k] a member with user id [u] whose
    socket is open and whose [send] throws. *)
Definition throws_at (st : State) (p : nat) (k u : string) : Prop :=
  exists c,
    JsMap.get k (clients (room_at st p)) = Some c /\
    userId c = u /\ thrower st c = true.

(** The room [r], at [p], has two such members with distinct user ids. *)
Definition two_throwers (st : State) (r : string) (p : nat) (ka ua kb ub : string) : Prop :=
  getRoom st r = Some p /\ ua ≠ ub /\ throws_at st p ka ua /\ throws_at st p kb ub.

(** ** Statements of the specification that the code does not meet *)

(** "lastSeen is updated on any inbound traffic attributable to the client:
    both a pong and an update refresh it to the current time", for a frame
    received by the raw-WebSocket server from an identified connection. *)
Definition lastSeen_follows_inbound_traffic : Prop :=
  forall fuel now c u frame st st' c' cl,
    WsServer.conn_userId c = Some u ->
    m_type frame = pong \/ m_type frame = update ->
    WsServer.receive fuel now c (Some frame) st = (st', c') ->
    getClient st' (WsServer.conn_roomId c) u = Some cl ->
    lastSeen cl = now.


(** No [send] that a broadcast excluding [excludeUserId] performs in the
    room at [p] throws. *)
Definition quiet_for (excludeUserId : option string) (st : State) (p : nat) : Prop :=
  forall k c,
    JsMap.get k (clients (room_at st p)) = Some c ->
    eligible excludeUserId st c = true ->
    sendThrows (sock st (ws c)) = false.

(** At most one member of the room at [p] has a socket whose [send]
    throws: the one registered under the key and user id [t]. *)
Definition lone_thrower (st : State) (p : nat) (t : string) : Prop :=
  forall k c,
    JsMap.get k (clients (room_at st p)) = Some c ->
    thrower st c = true -> k = t /\ userId c = t.

(** Every member still in the room at [p] that passes the test of
    [broadcastToRoom] was sent the [user_left] of every member that is gone
    since [st]. *)
Definition told_of_evictions (now : Z) (p : nat) (st s : State) : Prop :=
  forall k c,
    JsMap.get k (clients (room_at st p)) = Some c ->
    JsMap.get k (clients (room_at s p)) = None ->
    forall k' c',
      JsMap.get k' (clients (room_at s p)) = Some c' ->
      eligible (Some k) s c' = true ->
      In (user_left_message k now) (sent (sock s (ws c'))).

(** What the sweep of the room [r], at [p] in [st], has achieved in [st']:
    no remaining member exceeds the timeout; a member that exceeded it at
    the start is gone, or is still there with an open socket and
    [lastSeen = now]; a member that did not exceed it is still there; the
    first member in iteration order that exceeded it is gone; and every
    remaining member that passes the test of [broadcastToRoom] was sent the
    [user_left] of every member that is gone. *)
Definition swept (now : Z) (r : string) (p : nat) (st st' : State) : Prop :=
  (forall k c', getClient st' r k = Some c' ->
     (now - lastSeen c' <= CLIENT_TIMEOUT)%Z) /\
  (forall k c, JsMap.get k (clients (room_at st p)) = Some c ->
     (now - lastSeen c > CLIENT_TIMEOUT)%Z ->
     getClient st' r k = None \/
     exists c', getClient st' r k = Some c' /\ lastSeen c' = now /\
                is_open (sock st (ws c)) = true) /\
  (forall k c, JsMap.get k (clients (room_at st p)) = Some c ->
     (now - lastSeen c <= CLIENT_TIMEOUT)%Z ->
     exists c', getClient st' r k = Some c' /\ ws c' = ws c /\ userId c' = userId c) /\
  (forall l1 k l2 c,
     JsMap.keys (clients (room_at st p)) = l1 ++ k :: l2 ->
     (forall a ca, In a l1 -> JsMap.get a (clients (room_at st p)) = Some ca ->
        (now - lastSeen ca <= CLIENT_TIMEOUT)%Z) ->
     JsMap.get k (clients (room_at st p)) = Some c ->
     (now - lastSeen c > CLIENT_TIMEOUT)%Z ->
     getClient st' r k = None) /\
  (forall k c k' c',
     JsMap.get k (clients (room_at st p)) = Some c ->
     getClient st' r k = None ->
     getClient st' r k' = Some c' ->
     eligible (Some k) st' c' = true ->
     In (user_left_message k now) (sent (sock st' (ws c')))).

(** The registry is a map (its keys are unique) and no [Room] object is
    registered twice. *)
Definition rooms_distinct (st : State) : Prop :=
  NoDup (JsMap.keys (rooms st)) /\
  forall r1 r2 q, getRoom st r1 = Some q -> getRoom st r2 = Some q -> r1 = r2.

(** No [send] on a member of a registered room throws. *)
Definition all_quiet (st : State) : Prop :=
  forall r p, getRoom st r = Some p -> quiet_room st p.

(** The URL of a connection names no room: there is no URL, or nothing
    follows its last slash. *)
Definition no_room_in_url (url : option string) : Prop :=
  match url with
  | Some u => WsServer.lastSegment "" u = ""
  | None => True
  end.

(** "A connection without a room id is dropped immediately, no room or
    client state is created for it, and no default room is substituted",
    for the raw-WebSocket server. *)
Definition connection_without_room_is_dropped : Prop :=
  forall fuel now st w url frame st' c',
    no_room_in_url url ->
    is_open (sock st w) = true ->
    WsServer.receive fuel now (WsServer.onConnection st w url).2 frame
      (WsServer.onConnection st w url).1 = (st', c') ->
    is_open (sock (WsServer.onConnection st w url).1 w) = false /\
    WsServer.conn_roomId (WsServer.onConnection st w url).2 ≠ "default" /\
    rooms st' = rooms st.

(** A broadcast excluding [excludeUserId] will send to [c], and the send
    will throw. *)
Definition will_throw (excludeUserId : option string) (st : State) (c : RoomClient) : bool :=
  eligible excludeUserId st c && sendThrows (sock st (ws c)).

(** ** Further predicates *)

(** The sockets kept their state, only gained outgoing messages, and those
    that were not open gained none. *)
Definition wire_kept (st st' : State) : Prop :=
  forall w,
    readyState (sock st' w) = readyState (sock st w) /\
    sendThrows (sock st' w) = sendThrows (sock st w) /\
    listeners (sock st' w) = listeners (sock st w) /\
    (exists l, sent (sock st' w) = sent (sock st w) ++ l) /\
    (is_open (sock st w) = false -> sent (sock st' w) = sent (sock st w)).

(** Nothing was registered: every room of the registry and every client of
    a room object was there before, on the same socket and under the same
    user id. *)
Record only_shrinks (st st' : State) : Prop := mkOnlyShrinks {
  os_rooms : forall r q, getRoom st' r = Some q -> getRoom st r = Some q;
  os_len : length (heap st') = length (heap st);
  os_clients : forall q k c',
    JsMap.get k (clients (room_at st' q)) = Some c' ->
    exists c, JsMap.get k (clients (room_at st q)) = Some c /\
              ws c' = ws c /\ userId c' = userId c;
  os_wire : wire_kept st st'
}.

(** The text has no slash. *)
Fixpoint no_slash (s : string) : bool :=
  match s with
  | EmptyString => true
  | String c s' => negb (bool_decide (c = "/"%char)) && no_slash s'
  end.

(** The members that a join finds in the room. *)
Definition found_clients (st : State) (r : string) : list (string * RoomClient) :=
  match getRoom st r with
  | Some q => clients (room_at st q)
  | None => []
  end.

(** The heartbeat timers were left alone. *)
Definition same_timers (st st' : State) : Prop :=
  pingIntervals st' = pingIntervals st /\
  timers st' = timers st /\
  nextTimer st' = nextTimer st.

(** [close()] on the open ones of the sockets listed. *)
Definition closeSockets (l : list nat) (st : State) : State :=
  fold_left (fun s w => with_sock w closeIfOpen s) l st.

(** The sockets of the clients of the registered rooms. *)
Definition registered_sockets (st : State) : list nat :=
  flat_map (fun kp => map (fun kc => ws kc.2) (clients (room_at st kp.2))) (rooms st).

(** The users that a connection to the socket.io server finds in the room. *)
Definition sio_found_users (st : SocketIO.State) (r : string)
    : list (string * SocketIO.User) :=
  match JsMap.get r (SocketIO.rooms st) with
  | Some q => SocketIO.users (SocketIO.room_at st q)
  | None => []
  end.

(** The ['clients'] events of one round of the periodic broadcast: one for
    each registered room that has a user, in registry order. *)
Definition sio_room_states (st : SocketIO.State) : list SocketIO.Emit :=
  flat_map
    (fun kp : string * nat =>
       match SocketIO.users (SocketIO.room_at st kp.2) with
       | [] => []
       | _ :: _ => [SocketIO.ClientsOf kp.1 (map snd (SocketIO.users (SocketIO.room_at st kp.2)))]
       end)
    (SocketIO.rooms st).

(** The room has had no update for more than five minutes. *)
Definition sio_idle (now : Z) (st : SocketIO.State) (p : nat) : Prop :=
  (now - SocketIO.lastActivity (SocketIO.room_at st p) > 5 * 60 * 1000)%Z.

(** A history of the socket.io server: alice connects to R1 at time 0 on
    the socket s1, the sweep runs after more than five minutes without an
    update, and bob connects to R1 on the socket s2. *)
Definition sio_swept_and_rejoined : SocketIO.State :=
  (SocketIO.onConnection 400001
     (SocketIO.reap 400000
        (SocketIO.onConnection 0 SocketIO.init_state "s1" (Some "alice") (Some "R1")).1)
     "s2" (Some "bob") (Some "R1")).1.

(** The registry names rooms of the heap, and every client of a room
    object is stored under its own user id. *)
Definition well_formed (st : State) : Prop :=
  (forall r q, getRoom st r = Some q -> q < length (heap st)) /\
  (forall q k c, JsMap.get k (clients (room_at st q)) = Some c -> userId c = k).

(** The text has no hyphen. *)
Fixpoint no_dash (s : string) : bool :=
  match s with
  | EmptyString => true
  | String c s' => negb (bool_decide (c = "-"%char)) && no_dash s'
  end.

(** * Properties *)

(** ** The ordered map *)

Section JsMapFacts.
Context {V : Type}.
Implicit Types (m : list (string * V)) (k : string).

Lemma get_set_same k v m : JsMap.get k (JsMap.set k v m) = Some v.
Proof.
  induction m as [|[k' v'] m IH]; simpl.
  - by rewrite decide_True.
  - destruct (decide (k = k')) as [->|Hne]; simpl.
    + by rewrite decide_True.
    + by rewrite decide_False.
Qed.

Lemma get_set_other k k' v m :
  k ≠ k' -> JsMap.get k' (JsMap.set k v m) = JsMap.get k' m.
Proof.
  intros Hne. induction m as [|[k0 v0] m IH]; simpl.
  - by rewrite decide_False.
  - destruct (decide (k = k0)) as [->|Hk]; simpl.
    + by rewrite !decide_False.
    + destruct (decide (k' = k0)); auto.
Qed.

Lemma get_delete_same k m : JsMap.get k (JsMap.delete k m) = None.
Proof.
  induction m as [|[k' v'] m IH]; simpl; [done|].
  destruct (decide (k = k')); simpl; [done|]. by rewrite decide_False.
Qed.

Lemma get_delete_other k k' m :
  k ≠ k' -> JsMap.get k' (JsMap.delete k m) = JsMap.get k' m.
Proof.
  intros Hne. induction m as [|[k0 v0] m IH]; simpl; [done|].
  destruct (decide (k = k0)) as [->|Hk]; simpl.
  - by rewrite decide_False.
  - destruct (decide (k' = k0)); auto.
Qed.

Lemma get_update_same k f m :
  JsMap.get k (JsMap.update k f m) = f <$> JsMap.get k m.
Proof.
  induction m as [|[k' v'] m IH]; simpl; [done|].
  destruct (decide (k = k')) as [->|Hk]; simpl.
  - by rewrite decide_True.
  - by rewrite decide_False.
Qed.

Lemma get_update_other k k' f m :
  k ≠ k' -> JsMap.get k' (JsMap.update k f m) = JsMap.get k' m.
Proof.
  intros Hne. induction m as [|[k0 v0] m IH]; simpl; [done|].
  destruct (decide (k = k0)) as [->|Hk]; simpl.
  - by rewrite !decide_False.
  - destruct (decide (k' = k0)); auto.
Qed.

Lemma keys_update k f m : JsMap.keys (JsMap.update k f m) = JsMap.keys m.
Proof.
  induction m as [|[k' v'] m IH]; simpl; [done|].
  destruct (decide (k = k')); simpl; [done|]. f_equal. apply IH.
Qed.

Lemma get_Some_in_keys k v m : JsMap.get k m = Some v -> In k (JsMap.keys m).
Proof.
  induction m as [|[k' v'] m IH]; simpl; [done|].
  destruct (decide (k = k')) as [->|Hk]; auto.
Qed.

Lemma in_keys_get k m : In k (JsMap.keys m) -> exists v, JsMap.get k m = Some v.
Proof.
  induction m as [|[k' v'] m IH]; simpl; [done|].
  intros [->|Hin].
  - rewrite decide_True by done. eauto.
  - destruct (decide (k = k')); eauto.
Qed.

Lemma get_None_not_in_keys k m : JsMap.get k m = None -> ~ In k (JsMap.keys m).
Proof. intros Hg [v Hv]%in_keys_get. congruence. Qed.

Lemma has_true k m : JsMap.has k m = true <-> exists v, JsMap.get k m = Some v.
Proof.
  unfold JsMap.has. destruct (JsMap.get k m); split; eauto; try done.
  intros [? ?]; done.
Qed.

Lemma has_false k m : JsMap.has k m = false <-> JsMap.get k m = None.
Proof. unfold JsMap.has. destruct (JsMap.get k m); split; done. Qed.

Lemma keys_nil m : JsMap.keys m = [] <-> m = [].
Proof. destruct m; simpl; split; done. Qed.

Lemma size_zero m : Nat.eqb (JsMap.size m) 0 = true <-> m = [].
Proof. destruct m; simpl; split; done. Qed.

Lemma delete_not_in_keys k m : ~ In k (JsMap.keys (JsMap.delete k m)).
Proof. apply get_None_not_in_keys, get_delete_same. Qed.

Lemma in_keys_delete k k' m :
  In k' (JsMap.keys (JsMap.delete k m)) <-> k' ≠ k /\ In k' (JsMap.keys m).
Proof.
  induction m as [|[k0 v0] m IH]; simpl; [tauto|].
  destruct (decide (k = k0)) as [->|Hk]; simpl.
  - rewrite IH. split; [tauto|]. intros [Hne [->|Hin]]; done.
  - rewrite IH. split.
    + intros [->|[? ?]]; auto.
    + intros [Hne [->|Hin]]; auto.
Qed.

Lemma in_keys_set k k' v m :
  In k' (JsMap.keys (JsMap.set k v m)) <-> k' = k \/ In k' (JsMap.keys m).
Proof.
  induction m as [|[k0 v0] m IH]; simpl.
  - split; [intros [->|[]]; auto | intros [->|[]]; auto].
  - destruct (decide (k = k0)) as [->|Hk]; simpl.
    + split; [intros [->|?]; auto | intros [->|[->|?]]; auto].
    + rewrite IH. split; [intros [->|[->|?]]; auto | intros [->|[->|?]]; auto].
Qed.

End JsMapFacts.

Lemma forEach_app {S A : Type} (l1 l2 : list A) (body : S -> A -> option S) (st : S) :
  JsMap.forEach (l1 ++ l2) body st =
  match JsMap.forEach l1 body st with
  | Some st' => JsMap.forEach l2 body st'
  | None => None
  end.
Proof.
  revert st. induction l1 as [|a l1 IH]; intros st; simpl; [done|].
  destruct (body st a); auto.
Qed.

(** An invariant of the loop body is an invariant of the loop. *)
Lemma forEach_invariant {S A : Type} (I : S -> Prop) (body : S -> A -> option S) :
  (forall st a st', I st -> body st a = Some st' -> I st') ->
  forall ks st st', I st -> JsMap.forEach ks body st = Some st' -> I st'.
Proof.
  intros Hstep ks. induction ks as [|a ks IH]; intros st st' HI; simpl.
  - intros [= <-]. done.
  - destruct (body st a) as [st1|] eqn:Hb; [|done]. eauto.
Qed.

(** ** Outcomes

    The methods that keep the state reached when an error is raised return
    what the methods themselves return. *)

Lemma returned_Some o st : returned o = Some st -> o = Returned st.
Proof. destruct o; simpl; congruence. Qed.

Lemma returned_None o : returned o = None -> o = Raised (state_of o).
Proof. destruct o; simpl; congruence. Qed.

Lemma forEach_returned {A : Type} (ks : list A) (bodyU : State -> A -> Outcome)
    (body : State -> A -> option State) (st : State) :
  (forall s a, returned (bodyU s a) = body s a) ->
  returned (Unwinding.forEach ks bodyU st) = JsMap.forEach ks body st.
Proof.
  intros Hb. revert st. induction ks as [|a ks IH]; intros st; simpl; [done|].
  rewrite <- Hb. destruct (bodyU st a); simpl; [apply IH|done].
Qed.

Lemma deliver_returned rcU rc now r p m ex st k :
  (forall s r' u, returned (rcU s r' u) = rc s r' u) ->
  returned (Unwinding.deliver rcU now r p m ex st k) = deliver rc now r p m ex st k.
Proof.
  intros Hrc. unfold Unwinding.deliver, deliver.
  destruct (JsMap.get k _) as [c|]; [|done].
  destruct (_ && _); [|done]. destruct (sendThrows _); [apply Hrc|done].
Qed.

Lemma broadcastWith_returned rcU rc now st r m ex :
  (forall s r' u, returned (rcU s r' u) = rc s r' u) ->
  returned (Unwinding.broadcastWith rcU now st r m ex) = broadcastWith rc now st r m ex.
Proof.
  intros Hrc. unfold Unwinding.broadcastWith, broadcastWith.
  destruct (getRoom st r) as [p|]; [|done].
  apply forEach_returned. intros s a. by apply deliver_returned.
Qed.

Lemma removeClient_returned fuel now st r u :
  returned (Unwinding.removeClient fuel now st r u) = removeClient fuel now st r u.
Proof.
  revert st r u. induction fuel as [|fuel IH]; intros st r u; simpl; [done|].
  destruct (getRoom st r) as [p|]; [|done].
  rewrite <- (broadcastWith_returned (Unwinding.removeClient fuel now)
                (removeClient fuel now)) by apply IH.
  destruct (Unwinding.broadcastWith _ _ _ _ _ _) as [st1|st1]; simpl; [|done].
  destruct (JsMap.has u _); [|done]. by destruct (Nat.eqb _ 0).
Qed.

Lemma broadcastToRoom_returned fuel now st r m ex :
  returned (Unwinding.broadcastToRoom fuel now st r m ex) = broadcastToRoom fuel now st r m ex.
Proof. apply broadcastWith_returned. intros s r' u. apply removeClient_returned. Qed.

Lemma pingClient_returned fuel now st r u :
  returned (Unwinding.pingClient fuel now st r u) = pingClient fuel now st r u.
Proof.
  unfold Unwinding.pingClient, pingClient.
  destruct (getClient st r u) as [c|]; [|apply removeClient_returned].
  destruct (is_open _); [|apply removeClient_returned].
  destruct (sendThrows _); [apply removeClient_returned|done].
Qed.

Lemma addClient_returned fuel now st r u w :
  returned (Unwinding.addClient fuel now st r u w) = addClient fuel now st r u w.
Proof.
  unfold Unwinding.addClient, addClient.
  destruct (getOrCreateRoom now st r) as [st0 p].
  assert (He : returned (Unwinding.evictExisting fuel now st0 r u p)
               = evictExisting fuel now st0 r u p).
  { unfold Unwinding.evictExisting, evictExisting.
    destruct (JsMap.get u _); [apply removeClient_returned|done]. }
  rewrite <- He. destruct (Unwinding.evictExisting _ _ _ _ _ _); simpl; [|done].
  apply pingClient_returned.
Qed.

Lemma broadcastToRoom_Returned fuel now st r m ex st' :
  broadcastToRoom fuel now st r m ex = Some st' ->
  Unwinding.broadcastToRoom fuel now st r m ex = Returned st'.
Proof. intros H. apply returned_Some. by rewrite broadcastToRoom_returned. Qed.

Lemma addClient_Returned fuel now st r u w st' :
  addClient fuel now st r u w = Some st' ->
  Unwinding.addClient fuel now st r u w = Returned st'.
Proof. intros H. apply returned_Some. by rewrite addClient_returned. Qed.

(** ** The two stores *)

Lemma room_at_with_sock w f st p : room_at (with_sock w f st) p = room_at st p.
Proof. reflexivity. Qed.

Lemma sock_with_room p f st w : sock (with_room p f st) w = sock st w.
Proof. reflexivity. Qed.

Lemma room_at_with_room p f st q :
  room_at (with_room p f st) q =
  if decide (p = q /\ p < length (heap st)) then f (room_at st p) else room_at st q.
Proof. unfold room_at, with_room; simpl. apply list_lookup_total_alter. Qed.

Lemma room_at_with_room_other p f st q :
  p ≠ q -> room_at (with_room p f st) q = room_at st q.
Proof. intros. rewrite room_at_with_room. rewrite decide_False; [done|tauto]. Qed.

Lemma room_at_with_room_same p f st :
  p < length (heap st) -> room_at (with_room p f st) p = f (room_at st p).
Proof. intros. rewrite room_at_with_room. by rewrite decide_True. Qed.

Lemma sock_with_sock w f st v :
  sock (with_sock w f st) v =
  if decide (w = v /\ w < length (sockets st)) then f (sock st w) else sock st v.
Proof. unfold sock, with_sock; simpl. apply list_lookup_total_alter. Qed.

Lemma room_at_out_of_range st p :
  length (heap st) <= p -> room_at st p = mkRoom "" [] 0.
Proof.
  intros Hp. unfold room_at. rewrite list_lookup_total_alt.
  by rewrite lookup_ge_None_2.
Qed.

(** A room that holds a client is a room of the heap. *)
Lemma room_with_client_valid st p k c :
  JsMap.get k (clients (room_at st p)) = Some c -> p < length (heap st).
Proof.
  intros Hg. destruct (decide (p < length (heap st))) as [|Hn]; [done|].
  rewrite room_at_out_of_range in Hg by lia. done.
Qed.

Lemma keys_after_refresh p k g st q :
  JsMap.keys (clients (room_at (with_room p (with_clients (JsMap.update k g)) st) q)) =
  JsMap.keys (clients (room_at st q)).
Proof.
  rewrite room_at_with_room. case_decide as Hd; [|done].
  destruct Hd as [-> _]. simpl. apply keys_update.
Qed.

(** ** No empty room outlives a removal *)

Lemma members_with_sock w f st r : members (with_sock w f st) r = members st r.
Proof. reflexivity. Qed.

Lemma members_clearPing r u st r0 : members (clearPing r u st) r0 = members st r0.
Proof.
  unfold clearPing. destruct (JsMap.get _ _); reflexivity.
Qed.

Lemma room_at_clearPing r u st p : room_at (clearPing r u st) p = room_at st p.
Proof. unfold clearPing. destruct (JsMap.get _ _); reflexivity. Qed.

Lemma members_after_refresh p k g st r :
  members (with_room p (with_clients (JsMap.update k g)) st) r = members st r.
Proof.
  unfold members, getRoom. simpl. destruct (JsMap.get r (rooms st)); [|done].
  by rewrite keys_after_refresh.
Qed.

Lemma deliver_keeps_inhabited rc now r p m ex st k st' :
  (forall s u s', rc s r u = Some s' -> inhabited_or_absent s r -> inhabited_or_absent s' r) ->
  deliver rc now r p m ex st k = Some st' ->
  inhabited_or_absent st r -> inhabited_or_absent st' r.
Proof.
  intros Hrc. unfold deliver.
  destruct (JsMap.get k _) as [c|]; [|by intros [= <-]].
  destruct (not_excluded ex c && is_open _); [|by intros [= <-]].
  destruct (sendThrows _).
  - intros Hcall. by eapply Hrc.
  - intros [= <-]. unfold inhabited_or_absent.
    by rewrite members_after_refresh, members_with_sock.
Qed.

Lemma broadcastWith_keeps_inhabited rc now st r m ex st' :
  (forall s u s', rc s r u = Some s' -> inhabited_or_absent s r -> inhabited_or_absent s' r) ->
  broadcastWith rc now st r m ex = Some st' ->
  inhabited_or_absent st r -> inhabited_or_absent st' r.
Proof.
  intros Hrc. unfold broadcastWith.
  destruct (getRoom st r) as [p|]; [|by intros [= <-]].
  intros Hloop HI.
  eapply (forEach_invariant (fun s => inhabited_or_absent s r)); [|exact HI|exact Hloop].
  intros s a s' Hs Hd. by eapply deliver_keeps_inhabited.
Qed.

Lemma removeClient_keeps_inhabited fuel now :
  forall st r u st',
    removeClient fuel now st r u = Some st' ->
    inhabited_or_absent st r -> inhabited_or_absent st' r.
Proof.
  induction fuel as [|fuel IH]; intros st r u st'; simpl; [done|].
  destruct (getRoom st r) as [p|] eqn:Hp; [|by intros [= <-]].
  destruct (broadcastWith _ _ _ _ _ _) as [st1|] eqn:Hb; [|done].
  intros Hres HI.
  assert (H1 : inhabited_or_absent st1 r).
  { eapply broadcastWith_keeps_inhabited; [|exact Hb|exact HI]. intros. by eapply IH. }
  assert (H2 : inhabited_or_absent (clearPing r u st1) r).
  { unfold inhabited_or_absent. by rewrite members_clearPing. }
  clear H1 Hb HI. set (st2 := clearPing r u st1) in *.
  destruct (JsMap.has u _) eqn:Hhas; [|by injection Hres as <-].
  destruct (Nat.eqb _ 0) eqn:Hsz; injection Hres as <-.
  - unfold inhabited_or_absent, members, getRoom, rooms_delete; simpl.
    by rewrite get_delete_same.
  - unfold inhabited_or_absent, members, getRoom in *; simpl in *.
    destruct (JsMap.get r (rooms st2)) as [q|] eqn:Hq; [|done].
    intros [= Hk]. apply keys_nil in Hk.
    destruct (decide (p = q)) as [->|Hne].
    + rewrite Hk in Hsz. done.
    + rewrite room_at_with_room_other in Hk by done.
      apply H2. by rewrite Hk.
Qed.

(** ** Deliveries and removals in a room where no send throws *)

Lemma same_wire_refl st : same_wire st st.
Proof. intros w. repeat split. exists []. by rewrite app_nil_r. Qed.

Lemma same_wire_trans st1 st2 st3 :
  same_wire st1 st2 -> same_wire st2 st3 -> same_wire st1 st3.
Proof.
  intros H12 H23 w. destruct (H12 w) as (Ha & Hb & Hc & l & Hl).
  destruct (H23 w) as (Ha' & Hb' & Hc' & l' & Hl').
  repeat split; try congruence. exists (l ++ l'). rewrite Hl', Hl. by rewrite app_assoc.
Qed.

Lemma same_wire_is_open st st' w :
  same_wire st st' -> is_open (sock st' w) = is_open (sock st w).
Proof. intros H. unfold is_open. destruct (H w) as (-> & _). done. Qed.

Lemma same_wire_thrower st st' c c' :
  same_wire st st' -> ws c' = ws c -> thrower st' c' = thrower st c.
Proof.
  intros H Hw. unfold thrower. rewrite Hw, (same_wire_is_open st st') by done.
  destruct (H (ws c)) as (_ & -> & _). done.
Qed.

Lemma same_wire_with_sock_send w m st : same_wire st (with_sock w (ws_send m) st).
Proof.
  intros v. rewrite sock_with_sock. case_decide as Hd.
  - destruct Hd as [-> _]. simpl. repeat split. by exists [m].
  - repeat split. exists []. by rewrite app_nil_r.
Qed.

Lemma refreshed_refl now st c : refreshed now st c c.
Proof. repeat split. by left. Qed.

Lemma refreshed_trans now st st' c1 c2 c3 :
  same_wire st st' ->
  refreshed now st c1 c2 -> refreshed now st' c2 c3 -> refreshed now st c1 c3.
Proof.
  intros Hw (Hw1 & Hu1 & Hl1) (Hw2 & Hu2 & Hl2).
  repeat split; try congruence.
  destruct Hl2 as [Hl2|[Hl2 Ho]].
  - destruct Hl1 as [Hl1|[Hl1 Ho1]]; [left; congruence|right; split; congruence].
  - right. split; [done|]. rewrite Hw1, (same_wire_is_open st st') in Ho; done.
Qed.

Lemma kept_refl now st o : kept now st o o.
Proof. destruct o; simpl; [apply refreshed_refl|done]. Qed.

Lemma kept_trans now st st' o1 o2 o3 :
  same_wire st st' -> kept now st o1 o2 -> kept now st' o2 o3 -> kept now st o1 o3.
Proof.
  intros Hw. destruct o1, o2, o3; simpl; try done. by apply refreshed_trans.
Qed.

Lemma kept_weaken now st o o' : kept now st o o' -> kept_or_gone now st o o'.
Proof. destruct o, o'; simpl; done. Qed.

Lemma kept_or_gone_trans now st st' o1 o2 o3 :
  same_wire st st' ->
  kept_or_gone now st o1 o2 -> kept_or_gone now st' o2 o3 -> kept_or_gone now st o1 o3.
Proof.
  intros Hw. destruct o1, o2, o3; simpl; try done. by apply refreshed_trans.
Qed.

Lemma quiet_step_refl now p st : quiet_step now p st st.
Proof.
  constructor; try done; [apply same_wire_refl|intros k; apply kept_refl].
Qed.

Lemma quiet_step_trans now p st1 st2 st3 :
  quiet_step now p st1 st2 -> quiet_step now p st2 st3 -> quiet_step now p st1 st3.
Proof.
  intros [] []. constructor.
  - congruence.
  - by eapply same_wire_trans.
  - congruence.
  - intros q Hq. rewrite qs_other1, qs_other0; done.
  - congruence.
  - intros k. eapply kept_trans; eauto.
Qed.

Lemma quiet_step_thinning now r p st st' : quiet_step now p st st' -> thinning now r p st st'.
Proof.
  intros []. constructor; try done; [by left|].
  intros k. by apply kept_weaken.
Qed.

Lemma get_all_None {V : Type} (m : list (string * V)) :
  (forall k, JsMap.get k m = None) -> m = [].
Proof.
  destruct m as [|[k v] m]; [done|]. intros H. specialize (H k). simpl in H.
  by rewrite decide_True in H.
Qed.

Lemma delete_delete {V : Type} k (m : list (string * V)) :
  JsMap.delete k (JsMap.delete k m) = JsMap.delete k m.
Proof.
  induction m as [|[k' v'] m IH]; simpl; [done|].
  destruct (decide (k = k')); simpl; [done|]. rewrite decide_False by done. by rewrite IH.
Qed.

Lemma thinning_refl now r p st : thinning now r p st st.
Proof. apply quiet_step_thinning, quiet_step_refl. Qed.

Lemma thinning_trans now r p st1 st2 st3 :
  thinning now r p st1 st2 -> thinning now r p st2 st3 -> thinning now r p st1 st3.
Proof.
  intros [] [].
  assert (Hcl : forall k,
    kept_or_gone now st1 (JsMap.get k (clients (room_at st1 p)))
                         (JsMap.get k (clients (room_at st3 p)))).
  { intros k. eapply kept_or_gone_trans; eauto. }
  constructor; try congruence.
  - destruct th_rooms1 as [E2|[E2 Hnil2]].
    + destruct th_rooms0 as [E1|[E1 Hnil1]]; [left; congruence|].
      right. split; [congruence|]. apply get_all_None. intros k.
      specialize (th_clients1 k). rewrite Hnil1 in th_clients1. simpl in th_clients1.
      destruct (JsMap.get k (clients (room_at st3 p))); done.
    + right. split; [|done]. destruct th_rooms0 as [E1|[E1 Hnil1]]; [congruence|].
      rewrite E2, E1. apply delete_delete.
  - by eapply same_wire_trans.
  - intros q Hq. rewrite th_other1, th_other0; done.
  - done.
Qed.

Lemma quiet_room_kept now p st st' :
  same_wire st st' ->
  (forall k, kept_or_gone now st (JsMap.get k (clients (room_at st p)))
                                 (JsMap.get k (clients (room_at st' p)))) ->
  quiet_room st p -> quiet_room st' p.
Proof.
  intros Hw Hk Hq k c' Hg. specialize (Hk k). rewrite Hg in Hk.
  destruct (JsMap.get k (clients (room_at st p))) as [c|] eqn:Hc; [|done].
  simpl in Hk. destruct Hk as (Hws & _).
  rewrite (same_wire_thrower st st' c c') by done. by eapply Hq.
Qed.

Lemma quiet_room_thinning now r p st st' :
  thinning now r p st st' -> quiet_room st p -> quiet_room st' p.
Proof. intros []. by eapply quiet_room_kept. Qed.

Lemma quiet_room_step now p st st' :
  quiet_step now p st st' -> quiet_room st p -> quiet_room st' p.
Proof. intros H. eapply quiet_room_thinning, (quiet_step_thinning now "" p), H. Qed.

(** A loop whose body always succeeds under an invariant that may speak of
    the keys still to visit. *)
Lemma forEach_total {S A : Type} (I : list A -> S -> Prop) (body : S -> A -> option S) :
  (forall a ks s, I (a :: ks) s -> exists s', body s a = Some s' /\ I ks s') ->
  forall ks s, I ks s -> exists s', JsMap.forEach ks body s = Some s' /\ I [] s'.
Proof.
  intros Hstep ks. induction ks as [|a ks IH]; intros s HI; simpl; [eauto|].
  destruct (Hstep a ks s HI) as (s1 & -> & H1). eauto.
Qed.

Lemma eligible_refreshed now ex st st' c c' :
  same_wire st st' -> refreshed now st c c' -> eligible ex st' c' = eligible ex st c.
Proof.
  intros Hw (Hws & Hu & _). unfold eligible, not_excluded.
  rewrite Hws, Hu, (same_wire_is_open st st') by done. done.
Qed.

Lemma set_lastSeen_refreshed now st c c' :
  refreshed now st c c' -> set_lastSeen now c' = set_lastSeen now c.
Proof. intros (Hws & Hu & _). unfold set_lastSeen. by rewrite Hws, Hu. Qed.

Lemma in_sent_same_wire st st' w m :
  same_wire st st' -> In m (sent (sock st w)) -> In m (sent (sock st' w)).
Proof.
  intros Hw Hin. destruct (Hw w) as (_ & _ & _ & l & ->). apply in_or_app. by left.
Qed.

Lemma quiet_room_for ex st p : quiet_room st p -> quiet_for ex st p.
Proof.
  intros Hq k c Hc He. specialize (Hq k c Hc). unfold thrower in Hq.
  apply andb_true_iff in He as [_ Ho]. by rewrite Ho in Hq.
Qed.

Lemma quiet_for_step now ex p st st' :
  quiet_step now p st st' -> quiet_for ex st p -> quiet_for ex st' p.
Proof.
  intros Hs Hq k c' Hc' He.
  assert (Hk := qs_clients _ _ _ _ Hs k). rewrite Hc' in Hk.
  destruct (JsMap.get k (clients (room_at st p))) as [c|] eqn:Hc; [|done].
  simpl in Hk. assert (Hw : same_wire st st') by (by destruct Hs).
  rewrite (eligible_refreshed now ex st st' c c') in He by done.
  destruct Hk as (-> & _). destruct (Hw (ws c)) as (_ & -> & _). by eapply Hq.
Qed.

Lemma deliver_quiet rc now r p m ex st k :
  quiet_for ex st p ->
  exists st',
    deliver rc now r p m ex st k = Some st' /\
    quiet_step now p st st' /\
    (forall k', k' ≠ k ->
       JsMap.get k' (clients (room_at st' p)) = JsMap.get k' (clients (room_at st p))) /\
    (forall c, JsMap.get k (clients (room_at st p)) = Some c ->
       if eligible ex st c
       then JsMap.get k (clients (room_at st' p)) = Some (set_lastSeen now c) /\
            In m (sent (sock st' (ws c)))
       else st' = st).
Proof.
  intros Hq. unfold deliver.
  destruct (JsMap.get k (clients (room_at st p))) as [c|] eqn:Hc.
  2:{ exists st. split_and!; [done|apply quiet_step_refl|done|done]. }
  fold (eligible ex st c).
  destruct (eligible ex st c) eqn:He.
  2:{ exists st. split_and!; [done|apply quiet_step_refl|done|].
      intros c0 [= <-]. by rewrite He. }
  assert (Hop : is_open (sock st (ws c)) = true).
  { unfold eligible in He. by apply andb_true_iff in He as [_ ?]. }
  rewrite (Hq k c Hc He).
  assert (Hp : p < length (heap st)) by (by eapply room_with_client_valid).
  eexists. split; [reflexivity|].
  assert (Hcl : clients (room_at
              (with_room p (with_clients (JsMap.update k (set_lastSeen now)))
                 (with_sock (ws c) (ws_send m) st)) p)
            = JsMap.update k (set_lastSeen now) (clients (room_at st p))).
  { rewrite room_at_with_room_same by done. done. }
  split; [|split].
  - constructor.
    + done.
    + intros w. rewrite sock_with_room. apply same_wire_with_sock_send.
    + simpl. by rewrite length_alter.
    + intros q Hne. by rewrite room_at_with_room_other.
    + rewrite room_at_with_room_same by done. done.
    + intros k'. rewrite Hcl. destruct (decide (k = k')) as [<-|Hne].
      * rewrite get_update_same, Hc. simpl. repeat split. by right.
      * rewrite get_update_other by done. apply kept_refl.
  - intros k' Hne. rewrite Hcl. by rewrite get_update_other.
  - intros c0 [= <-]. rewrite He, Hcl. split.
    + by rewrite get_update_same, Hc.
    + rewrite sock_with_room, sock_with_sock. case_decide as Hd.
      * simpl. apply in_or_app. right. by left.
      * exfalso. apply Hd. split; [done|].
        destruct (decide (ws c < length (sockets st))) as [|Hn]; [done|].
        unfold is_open, sock in Hop. rewrite list_lookup_total_alt in Hop.
        rewrite lookup_ge_None_2 in Hop by lia. done.
Qed.

(** [broadcastToRoom] when none of its sends throws: it returns, whatever
    [removeClient] would do; every eligible member has been sent the
    message and has [lastSeen = now]; every other member is untouched. *)
Lemma broadcastWith_for rc now st r p m ex :
  getRoom st r = Some p ->
  quiet_for ex st p ->
  exists st',
    broadcastWith rc now st r m ex = Some st' /\
    quiet_step now p st st' /\
    (forall k c, JsMap.get k (clients (room_at st p)) = Some c ->
       if eligible ex st c
       then JsMap.get k (clients (room_at st' p)) = Some (set_lastSeen now c) /\
            In m (sent (sock st' (ws c)))
       else JsMap.get k (clients (room_at st' p)) = Some c).
Proof.
  intros Hr Hq. unfold broadcastWith. rewrite Hr. unfold JSON_stringify.
  set (I := fun (ks : list string) (s : State) =>
    quiet_for ex s p /\ quiet_step now p st s /\
    forall k c, JsMap.get k (clients (room_at st p)) = Some c ->
      if eligible ex st c
      then ~ In k ks ->
           JsMap.get k (clients (room_at s p)) = Some (set_lastSeen now c) /\
           In m (sent (sock s (ws c)))
      else JsMap.get k (clients (room_at s p)) = Some c).
  destruct (forEach_total I (deliver rc now r p m ex)) with
    (ks := JsMap.keys (clients (room_at st p))) (s := st) as (st' & Hrun & HI).
  - intros a ks s (Hqs & Hstep & Hinv).
    destruct (deliver_quiet rc now r p m ex s a Hqs) as (s' & Hd & Hss' & Hoth & Hat).
    exists s'. split; [done|]. split; [by eapply quiet_for_step|].
    split; [by eapply quiet_step_trans|].
    intros k c Hc. specialize (Hinv k c Hc).
    assert (Hk := qs_clients _ _ _ _ Hstep k). rewrite Hc in Hk.
    destruct (JsMap.get k (clients (room_at s p))) as [cs|] eqn:Hcs; [|done].
    simpl in Hk.
    assert (Hel : eligible ex s cs = eligible ex st c).
    { eapply eligible_refreshed; [|exact Hk]. by destruct Hstep. }
    destruct (decide (k = a)) as [->|Hne].
    + specialize (Hat cs Hcs). rewrite Hel in Hat.
      destruct (eligible ex st c).
      * intros _. destruct Hat as [Hg Hin].
        rewrite (set_lastSeen_refreshed now st c cs) in Hg by done.
        split; [done|]. destruct Hk as (<- & _). done.
      * subst s'. rewrite Hcs. done.
    + rewrite Hoth by done. destruct (eligible ex st c).
      * intros Hnin.
        assert (Hn2 : ~ In k (a :: ks)) by (simpl; intros [?|?]; [by subst|done]).
        destruct (Hinv Hn2) as [Hg Hin].
        split; [congruence|]. eapply in_sent_same_wire; [|exact Hin]. by destruct Hss'.
      * congruence.
  - split; [done|]. split; [apply quiet_step_refl|].
    intros k c Hc. destruct (eligible ex st c); [|done].
    intros Hnin. exfalso. apply Hnin. by eapply get_Some_in_keys.
  - exists st'. split; [done|]. destruct HI as (_ & Hstep & Hinv). split; [done|].
    intros k c Hc. specialize (Hinv k c Hc). destruct (eligible ex st c); auto.
Qed.

Lemma broadcastWith_quiet rc now st r p m ex :
  getRoom st r = Some p ->
  quiet_room st p ->
  exists st',
    broadcastWith rc now st r m ex = Some st' /\
    quiet_step now p st st' /\
    (forall k c, JsMap.get k (clients (room_at st p)) = Some c ->
       if eligible ex st c
       then JsMap.get k (clients (room_at st' p)) = Some (set_lastSeen now c) /\
            In m (sent (sock st' (ws c)))
       else JsMap.get k (clients (room_at st' p)) = Some c).
Proof. intros Hr Hq. by apply broadcastWith_for, quiet_room_for. Qed.

Lemma sock_clearPing r u st w : sock (clearPing r u st) w = sock st w.
Proof. unfold clearPing. destruct (JsMap.get _ _); reflexivity. Qed.

Lemma rooms_clearPing r u st : rooms (clearPing r u st) = rooms st.
Proof. unfold clearPing. destruct (JsMap.get _ _); reflexivity. Qed.

Lemma heap_clearPing r u st : heap (clearPing r u st) = heap st.
Proof. unfold clearPing. destruct (JsMap.get _ _); reflexivity. Qed.

Lemma clearPing_thinning now r p r0 u st : thinning now r p st (clearPing r0 u st).
Proof.
  constructor.
  - left. apply rooms_clearPing.
  - intros w. rewrite sock_clearPing. apply same_wire_refl.
  - by rewrite heap_clearPing.
  - intros q _. apply room_at_clearPing.
  - by rewrite room_at_clearPing.
  - intros k. rewrite room_at_clearPing.
    destruct (JsMap.get k _); simpl; [apply refreshed_refl|done].
Qed.

Lemma drop_thinning now r p u st :
  p < length (heap st) ->
  thinning now r p st (with_room p (with_clients (JsMap.delete u)) st).
Proof.
  intros Hp. constructor.
  - by left.
  - intros w. rewrite sock_with_room. apply same_wire_refl.
  - simpl. by rewrite length_alter.
  - intros q Hq. by rewrite room_at_with_room_other.
  - by rewrite room_at_with_room_same.
  - intros k. rewrite room_at_with_room_same by done. simpl.
    destruct (decide (u = k)) as [<-|Hne].
    + rewrite get_delete_same. by destruct (JsMap.get u _).
    + rewrite get_delete_other by done.
      destruct (JsMap.get k _); simpl; [apply refreshed_refl|done].
Qed.

Lemma rooms_delete_thinning now r p st :
  clients (room_at st p) = [] -> thinning now r p st (rooms_delete r st).
Proof.
  intros Hnil. constructor.
  - right. done.
  - apply (same_wire_refl st).
  - done.
  - done.
  - done.
  - intros k. change (room_at (rooms_delete r st) p) with (room_at st p).
    destruct (JsMap.get k _); simpl; [apply refreshed_refl|done].
Qed.

(** What [removeClient] does once its [user_left] broadcast has returned
    [st1]: the ping timer is cleared, the user is deleted from the room
    object fetched on entry, and the room is dropped from the registry if
    that emptied it. *)
Lemma removeClient_after_broadcast fuel now st r p u st1 :
  getRoom st r = Some p ->
  broadcastWith (removeClient fuel now) now st r (user_left_message u now) (Some u)
    = Some st1 ->
  exists st',
    removeClient (S fuel) now st r u = Some st' /\
    thinning now r p st1 st' /\
    JsMap.get u (clients (room_at st' p)) = None /\
    (forall k, k ≠ u ->
       JsMap.get k (clients (room_at st' p)) = JsMap.get k (clients (room_at st1 p))) /\
    (forall w, sock st' w = sock st1 w) /\
    (rooms st' = rooms st1 \/
     (rooms st' = JsMap.delete r (rooms st1) /\ clients (room_at st' p) = [] /\
      is_Some (JsMap.get u (clients (room_at st1 p))))) /\
    (clients (room_at st' p) = [] -> is_Some (JsMap.get u (clients (room_at st1 p))) ->
     getRoom st' r = None).
Proof.
  intros Hr Hb. simpl. rewrite Hr, Hb.
  set (st2 := clearPing r u st1).
  assert (H12 : thinning now r p st1 st2) by apply clearPing_thinning.
  assert (Hcl2 : clients (room_at st2 p) = clients (room_at st1 p)).
  { unfold st2. by rewrite room_at_clearPing. }
  assert (Hs2 : forall w, sock st2 w = sock st1 w).
  { intros w. unfold st2. apply sock_clearPing. }
  assert (Hr2 : rooms st2 = rooms st1) by apply rooms_clearPing.
  destruct (JsMap.has u (clients (room_at st2 p))) eqn:Hhas.
  - apply has_true in Hhas as [cu Hcu].
    assert (Hp : p < length (heap st2)) by (by eapply room_with_client_valid).
    assert (Hwas : is_Some (JsMap.get u (clients (room_at st1 p)))).
    { rewrite <- Hcl2. eauto. }
    set (st3 := with_room p (with_clients (JsMap.delete u)) st2).
    assert (H23 : thinning now r p st2 st3) by (by apply drop_thinning).
    assert (Hcl3 : clients (room_at st3 p) = JsMap.delete u (clients (room_at st1 p))).
    { unfold st3. rewrite room_at_with_room_same by done. simpl. by rewrite Hcl2. }
    assert (Hu3 : JsMap.get u (clients (room_at st3 p)) = None).
    { rewrite Hcl3. apply get_delete_same. }
    assert (Hk3 : forall k, k ≠ u ->
       JsMap.get k (clients (room_at st3 p)) = JsMap.get k (clients (room_at st1 p))).
    { intros k Hne. rewrite Hcl3. by apply get_delete_other. }
    destruct (Nat.eqb (JsMap.size (clients (room_at st3 p))) 0) eqn:Hsz.
    + apply size_zero in Hsz.
      exists (rooms_delete r st3). split; [done|]. split.
      { eapply thinning_trans; [exact H12|]. eapply thinning_trans; [exact H23|].
        by apply rooms_delete_thinning. }
      change (room_at (rooms_delete r st3) p) with (room_at st3 p).
      split_and!; [done|done|exact Hs2| |].
      * right. split_and!; [|done|done]. simpl. by rewrite Hr2.
      * intros _ _. unfold getRoom. simpl. apply get_delete_same.
    + exists st3. split; [done|]. split.
      { eapply thinning_trans; [exact H12|done]. }
      split_and!; [done|done|exact Hs2| |].
      * left. simpl. by rewrite Hr2.
      * intros Hnil. rewrite Hnil in Hsz. done.
  - apply has_false in Hhas. exists st2. split; [done|]. split; [done|].
    rewrite Hcl2. split_and!; [by rewrite <- Hcl2|done|exact Hs2|by left|].
    intros _ [cu Hcu]. rewrite <- Hcl2 in Hcu. congruence.
Qed.

(** [removeClient] when none of the sends of its [user_left] throws: it
    returns with one level of recursion; the user is gone from the room
    object; every other member is still there and, when eligible, was sent
    [user_left] and has [lastSeen = now]; the room leaves the registry
    exactly when the removal of a member emptied it. *)
Lemma removeClient_for fuel now st r p u :
  getRoom st r = Some p ->
  quiet_for (Some u) st p ->
  exists st',
    removeClient (S fuel) now st r u = Some st' /\
    thinning now r p st st' /\
    JsMap.get u (clients (room_at st' p)) = None /\
    (forall k c, k ≠ u -> JsMap.get k (clients (room_at st p)) = Some c ->
       if eligible (Some u) st c
       then JsMap.get k (clients (room_at st' p)) = Some (set_lastSeen now c) /\
            In (user_left_message u now) (sent (sock st' (ws c)))
       else JsMap.get k (clients (room_at st' p)) = Some c) /\
    (forall k, k ≠ u -> JsMap.get k (clients (room_at st p)) = None ->
       JsMap.get k (clients (room_at st' p)) = None) /\
    (rooms st' = rooms st \/
     (rooms st' = JsMap.delete r (rooms st) /\ clients (room_at st' p) = [] /\
      is_Some (JsMap.get u (clients (room_at st p))))) /\
    (clients (room_at st' p) = [] -> is_Some (JsMap.get u (clients (room_at st p))) ->
     getRoom st' r = None).
Proof.
  intros Hr Hq.
  destruct (broadcastWith_for (removeClient fuel now) now st r p
              (user_left_message u now) (Some u) Hr Hq) as (st1 & Hb & Hstep & Hkeys).
  destruct (removeClient_after_broadcast fuel now st r p u st1 Hr Hb)
    as (st' & Hrun & Hth & Hgone & Hsame & Hsock & Hrooms & Hdel).
  assert (Hwas : is_Some (JsMap.get u (clients (room_at st1 p))) ->
                 is_Some (JsMap.get u (clients (room_at st p)))).
  { intros [cu Hcu]. assert (Hk := qs_clients _ _ _ _ Hstep u). rewrite Hcu in Hk.
    destruct (JsMap.get u (clients (room_at st p))); [eauto|done]. }
  exists st'. split; [done|]. split_and!.
  - eapply thinning_trans; [by apply quiet_step_thinning|done].
  - done.
  - intros k c Hne Hc. rewrite Hsame, Hsock by done. by apply Hkeys.
  - intros k Hne Hk. rewrite Hsame by done.
    assert (Hk' := qs_clients _ _ _ _ Hstep k). rewrite Hk in Hk'.
    destruct (JsMap.get k (clients (room_at st1 p))); done.
  - rewrite (qs_rooms _ _ _ _ Hstep) in Hrooms.
    destruct Hrooms as [?|(? & ? & ?)]; [by left|right; auto].
  - intros Hnil Hu. destruct (JsMap.get u (clients (room_at st1 p))) as [cu|] eqn:Hcu.
    + apply Hdel; [done|]. eauto.
    + destruct Hu as [c0 Hc0]. specialize (Hkeys u c0 Hc0).
      destruct (eligible (Some u) st c0); [destruct Hkeys|]; congruence.
Qed.

Lemma removeClient_quiet fuel now st r p u :
  getRoom st r = Some p ->
  quiet_room st p ->
  exists st',
    removeClient (S fuel) now st r u = Some st' /\
    thinning now r p st st' /\
    JsMap.get u (clients (room_at st' p)) = None /\
    (forall k c, k ≠ u -> JsMap.get k (clients (room_at st p)) = Some c ->
       if eligible (Some u) st c
       then JsMap.get k (clients (room_at st' p)) = Some (set_lastSeen now c) /\
            In (user_left_message u now) (sent (sock st' (ws c)))
       else JsMap.get k (clients (room_at st' p)) = Some c) /\
    (forall k, k ≠ u -> JsMap.get k (clients (room_at st p)) = None ->
       JsMap.get k (clients (room_at st' p)) = None) /\
    (rooms st' = rooms st \/
     (rooms st' = JsMap.delete r (rooms st) /\ clients (room_at st' p) = [] /\
      is_Some (JsMap.get u (clients (room_at st p))))) /\
    (clients (room_at st' p) = [] -> is_Some (JsMap.get u (clients (room_at st p))) ->
     getRoom st' r = None).
Proof. intros Hr Hq. by apply removeClient_for, quiet_room_for. Qed.

(** ** Removals and empty rooms *)

Lemma pingClient_keeps_inhabited fuel now st r u st' :
  pingClient fuel now st r u = Some st' ->
  inhabited_or_absent st r -> inhabited_or_absent st' r.
Proof.
  unfold pingClient.
  destruct (getClient st r u) as [c|]; [|apply removeClient_keeps_inhabited].
  destruct (is_open _); [|apply removeClient_keeps_inhabited].
  destruct (sendThrows _); [apply removeClient_keeps_inhabited|].
  by intros [= <-].
Qed.

Lemma members_set_lastCleanup p t st r :
  members (with_room p (set_lastCleanup t) st) r = members st r.
Proof.
  unfold members, getRoom. simpl. destruct (JsMap.get r (rooms st)) as [q|]; [|done].
  rewrite room_at_with_room. by case_decide as Hd; [destruct Hd as [-> _]|].
Qed.

Lemma sweepRoom_keeps_inhabited fuel now st r st' :
  sweepRoom fuel now st r = Some st' ->
  inhabited_or_absent st r -> inhabited_or_absent st' r.
Proof.
  unfold sweepRoom. destruct (getRoom st r) as [p|]; [|by intros [= <-]].
  destruct (_ <? _)%Z; [by intros [= <-]|].
  destruct (JsMap.forEach _ _ _) as [s|] eqn:Hloop; [|done].
  intros [= <-] HI. unfold inhabited_or_absent. rewrite members_set_lastCleanup.
  eapply (forEach_invariant (fun s => inhabited_or_absent s r)); [|exact HI|exact Hloop].
  intros s0 a s1 Hs0. unfold sweepClient.
  destruct (JsMap.get a _) as [c|]; [|by intros [= <-]].
  destruct (_ >? _)%Z; [|by intros [= <-]].
  intros Hrc. by eapply removeClient_keeps_inhabited.
Qed.

Lemma sio_room_at_with_room p f st q :
  SocketIO.room_at (SocketIO.with_room p f st) q =
  if decide (p = q /\ p < length (SocketIO.heap st))
  then f (SocketIO.room_at st p) else SocketIO.room_at st q.
Proof. unfold SocketIO.room_at, SocketIO.with_room; simpl. apply list_lookup_total_alter. Qed.

Lemma sio_onDisconnect_keeps_inhabited now sk st :
  sio_inhabited_or_absent st (SocketIO.sk_roomId sk) ->
  sio_inhabited_or_absent (SocketIO.onDisconnect now sk st) (SocketIO.sk_roomId sk).
Proof.
  intros HI. unfold SocketIO.onDisconnect.
  destruct (JsMap.get (SocketIO.sk_id sk) _) as [uid|]; [|done].
  destruct (decide (uid = "")); [done|].
  set (st1 := SocketIO.with_room (SocketIO.sk_room sk)
                (SocketIO.with_users (JsMap.delete uid)) st).
  set (st3 := SocketIO.emit _ _).
  assert (Hat : forall q, SocketIO.room_at st3 q = SocketIO.room_at st1 q) by done.
  assert (Hrooms : SocketIO.rooms st3 = SocketIO.rooms st) by done.
  destruct (Nat.eqb _ 0) eqn:Hsz.
  - unfold sio_inhabited_or_absent, SocketIO.members. simpl. by rewrite get_delete_same.
  - unfold sio_inhabited_or_absent, SocketIO.members in *. rewrite Hrooms.
    destruct (JsMap.get (SocketIO.sk_roomId sk) (SocketIO.rooms st)) as [q|]; [|done].
    intros [= Hk]. apply keys_nil in Hk. rewrite Hat in Hk, Hsz.
    unfold st1 in Hk, Hsz. rewrite sio_room_at_with_room in Hk, Hsz.
    case_decide as Hd.
    + destruct Hd as [<- Hlen]. rewrite decide_True in Hsz by done.
      rewrite Hk in Hsz. done.
    + apply HI. by rewrite Hk.
Qed.

Lemma alice_alone_reached :
  WsServer.receive 1 100 (Scenario.conn 0) (Scenario.hello "alice" 7) Scenario.start
  = (Scenario.alice_alone, Scenario.conn_of 0 "alice").
Proof. vm_compute. reflexivity. Qed.

Lemma sio_alice_and_bob_reached :
  let '(st1, _) := SocketIO.onConnection 100 SocketIO.init_state "s1"
                     (Some "alice") (Some "R1") in
  SocketIO.onConnection 200 st1 "s2" (Some "bob") (Some "R1")
  = (Scenario.sio_alice_and_bob, Some (SocketIO.mkSocket "s2" "bob" "R1" 0)).
Proof. vm_compute. reflexivity. Qed.

Lemma alice_and_bob_reached :
  WsServer.receive 1 200 (Scenario.conn 1) (Scenario.hello "bob" 8) Scenario.alice_alone
  = (Scenario.alice_and_bob, Scenario.conn_of 1 "bob").
Proof. vm_compute. reflexivity. Qed.

(** C1. Evaluation at the failing input. alice is the only member of R1 and
    joins again on socket 1: [addClient] closes the old socket and removes
    the old client, which empties the room and deletes it from the
    registry; the new client is then stored in the room object that is no
    longer registered. The call returns a registry without room R1 and with
    no client for alice, while the discarded room object holds the new
    client and its heartbeat timer keeps running. *)
Theorem rejoin_of_sole_member_is_orphaned (fuel : nat) :
  exists st',
    addClient (S fuel) 200 Scenario.alice_alone "R1" "alice" 1 = Some st' /\
    members st' "R1" = None /\
    registrations st' "R1" "alice" = 0 /\
    getClient st' "R1" "alice" = None /\
    readyState (sock st' 0) = CLOSING /\
    clients (room_at st' 0) = [("alice", mkRoomClient 1 "alice" 200)] /\
    timers st' = [(1, ("R1", "alice"))].
Proof.
  eexists. split; [vm_compute; reflexivity|]. vm_compute. tauto.
Qed.

(** ** Two members whose sends throw *)

Lemma sent_step now p k c m st :
  JsMap.get k (clients (room_at st p)) = Some c ->
  is_open (sock st (ws c)) = true ->
  quiet_step now p st
    (with_room p (with_clients (JsMap.update k (set_lastSeen now)))
       (with_sock (ws c) (ws_send m) st)).
Proof.
  intros Hc Ho.
  assert (Hp : p < length (heap st)) by (by eapply room_with_client_valid).
  constructor.
  - done.
  - intros w. rewrite sock_with_room. apply same_wire_with_sock_send.
  - simpl. by rewrite length_alter.
  - intros q Hne. by rewrite room_at_with_room_other.
  - rewrite room_at_with_room_same by done. done.
  - intros k'. rewrite room_at_with_room_same by done. simpl.
    rewrite room_at_with_sock.
    destruct (decide (k = k')) as [<-|Hne].
    + rewrite get_update_same, Hc. simpl. split; [done|]. split; [done|]. by right.
    + rewrite get_update_other by done. apply kept_refl.
Qed.

Lemma throws_at_step now p k u st st' :
  quiet_step now p st st' -> throws_at st p k u -> throws_at st' p k u.
Proof.
  intros Hs (c & Hc & Hu & Ht).
  assert (Hk := qs_clients _ _ _ _ Hs k). rewrite Hc in Hk.
  destruct (JsMap.get k (clients (room_at st' p))) as [c'|] eqn:Hc'; [|done].
  simpl in Hk. destruct Hk as (Hw' & Hu' & _).
  exists c'. split_and!; [done|congruence|].
  rewrite (same_wire_thrower st st' c c'); [done|by destruct Hs|done].
Qed.

Lemma two_throwers_step now r p ka ua kb ub st st' :
  quiet_step now p st st' ->
  two_throwers st r p ka ua kb ub -> two_throwers st' r p ka ua kb ub.
Proof.
  intros Hs (Hr & Hne & Ha & Hb). split_and!; [|done|by eapply throws_at_step..].
  unfold getRoom in *. by rewrite (qs_rooms _ _ _ _ Hs).
Qed.

(** A loop fails when the body fails on one of its keys under an invariant
    that the successful steps preserve. *)
Lemma forEach_fails {S A : Type} (I : S -> Prop) (body : S -> A -> option S) (k : A) :
  (forall s, I s -> body s k = None) ->
  (forall s a s', I s -> body s a = Some s' -> I s') ->
  forall ks st, In k ks -> I st -> JsMap.forEach ks body st = None.
Proof.
  intros Hk Hstep ks. induction ks as [|a ks IH]; intros st Hin HI; [done|]. simpl.
  destruct (body st a) as [s'|] eqn:Hb; [|done].
  destruct Hin as [->|Hin]; [by rewrite Hk in Hb|]. eauto.
Qed.

Lemma thrower_open st c : thrower st c = true ->
  is_open (sock st (ws c)) = true /\ sendThrows (sock st (ws c)) = true.
Proof. unfold thrower. by intros ?%andb_true_iff. Qed.

Lemma deliver_at_thrower rc now r p m ex st k u :
  throws_at st p k u ->
  not_excluded ex (mkRoomClient 0 u 0) = true ->
  deliver rc now r p m ex st k = rc st r u.
Proof.
  intros (c & Hc & Hu & [Ho Ht]%thrower_open) Hex. unfold deliver.
  rewrite Hc, Ho, Ht. unfold not_excluded in *. simpl in Hex. rewrite Hu, Hex. done.
Qed.

Lemma deliver_keeps_two_throwers rc now r p m ex ka ua kb ub st k st' :
  (forall s u, two_throwers s r p ka ua kb ub -> rc s r u = None) ->
  two_throwers st r p ka ua kb ub ->
  deliver rc now r p m ex st k = Some st' -> two_throwers st' r p ka ua kb ub.
Proof.
  intros Hrc H2. unfold deliver.
  destruct (JsMap.get k _) as [c|] eqn:Hc; [|by intros [= <-]].
  destruct (not_excluded ex c && is_open _) eqn:He; [|by intros [= <-]].
  destruct (sendThrows _).
  - by rewrite Hrc.
  - intros [= <-]. eapply two_throwers_step; [|exact H2].
    apply sent_step; [done|]. by apply andb_true_iff in He as [_ ?].
Qed.

Lemma one_of_two_not_excluded ex ua ub :
  ua ≠ ub ->
  not_excluded ex (mkRoomClient 0 ua 0) = true \/
  not_excluded ex (mkRoomClient 0 ub 0) = true.
Proof.
  intros Hne. unfold not_excluded. simpl. destruct ex as [e|]; [|by left].
  destruct (decide (ua = e)) as [Ha|Ha].
  - right. rewrite (bool_decide_eq_false_2 (ub = e)) by congruence.
    by rewrite orb_true_r.
  - left. rewrite (bool_decide_eq_false_2 (ua = e)) by done.
    by rewrite orb_true_r.
Qed.

Lemma broadcastWith_two_throwers rc now st r p m ex ka ua kb ub :
  (forall s u, two_throwers s r p ka ua kb ub -> rc s r u = None) ->
  two_throwers st r p ka ua kb ub ->
  broadcastWith rc now st r m ex = None.
Proof.
  intros Hrc H2. unfold broadcastWith.
  assert (Hr : getRoom st r = Some p) by (by destruct H2). rewrite Hr.
  assert (Hin : In ka (JsMap.keys (clients (room_at st p))) /\
                In kb (JsMap.keys (clients (room_at st p)))).
  { destruct H2 as (_ & _ & (ca & Ha & _) & (cb & Hb & _)).
    split; by eapply get_Some_in_keys. }
  destruct Hin as [Hina Hinb].
  destruct (one_of_two_not_excluded ex ua ub) as [Hex|Hex]; [by destruct H2 as (_ & ? & _)|..].
  - apply (forEach_fails (fun s => two_throwers s r p ka ua kb ub) _ ka); [| |done|done].
    + intros s Hs. rewrite (deliver_at_thrower _ _ _ _ _ _ _ _ ua); [by apply Hrc| |done].
      by destruct Hs as (_ & _ & ? & _).
    + intros s a s' Hs Hd. by eapply deliver_keeps_two_throwers.
  - apply (forEach_fails (fun s => two_throwers s r p ka ua kb ub) _ kb); [| |done|done].
    + intros s Hs. rewrite (deliver_at_thrower _ _ _ _ _ _ _ _ ub); [by apply Hrc| |done].
      by destruct Hs as (_ & _ & _ & ?).
    + intros s a s' Hs Hd. by eapply deliver_keeps_two_throwers.
Qed.

(** With two throwing members the mutual recursion of [removeClient] and
    [broadcastToRoom] never ends: no budget is enough. *)
Lemma removeClient_two_throwers fuel now r p ka ua kb ub :
  forall st u,
    two_throwers st r p ka ua kb ub -> removeClient fuel now st r u = None.
Proof.
  induction fuel as [|fuel IH]; intros st u H2; [done|]. simpl.
  assert (Hr : getRoom st r = Some p) by (by destruct H2). rewrite Hr.
  by rewrite (broadcastWith_two_throwers _ now st r p _ _ ka ua kb ub).
Qed.

Lemma broadcastToRoom_two_throwers fuel now st r p m ex ka ua kb ub :
  two_throwers st r p ka ua kb ub -> broadcastToRoom fuel now st r m ex = None.
Proof.
  intros H2. unfold broadcastToRoom.
  eapply broadcastWith_two_throwers; [|exact H2].
  intros s u Hs. by eapply removeClient_two_throwers.
Qed.

Lemma both_failing_two_throwers :
  two_throwers Scenario.both_failing "R1" 0 "alice" "alice" "bob" "bob".
Proof.
  split_and!; [done|done|..].
  - by exists (mkRoomClient 0 "alice" 200).
  - by exists (mkRoomClient 1 "bob" 200).
Qed.

(** C3. Evaluation at the failing input. alice and bob are the members of
    R1 and [send] throws on both sockets. Whatever the message, the
    excluded user and the recursion budget, [broadcastToRoom] does not
    return: the failed send to one member calls [removeClient], whose
    [user_left] broadcast is sent to the other member, still registered,
    whose failure calls [removeClient], whose broadcast is sent to the
    first, and so on. The same holds for [removeClient] on either of them. *)
Theorem broadcast_with_two_failing_members_never_returns
    (fuel : nat) (now : Z) (m : WebSocketMessage) (ex : option string) (u : string) :
  broadcastToRoom fuel now Scenario.both_failing "R1" m ex = None /\
  removeClient fuel now Scenario.both_failing "R1" u = None.
Proof.
  split.
  - eapply broadcastToRoom_two_throwers, both_failing_two_throwers.
  - eapply removeClient_two_throwers, both_failing_two_throwers.
Qed.

(** [removeClient] for a room that the registry does not hold changes
    nothing. *)
Lemma removeClient_unknown_room fuel now st r u :
  getRoom st r = None -> removeClient (S fuel) now st r u = Some st.
Proof. intros Hr. simpl. by rewrite Hr. Qed.

(** C4. Evaluation at the failing input. The room R1 exists and holds only
    alice; [removeClient "R1" "bob"] for the absent user bob still
    broadcasts [user_left] for bob, which alice receives and which resets
    her [lastSeen]: the membership test comes after the broadcast. The
    same happens on every disconnection through the raw-WebSocket server,
    where the server's 'close' listener and the manager's both call
    [removeClient]: when bob's socket closes, alice is told twice that bob
    left. *)
Theorem leave_of_absent_user_is_broadcast (fuel : nat) :
  (exists st',
     removeClient (S fuel) 300 Scenario.alice_alone "R1" "bob" = Some st' /\
     getClient Scenario.alice_alone "R1" "bob" = None /\
     sent (sock st' 0) =
       sent (sock Scenario.alice_alone 0) ++ [user_left_message "bob" 300] /\
     getClient Scenario.alice_alone "R1" "alice" = Some (mkRoomClient 0 "alice" 100) /\
     getClient st' "R1" "alice" = Some (mkRoomClient 0 "alice" 300)) /\
  (exists st',
     WsServer.closed (S fuel) 500 (Scenario.conn_of 1 "bob") Scenario.alice_and_bob
       = Some st' /\
     sent (sock st' 0) =
       sent (sock Scenario.alice_and_bob 0) ++
       [user_left_message "bob" 500; user_left_message "bob" 500]).
Proof.
  split; (eexists; split; [vm_compute; reflexivity|]); vm_compute; tauto.
Qed.

(** C5. Evaluation at the failing input. alice and bob are in R1; at server
    time 1000 alice sends an update frame stamped 5 by her client. The
    raw-WebSocket server passes the parsed frame itself to
    [broadcastToRoom], so bob is sent the update with timestamp 5, not
    1000. The socket.io server, on the same event, builds the outgoing
    update with the server's clock, as do the messages that the manager and
    the servers build themselves. *)
Theorem relayed_update_keeps_client_timestamp (fuel : nat) :
  (exists st',
     WsServer.receive fuel 1000 (Scenario.conn_of 0 "alice")
       (Some Scenario.alice_update) Scenario.alice_and_bob
       = (st', Scenario.conn_of 0 "alice") /\
     sent (sock st' 1) =
       sent (sock Scenario.alice_and_bob 1) ++ [Scenario.alice_update] /\
     m_timestamp Scenario.alice_update = 5%Z) /\
  SocketIO.emitted
    (SocketIO.onUpdate 1000 Scenario.sio_alice_socket
       (Some (SocketIO.mkUpdate (Some "[]") None)) Scenario.sio_alice_and_bob)
  = SocketIO.emitted Scenario.sio_alice_and_bob ++
    [SocketIO.ToOthers "s1" "R1" (mkMessage update "alice" 1000 (Some "[]") None)] /\
  (forall u now,
     m_timestamp (user_left_message u now) = now /\
     m_timestamp (ping_message now) = now /\
     m_timestamp (WsServer.user_joined_message u now) = now).
Proof.
  split_and!.
  - eexists. split; [vm_compute; reflexivity|]. vm_compute. done.
  - vm_compute. reflexivity.
  - done.
Qed.

(** The socket.io server stamps every relayed update with its own clock. *)
Lemma sio_update_carries_server_time now sk msg st :
  is_Some (JsMap.get (SocketIO.sk_userId sk)
             (SocketIO.users (SocketIO.room_at st (SocketIO.sk_room sk)))) ->
  exists m, SocketIO.emitted (SocketIO.onUpdate now sk (Some msg) st) =
              SocketIO.emitted st ++
              [SocketIO.ToOthers (SocketIO.sk_id sk) (SocketIO.sk_roomId sk) m] /\
            m_type m = update /\ m_timestamp m = now.
Proof.
  intros [u Hu]. unfold SocketIO.onUpdate.
  set (st1 := SocketIO.with_room _ _ st).
  assert (Hsome : is_Some (JsMap.get (SocketIO.sk_userId sk)
                    (SocketIO.users (SocketIO.room_at st1 (SocketIO.sk_room sk))))).
  { unfold st1. rewrite sio_room_at_with_room. case_decide; simpl; eauto. }
  destruct Hsome as [u1 ->]. eexists. split; [reflexivity|]. done.
Qed.

(** C8. Evaluation at the failing input. alice and bob are in R1; alice
    answers a heartbeat with a pong at server time 1000. The manager's
    listener refreshes alice's [lastSeen], but the raw-WebSocket server
    first relays the frame like any other: bob is sent alice's pong, and
    the successful send resets bob's [lastSeen] as well. *)
Theorem pong_is_relayed_to_the_room (fuel : nat) :
  exists st',
    WsServer.receive fuel 1000 (Scenario.conn_of 0 "alice")
      (Some Scenario.alice_pong) Scenario.alice_and_bob
      = (st', Scenario.conn_of 0 "alice") /\
    sent (sock st' 1) = sent (sock Scenario.alice_and_bob 1) ++ [Scenario.alice_pong] /\
    getClient Scenario.alice_and_bob "R1" "bob" = Some (mkRoomClient 1 "bob" 200) /\
    getClient st' "R1" "bob" = Some (mkRoomClient 1 "bob" 1000) /\
    getClient st' "R1" "alice" = Some (mkRoomClient 0 "alice" 1000).
Proof.
  eexists. split; [vm_compute; reflexivity|]. vm_compute. tauto.
Qed.

(** C6, counterexample. alice and bob are in R1 and alice's [lastSeen] is
    200; the server receives an update from alice at time 1000 and her
    [lastSeen] is still 200 afterwards. *)
Lemma update_does_not_refresh_sender : ~ lastSeen_follows_inbound_traffic.
Proof.
  intros H.
  assert (E : exists st',
    WsServer.receive 0 1000 (Scenario.conn_of 0 "alice") (Some Scenario.alice_update)
      Scenario.alice_and_bob = (st', Scenario.conn_of 0 "alice") /\
    getClient st' "R1" "alice" = Some (mkRoomClient 0 "alice" 200)).
  { eexists. split; vm_compute; reflexivity. }
  destruct E as (st' & Hrun & Hcl).
  specialize (H 0 1000%Z (Scenario.conn_of 0 "alice") "alice" Scenario.alice_update
                Scenario.alice_and_bob st' _ _ eq_refl (or_intror eq_refl) Hrun Hcl).
  discriminate H.
Qed.

Lemma getClient_updateClientLastSeen now st r u c :
  getClient st r u = Some c ->
  getClient (updateClientLastSeen now st r u) r u = Some (set_lastSeen now c).
Proof.
  unfold getClient, updateClientLastSeen, getRoom.
  destruct (JsMap.get r (rooms st)) as [p|] eqn:Hp; [|done].
  intros Hc. rewrite Hc. simpl. rewrite Hp.
  rewrite room_at_with_room_same by (by eapply room_with_client_valid).
  simpl. by rewrite get_update_same, Hc.
Qed.

Lemma listeners_ignore_non_pong now d ls st :
  m_type d ≠ pong ->
  fold_left (fun s h => RoomManager.onMessage now s h (Some d)) ls st = st.
Proof.
  intros Hd. induction ls as [|h ls IH]; simpl; [done|].
  by rewrite decide_False.
Qed.

(** What the server does with a frame that is not [user_joined], once the
    connection has named its user. *)
Lemma server_relays fuel now c d st u :
  WsServer.conn_userId c = Some u -> u ≠ "" -> m_type d ≠ user_joined ->
  WsServer.onMessage fuel now c (Some d) st =
  (state_of (Unwinding.broadcastToRoom fuel now st (WsServer.conn_roomId c) d (Some u)), c).
Proof.
  intros Hu Hne Hd. unfold WsServer.onMessage, WsServer.identify, WsServer.joins.
  rewrite (bool_decide_eq_false_2 (m_type d = user_joined)) by done.
  rewrite andb_false_l, Hu. by rewrite decide_False.
Qed.

Lemma quiet_room_of_Forall st p :
  Forall (fun kc => thrower st kc.2 = false) (clients (room_at st p)) -> quiet_room st p.
Proof.
  unfold quiet_room. induction 1 as [|[k0 c0] l H0 Hl IH]; intros k c; simpl; [done|].
  destruct (decide (k = k0)); [by intros [= <-]|]. apply IH.
Qed.

Lemma alice_and_bob_quiet : quiet_room Scenario.alice_and_bob 0.
Proof. apply quiet_room_of_Forall. repeat constructor. Qed.


(** ** The timeout sweep *)


Lemma refreshed_fresh now st c c' :
  refreshed now st c c' ->
  (now - lastSeen c <= CLIENT_TIMEOUT)%Z -> (now - lastSeen c' <= CLIENT_TIMEOUT)%Z.
Proof.
  intros (_ & _ & [->|[-> _]]); [done|]. intros _. unfold CLIENT_TIMEOUT. lia.
Qed.

Lemma thinning_getRoom now r p st s :
  thinning now r p st s -> getRoom st r = Some p ->
  getRoom s r = Some p \/ (getRoom s r = None /\ clients (room_at s p) = []).
Proof.
  intros Ht Hr. unfold getRoom in *.
  destruct (th_rooms _ _ _ _ _ Ht) as [->|[-> Hnil]]; [by left|].
  right. split; [apply get_delete_same|done].
Qed.

(** The inner loop of the sweep in a room where no send throws. *)
Lemma sweep_loop_quiet fuel now st r p :
  getRoom st r = Some p -> quiet_room st p ->
  exists s,
    JsMap.forEach (JsMap.keys (clients (room_at st p)))
      (sweepClient (S fuel) now r p) st = Some s /\
    thinning now r p st s /\
    (forall k c', JsMap.get k (clients (room_at s p)) = Some c' ->
       (now - lastSeen c' <= CLIENT_TIMEOUT)%Z) /\
    (forall k c, JsMap.get k (clients (room_at st p)) = Some c ->
       (now - lastSeen c <= CLIENT_TIMEOUT)%Z ->
       is_Some (JsMap.get k (clients (room_at s p)))) /\
    told_of_evictions now p st s.
Proof.
  intros Hr Hq.
  set (I := fun (ks : list string) (s : State) =>
    quiet_room s p /\ thinning now r p st s /\
    (forall k c', JsMap.get k (clients (room_at s p)) = Some c' -> ~ In k ks ->
       (now - lastSeen c' <= CLIENT_TIMEOUT)%Z) /\
    (forall k c, JsMap.get k (clients (room_at st p)) = Some c ->
       (now - lastSeen c <= CLIENT_TIMEOUT)%Z ->
       is_Some (JsMap.get k (clients (room_at s p)))) /\
    told_of_evictions now p st s).
  destruct (forEach_total I (sweepClient (S fuel) now r p))
    with (ks := JsMap.keys (clients (room_at st p))) (s := st) as (s & Hrun & HI).
  - intros a ks s (Hqs & Hth & Hvis & Hfresh & Htold). unfold sweepClient.
    destruct (JsMap.get a (clients (room_at s p))) as [ca|] eqn:Ha.
    2:{ exists s. split; [done|]. split_and!; try done.
        intros k c' Hc' Hnin. apply (Hvis k c' Hc'). intros [->|Hin]; [congruence|done]. }
    destruct (now - lastSeen ca >? CLIENT_TIMEOUT)%Z eqn:Hstale.
    2:{ exists s. split; [done|]. split_and!; try done.
        intros k c' Hc' Hnin. destruct (decide (k = a)) as [->|Hne].
        - assert (c' = ca) as -> by congruence.
          rewrite Z.gtb_ltb in Hstale. by apply Z.ltb_ge in Hstale.
        - apply (Hvis k c' Hc'). intros [Heq|Hin]; [congruence|done]. }
    rewrite Z.gtb_ltb in Hstale. apply Z.ltb_lt in Hstale.
    destruct (thinning_getRoom now r p st s Hth Hr) as [Hrs|[_ Hnil]].
    2:{ rewrite Hnil in Ha. done. }
    destruct (removeClient_quiet fuel now s r p a Hrs Hqs)
      as (s' & Hrun & Hth' & Hgone & Hfwd & Hnone & _ & _).
    exists s'. split; [done|]. split_and!.
    + by eapply quiet_room_thinning.
    + by eapply thinning_trans.
    + intros k c' Hc' Hnin.
      assert (Hne : k ≠ a) by (intros ->; congruence).
      assert (Hk := th_clients _ _ _ _ _ Hth' k). rewrite Hc' in Hk.
      destruct (JsMap.get k (clients (room_at s p))) as [cs|] eqn:Hcs; [|done].
      simpl in Hk. eapply refreshed_fresh; [exact Hk|].
      apply (Hvis k cs Hcs). intros [Heq|Hin]; [congruence|done].
    + intros k c Hc Hf. destruct (Hfresh k c Hc Hf) as [cs Hcs].
      assert (Hk := th_clients _ _ _ _ _ Hth k). rewrite Hc, Hcs in Hk. simpl in Hk.
      assert (Hne : k ≠ a).
      { intros ->. assert (cs = ca) as -> by congruence.
        pose proof (refreshed_fresh now st c ca Hk Hf). lia. }
      specialize (Hfwd k cs Hne Hcs).
      destruct (eligible (Some a) s cs); [destruct Hfwd as [-> _]|rewrite Hfwd]; eauto.
    + intros k c Hc Hgone' k' c' Hc' Hel.
      assert (Hne' : k' ≠ a) by (intros ->; congruence).
      assert (Hk' := th_clients _ _ _ _ _ Hth' k'). rewrite Hc' in Hk'.
      destruct (JsMap.get k' (clients (room_at s p))) as [cs|] eqn:Hcs; [|done].
      simpl in Hk'.
      assert (Hels : eligible (Some k) s cs = true).
      { rewrite <- Hel. symmetry. eapply eligible_refreshed; [|exact Hk']. by destruct Hth'. }
      assert (Hws : ws c' = ws cs) by (by destruct Hk').
      destruct (JsMap.get k (clients (room_at s p))) as [ck|] eqn:Hck.
      * (* [k] is the member evicted in this step *)
        assert (k = a) as ->.
        { destruct (decide (k = a)) as [|Hne]; [done|].
          specialize (Hfwd k ck Hne Hck).
          destruct (eligible (Some a) s ck); [destruct Hfwd|]; congruence. }
        specialize (Hfwd k' cs Hne' Hcs). rewrite Hels in Hfwd.
        destruct Hfwd as [_ Hin]. by rewrite Hws.
      * rewrite Hws. eapply in_sent_same_wire; [by destruct Hth'|].
        eapply Htold; eauto.
  - split_and!; [done|apply thinning_refl| |by eauto|].
    + intros k c' Hc' Hnin. exfalso. apply Hnin. by eapply get_Some_in_keys.
    + intros k c Hc Hgone. congruence.
  - exists s. destruct HI as (_ & Hth & Hvis & Hfresh & Htold).
    split_and!; [done|done| |done|done].
    intros k c' Hc'. apply (Hvis k c' Hc'). by intros [].
Qed.

(** The sweep loop over any keys, from a state where the room is registered
    or already emptied and dropped. *)
Lemma sweep_loop_thinning fuel now r p ks :
  forall s0,
    quiet_room s0 p ->
    getRoom s0 r = Some p \/ clients (room_at s0 p) = [] ->
    exists s,
      JsMap.forEach ks (sweepClient (S fuel) now r p) s0 = Some s /\
      thinning now r p s0 s.
Proof.
  intros s0 Hq0 Hr0.
  set (I := fun (_ : list string) (s : State) =>
    quiet_room s p /\ thinning now r p s0 s /\
    (getRoom s r = Some p \/ clients (room_at s p) = [])).
  destruct (forEach_total I (sweepClient (S fuel) now r p)) with (ks := ks) (s := s0)
    as (s & Hrun & (_ & Hth & _)).
  - intros a ks' s (Hqs & Hth & Hrs). unfold sweepClient.
    destruct (JsMap.get a (clients (room_at s p))) as [ca|] eqn:Ha; [|by exists s].
    destruct (now - lastSeen ca >? CLIENT_TIMEOUT)%Z; [|by exists s].
    destruct Hrs as [Hrs|Hnil]; [|by rewrite Hnil in Ha].
    destruct (removeClient_quiet fuel now s r p a Hrs Hqs)
      as (s' & Hrun & Hth' & _).
    exists s'. split; [done|]. split_and!.
    + by eapply quiet_room_thinning.
    + by eapply thinning_trans.
    + destruct (thinning_getRoom now r p s s' Hth' Hrs) as [?|[_ ?]]; auto.
  - split_and!; [done|apply thinning_refl|done].
  - eauto.
Qed.

(** Keys whose members are within the timeout are passed over. *)
Lemma sweep_loop_skips fuel now r p st ks :
  (forall a ca, In a ks -> JsMap.get a (clients (room_at st p)) = Some ca ->
     (now - lastSeen ca <= CLIENT_TIMEOUT)%Z) ->
  JsMap.forEach ks (sweepClient fuel now r p) st = Some st.
Proof.
  induction ks as [|a ks IH]; intros Hf; simpl; [done|].
  unfold sweepClient at 1.
  destruct (JsMap.get a (clients (room_at st p))) as [ca|] eqn:Ha.
  - assert (Hle := Hf a ca (or_introl eq_refl) Ha).
    rewrite Z.gtb_ltb. rewrite (proj2 (Z.ltb_ge _ _) Hle).
    apply IH. intros a' ca' Hin. apply Hf. by right.
  - apply IH. intros a' ca' Hin. apply Hf. by right.
Qed.

Lemma getClient_at st r p k :
  getRoom st r = Some p -> getClient st r k = JsMap.get k (clients (room_at st p)).
Proof. intros Hr. unfold getClient. by rewrite Hr. Qed.

Lemma getClient_absent st r k : getRoom st r = None -> getClient st r k = None.
Proof. intros Hr. unfold getClient. by rewrite Hr. Qed.

Lemma getClient_set_lastCleanup p t st r k :
  getClient (with_room p (set_lastCleanup t) st) r k = getClient st r k.
Proof.
  unfold getClient, getRoom. simpl. destruct (JsMap.get r (rooms st)) as [q|]; [|done].
  rewrite room_at_with_room. by case_decide as Hd; [destruct Hd as [-> _]|].
Qed.

(** [sweepRoom] on a room that is due and where no send throws. *)
Lemma sweepRoom_quiet fuel now st r p :
  getRoom st r = Some p -> quiet_room st p ->
  (CLEANUP_INTERVAL <= now - lastCleanup (room_at st p))%Z ->
  exists s,
    sweepRoom (S fuel) now st r = Some (with_room p (set_lastCleanup now) s) /\
    thinning now r p st s /\
    swept now r p st (with_room p (set_lastCleanup now) s).
Proof.
  intros Hr Hq Hdue. unfold sweepRoom. rewrite Hr.
  rewrite (proj2 (Z.ltb_ge _ _) Hdue).
  destruct (sweep_loop_quiet fuel now st r p Hr Hq)
    as (s & Hrun & Hth & Hvis & Hfresh & Htold).
  rewrite Hrun. exists s. split; [done|]. split; [done|].
  assert (Hget : forall k c', getClient s r k = Some c' ->
            JsMap.get k (clients (room_at s p)) = Some c').
  { intros k c' Hc'. destruct (thinning_getRoom now r p st s Hth Hr) as [Hrs|[Hrs _]].
    - by rewrite (getClient_at s r p) in Hc'.
    - by rewrite getClient_absent in Hc'. }
  unfold swept. setoid_rewrite getClient_set_lastCleanup. split_and!.
  - intros k c' Hc'. eapply Hvis. by apply Hget.
  - intros k c Hc Hstale.
    destruct (getClient s r k) as [c'|] eqn:Hc'; [right|by left].
    exists c'. split; [done|]. apply Hget in Hc'.
    assert (Hk := th_clients _ _ _ _ _ Hth k). rewrite Hc, Hc' in Hk. simpl in Hk.
    pose proof (Hvis k c' Hc') as Hle.
    destruct Hk as (_ & _ & [Heq|[Heq Ho]]); [rewrite Heq in Hle; lia|done].
  - intros k c Hc Hle. destruct (Hfresh k c Hc Hle) as [c' Hc'].
    assert (Hk := th_clients _ _ _ _ _ Hth k). rewrite Hc, Hc' in Hk. simpl in Hk.
    exists c'. destruct Hk as (Hw & Hu & _). split_and!; [|done|done].
    destruct (thinning_getRoom now r p st s Hth Hr) as [Hrs|[_ Hnil]].
    + by rewrite (getClient_at s r p).
    + rewrite Hnil in Hc'. done.
  - intros l1 k l2 c Hkeys Hl1 Hc Hstale.
    rewrite Hkeys, forEach_app in Hrun.
    rewrite (sweep_loop_skips (S fuel) now r p st l1 Hl1) in Hrun.
    simpl in Hrun. unfold sweepClient at 1 in Hrun. rewrite Hc in Hrun.
    rewrite Z.gtb_ltb in Hrun. rewrite (proj2 (Z.ltb_lt _ _)) in Hrun by lia.
    destruct (removeClient_quiet fuel now st r p k Hr Hq)
      as (s1 & Hrm & Hth1 & Hgone & _).
    destruct (removeClient (S fuel) now st r k) as [s1'|] eqn:E; [|done].
    injection Hrm as ->.
    destruct (sweep_loop_thinning fuel now r p l2 s1) as (s2 & Hrun2 & Hth2).
    { by eapply quiet_room_thinning. }
    { destruct (thinning_getRoom now r p st s1 Hth1 Hr) as [?|[_ ?]]; auto. }
    assert (s2 = s) as -> by congruence.
    destruct (getClient s r k) as [c'|] eqn:Hc'; [|done].
    apply Hget in Hc'.
    assert (Hk := th_clients _ _ _ _ _ Hth2 k). rewrite Hgone, Hc' in Hk. done.
  - intros k c k' c' Hc Hgone Hc' Hel.
    change (sock (with_room p (set_lastCleanup now) s) (ws c')) with (sock s (ws c')).
    apply Hget in Hc'.
    assert (Hrs : getRoom s r = Some p).
    { destruct (thinning_getRoom now r p st s Hth Hr) as [?|[_ Hnil]]; [done|].
      rewrite Hnil in Hc'. done. }
    rewrite (getClient_at s r p) in Hgone by done.
    eapply Htold; eauto.
Qed.

(** *** The whole sweep *)

Lemma quiet_room_same_clients st st' q :
  same_wire st st' -> clients (room_at st' q) = clients (room_at st q) ->
  quiet_room st q -> quiet_room st' q.
Proof.
  intros Hw Hcl. apply (quiet_room_kept 0 q st st' Hw).
  intros k. rewrite Hcl. destruct (JsMap.get k _); simpl; [apply refreshed_refl|done].
Qed.

Lemma clients_set_lastCleanup p t st q :
  clients (room_at (with_room p (set_lastCleanup t) st) q) = clients (room_at st q).
Proof. rewrite room_at_with_room. by case_decide as Hd; [destruct Hd as [-> _]|]. Qed.

(** What the sweep of one room leaves alone. *)
Lemma sweepRoom_frame fuel now s a :
  (forall pa, getRoom s a = Some pa -> quiet_room s pa) ->
  exists s',
    sweepRoom (S fuel) now s a = Some s' /\
    same_wire s s' /\
    (rooms s' = rooms s \/ rooms s' = JsMap.delete a (rooms s)) /\
    (forall q, getRoom s a ≠ Some q -> room_at s' q = room_at s q) /\
    (forall q, quiet_room s q -> quiet_room s' q) /\
    length (heap s') = length (heap s).
Proof.
  intros Hqa. unfold sweepRoom.
  destruct (getRoom s a) as [pa|] eqn:Ha.
  2:{ exists s. split_and!; auto using same_wire_refl. }
  destruct (now - lastCleanup (room_at s pa) <? CLEANUP_INTERVAL)%Z eqn:Hdue.
  { exists s. split_and!; auto using same_wire_refl. }
  apply Z.ltb_ge in Hdue.
  destruct (sweepRoom_quiet fuel now s a pa Ha (Hqa pa eq_refl) Hdue) as (s1 & Hrun & Hth & _).
  unfold sweepRoom in Hrun. rewrite Ha in Hrun.
  rewrite (proj2 (Z.ltb_ge _ _) Hdue) in Hrun. rewrite Hrun.
  eexists. split; [reflexivity|]. split_and!.
  - intros w. rewrite sock_with_room. by destruct Hth.
  - simpl. destruct (th_rooms _ _ _ _ _ Hth) as [?|[? _]]; auto.
  - intros q Hq. assert (pa ≠ q) by congruence.
    rewrite room_at_with_room_other by done. by apply (th_other _ _ _ _ _ Hth).
  - intros q Hq. destruct (decide (q = pa)) as [->|Hne].
    + apply (quiet_room_same_clients s1);
        [intros w; rewrite sock_with_room; apply same_wire_refl| |].
      * apply clients_set_lastCleanup.
      * by eapply quiet_room_thinning.
    + apply (quiet_room_same_clients s); [|by rewrite clients_set_lastCleanup,
        (th_other _ _ _ _ _ Hth)|done].
      intros w. rewrite sock_with_room. by destruct Hth.
  - simpl. rewrite length_alter. by destruct Hth.
Qed.

Lemma NoDup_keys_delete {V : Type} a (m : list (string * V)) :
  NoDup (JsMap.keys m) -> NoDup (JsMap.keys (JsMap.delete a m)).
Proof.
  induction m as [|[k v] m IH]; simpl; [done|].
  intros [Hnot Hnd]%NoDup_cons. destruct (decide (a = k)); [by apply IH|].
  simpl. apply NoDup_cons. split; [|by apply IH].
  rewrite list_elem_of_In. intros Hin. apply in_keys_delete in Hin.
  apply Hnot. rewrite list_elem_of_In. tauto.
Qed.

Lemma eligible_same_wire ex st st' c :
  same_wire st st' -> eligible ex st' c = eligible ex st c.
Proof. intros Hw. unfold eligible. by rewrite (same_wire_is_open st st'). Qed.

(** [swept] speaks of the final state only through the registry entries of
    the room and through what was sent. *)
Lemma swept_transfer now r p st s s' :
  same_wire s s' -> (forall k, getClient s' r k = getClient s r k) ->
  swept now r p st s -> swept now r p st s'.
Proof.
  intros Hw Hg (H1 & H2 & H3 & H4 & H5). unfold swept.
  setoid_rewrite Hg. split_and!; try done.
  intros k c k' c' Hc Hgone Hc' Hel.
  rewrite (eligible_same_wire _ s s') in Hel by done.
  eapply in_sent_same_wire; eauto.
Qed.

(** The same for the state the sweep starts from. *)
Lemma swept_from now r p st0 st s' :
  same_wire st0 st -> room_at st p = room_at st0 p ->
  swept now r p st s' -> swept now r p st0 s'.
Proof.
  intros Hw Hroom (H1 & H2 & H3 & H4 & H5). unfold swept. rewrite <- Hroom.
  split_and!; try done.
  intros k c Hc Hstale. destruct (H2 k c Hc Hstale) as [?|(c' & ? & ? & Ho)]; [by left|].
  right. exists c'. split_and!; [done|done|].
  by rewrite (same_wire_is_open st0 st) in Ho.
Qed.

Lemma getRoom_after_frame s s' a r :
  rooms s' = rooms s \/ rooms s' = JsMap.delete a (rooms s) ->
  a ≠ r -> getRoom s' r = getRoom s r.
Proof.
  unfold getRoom. intros [->| ->] Hne; [done|]. by apply get_delete_other.
Qed.

Lemma getRoom_shrinks s s' a r q :
  rooms s' = rooms s \/ rooms s' = JsMap.delete a (rooms s) ->
  getRoom s' r = Some q -> getRoom s r = Some q.
Proof.
  unfold getRoom. intros [->| ->]; [done|].
  destruct (decide (a = r)) as [->|Hne]; [by rewrite get_delete_same|].
  by rewrite get_delete_other.
Qed.

(** [cleanupInactiveClients] when no send in any registered room throws: it
    returns; a room that is not due is left as it was; a room that is due
    has been swept. *)
Lemma cleanup_quiet fuel now st r p :
  rooms_distinct st -> all_quiet st -> getRoom st r = Some p ->
  exists st',
    cleanupInactiveClients (S fuel) now st = Some st' /\
    same_wire st st' /\
    ((now - lastCleanup (room_at st p) < CLEANUP_INTERVAL)%Z ->
       getRoom st' r = Some p /\ room_at st' p = room_at st p) /\
    ((CLEANUP_INTERVAL <= now - lastCleanup (room_at st p))%Z ->
       swept now r p st st') /\
    ((CLEANUP_INTERVAL <= now - lastCleanup (room_at st p))%Z ->
       p < length (heap st) -> lastCleanup (room_at st' p) = now) /\
    rooms_distinct st' /\ all_quiet st' /\ length (heap st') = length (heap st).
Proof.
  intros [Hnd Hinj] Hq Hr. unfold cleanupInactiveClients.
  set (due := (CLEANUP_INTERVAL <= now - lastCleanup (room_at st p))%Z).
  set (J := fun (ks : list string) (s : State) =>
    NoDup ks /\ same_wire st s /\
    (forall r' p', getRoom s r' = Some p' -> getRoom st r' = Some p') /\
    (forall r' p', getRoom st r' = Some p' -> quiet_room s p') /\
    ((getRoom s r = Some p /\ room_at s p = room_at st p /\ (due -> In r ks)) \/
     (swept now r p st s /\ ~ In r ks /\ due /\
      (p < length (heap st) -> lastCleanup (room_at s p) = now))) /\
    NoDup (JsMap.keys (rooms s)) /\ length (heap s) = length (heap st)).
  destruct (forEach_total J (sweepRoom (S fuel) now)) with
    (ks := JsMap.keys (rooms st)) (s := st) as (st' & Hrun & HJ).
  - intros a ks s (Hndk & Hw & Hreg & Hqs & Htarget & Hnds & Hlens).
    apply NoDup_cons in Hndk as [Hnin Hndk]. rewrite list_elem_of_In in Hnin.
    destruct (sweepRoom_frame fuel now s a)
      as (s' & Hrun & Hw' & Hrooms & Hother & Hquiet & Hlen').
    { intros pa Hpa. eauto. }
    exists s'. split; [done|].
    split; [done|]. split; [by eapply same_wire_trans|].
    split; [intros r' p' Hp'; eapply Hreg, getRoom_shrinks; eauto|].
    split; [intros r' p' Hp'; eauto|].
    split; [|split; [destruct Hrooms as [->| ->]; [done|by apply NoDup_keys_delete]
                    |congruence]].
    + assert (Hsame : a ≠ r -> getRoom s' r = getRoom s r /\
                       (forall q, getRoom st r = Some q -> room_at s' q = room_at s q)).
      { intros Hne. split; [by eapply getRoom_after_frame|].
        intros q Hq'. apply Hother. intros Ha. apply Hne.
        apply (Hinj a r q); [by apply Hreg|done]. }
      destruct Htarget as [(Hrs & Hroom & Hin)|(Hsw & Hnr & Hdue & Hlast)].
      * destruct (decide (a = r)) as [->|Hne].
        -- destruct (decide due) as [Hdue|Hndue].
           ++ right.
              destruct (sweepRoom_quiet fuel now s r p Hrs (Hqs r p Hr))
                as (s1 & Hrun1 & Hth1 & Hsw).
              { by rewrite Hroom. }
              rewrite Hrun in Hrun1. injection Hrun1 as ->.
              split; [by eapply swept_from|]. split; [done|]. split; [done|].
              intros Hp. rewrite room_at_with_room_same; [done|].
              rewrite (th_len _ _ _ _ _ Hth1). congruence.
           ++ left. unfold sweepRoom in Hrun. rewrite Hrs, Hroom in Hrun.
              rewrite (proj2 (Z.ltb_lt _ _)) in Hrun by (unfold due in Hndue; lia).
              injection Hrun as <-. split_and!; [done|done|]. intros; done.
        -- left. destruct (Hsame Hne) as [Hg Hq']. split_and!.
           ++ by rewrite Hg.
           ++ by rewrite (Hq' p Hr).
           ++ intros Hdue. destruct (Hin Hdue) as [?|?]; [done|done].
      * right. assert (Hne : a ≠ r) by (intros ->; apply Hnr; by left).
        destruct (Hsame Hne) as [Hg Hq'].
        split; [|split; [intros ?; apply Hnr; by right|split; [done|]]].
        -- eapply swept_transfer; [exact Hw'| |exact Hsw].
           intros k. unfold getClient. rewrite Hg.
           destruct (getRoom s r) as [q|] eqn:Hq0; [|done].
           rewrite (Hq' q); [done|]. by apply Hreg.
        -- intros Hp. rewrite (Hq' p Hr). by apply Hlast.
  - split; [done|]. split; [apply same_wire_refl|]. split; [done|]. split; [exact Hq|].
    split; [|done].
    left. split_and!; [done|done|]. intros _. by eapply get_Some_in_keys.
  - exists st'. destruct HJ as (_ & Hw & Hreg & Hqs & Htarget & Hnds & Hlens).
    split; [done|]. split; [done|].
    split; [|split; [|split; [|split; [|split; [|done]]]]].
    + intros Hnd'. destruct Htarget as [(? & ? & _)|(_ & _ & Hdue & _)]; [done|].
      unfold due in Hdue. lia.
    + intros Hdue. destruct Htarget as [(_ & _ & Hin)|(? & _ & _)]; [|done].
      destruct (Hin Hdue).
    + intros Hdue Hp. destruct Htarget as [(_ & _ & Hin)|(_ & _ & _ & Hlast)]; [|by apply Hlast].
      destruct (Hin Hdue).
    + split; [done|]. intros r1 r2 q H1 H2. apply (Hinj r1 r2 q); by apply Hreg.
    + intros r' q Hr'. apply (Hqs r'). by apply Hreg.
Qed.



Lemma alice_and_bob_all_quiet : all_quiet Scenario.alice_and_bob.
Proof.
  intros r p. unfold getRoom. simpl. case_decide; [|done].
  intros [= <-]. apply alice_and_bob_quiet.
Qed.


(** ** Deliveries reset the inactivity clock *)

(** One send that does not throw, whatever the other members do. *)
Lemma deliver_success rc now r p m ex st k c :
  JsMap.get k (clients (room_at st p)) = Some c ->
  eligible ex st c = true ->
  sendThrows (sock st (ws c)) = false ->
  exists st',
    deliver rc now r p m ex st k = Some st' /\
    JsMap.get k (clients (room_at st' p)) = Some (set_lastSeen now c) /\
    sent (sock st' (ws c)) = sent (sock st (ws c)) ++ [m].
Proof.
  intros Hc He Hs. unfold deliver. rewrite Hc. fold (eligible ex st c). rewrite He, Hs.
  assert (Hp : p < length (heap st)) by (by eapply room_with_client_valid).
  eexists. split; [reflexivity|]. split.
  - rewrite room_at_with_room_same by done. simpl. rewrite room_at_with_sock.
    by rewrite get_update_same, Hc.
  - rewrite sock_with_room, sock_with_sock. case_decide as Hd; [done|].
    exfalso. apply Hd. split; [done|].
    destruct (decide (ws c < length (sockets st))) as [|Hn]; [done|].
    apply andb_true_iff in He as [_ Hop].
    unfold is_open, sock in Hop. rewrite list_lookup_total_alt in Hop.
    rewrite lookup_ge_None_2 in Hop by lia. done.
Qed.

Lemma rooms_distinct_same_rooms st st' :
  rooms st' = rooms st -> rooms_distinct st -> rooms_distinct st'.
Proof. unfold rooms_distinct, getRoom. by intros ->. Qed.

Lemma all_quiet_step now p st st' :
  quiet_step now p st st' -> all_quiet st -> all_quiet st'.
Proof.
  intros Hs Hq r q Hr. unfold getRoom in Hr. rewrite (qs_rooms _ _ _ _ Hs) in Hr.
  destruct (decide (q = p)) as [->|Hne].
  - eapply quiet_room_step; [exact Hs|]. by apply (Hq r).
  - apply (quiet_room_same_clients st); [by destruct Hs| |by apply (Hq r)].
    by rewrite (qs_other _ _ _ _ Hs).
Qed.

(** ** Connections without identifiers *)

(** C9, counterexample. A socket connects to the raw-WebSocket server with
    no URL: the server keeps it open under the room id "default", and its
    first [user_joined] frame creates the room "default" in the registry. *)
Lemma default_room_is_substituted : ~ connection_without_room_is_dropped.
Proof.
  intros H.
  assert (E : exists st',
    WsServer.receive 1 100 (WsServer.onConnection Scenario.start 0 None).2
      (Scenario.hello "alice" 7) (WsServer.onConnection Scenario.start 0 None).1
    = (st', WsServer.mkConnection 0 "default" (Some "alice")) /\
    members st' "default" = Some ["alice"]).
  { eexists. split; vm_compute; reflexivity. }
  destruct E as (st' & Hrun & Hm).
  destruct (H 1 100%Z Scenario.start 0 None (Scenario.hello "alice" 7) st' _ I eq_refl Hrun)
    as (Hopen & _ & _).
  discriminate Hopen.
Qed.

Lemma sio_missing_or qU qR :
  SocketIO.missing qU = true \/ SocketIO.missing qR = true ->
  match qU, qR with
  | Some _, Some _ => SocketIO.missing qU || SocketIO.missing qR = true
  | _, _ => True
  end.
Proof.
  intros [H|H]; destruct qU, qR; try done; rewrite H; [done|apply orb_true_r].
Qed.

(** C9, as amended. The socket.io server disconnects at once a connection
    whose userId or roomId is absent or empty, and creates no room, user or
    socket entry and emits nothing for it. The raw-WebSocket server takes
    no userId when a socket connects: it keeps the connection, leaves the
    manager and the socket as they are, and uses the room id "default" when
    the URL names no room; frames received before a [user_joined] with a
    non-empty userId leave the manager unchanged as well. *)
Theorem connection_without_identifiers
    (fuel : nat) (now : Z) (sio : SocketIO.State) (socketId : string)
    (qUserId qRoomId : option string) (st : State) (w : nat) (url : option string)
    (frame : option WebSocketMessage) :
  SocketIO.missing qUserId = true \/ SocketIO.missing qRoomId = true ->
  no_room_in_url url ->
  match frame with
  | Some d => m_type d ≠ user_joined \/ m_userId d = ""
  | None => True
  end ->
  SocketIO.onConnection now sio socketId qUserId qRoomId =
    (SocketIO.mkState (SocketIO.rooms sio) (SocketIO.heap sio) (SocketIO.socketToUser sio)
       (SocketIO.joined sio) (SocketIO.dropped sio ++ [socketId]) (SocketIO.emitted sio),
     None) /\
  WsServer.onConnection st w url = (st, WsServer.mkConnection w "default" None) /\
  WsServer.onMessage fuel now (WsServer.mkConnection w "default" None) frame st =
    (st, WsServer.mkConnection w "default" None).
Proof.
  intros Hmiss Hurl Hframe. split_and!.
  - apply sio_missing_or in Hmiss. unfold SocketIO.onConnection.
    destruct qUserId as [u|], qRoomId as [r|]; try done. by rewrite Hmiss.
  - unfold WsServer.onConnection, WsServer.roomIdOfUrl. destruct url as [u|]; [|done].
    simpl in Hurl. rewrite Hurl. by rewrite decide_True.
  - destruct frame as [d|]; [|done].
    unfold WsServer.onMessage, WsServer.identify, WsServer.joins.
    destruct Hframe as [Ht|Hu].
    + by rewrite (bool_decide_eq_false_2 (m_type d = user_joined)).
    + rewrite (bool_decide_eq_true_2 (m_userId d = "")) by done.
      by rewrite andb_false_r.
Qed.

Lemma connection_without_identifiers_witness :
  (SocketIO.missing (Some "alice") = true \/ SocketIO.missing None = true) /\
  no_room_in_url (Some "/rooms/") /\
  SocketIO.onConnection 100 SocketIO.init_state "s1" (Some "alice") None =
    (SocketIO.mkState [] [] [] [] ["s1"] [], None) /\
  WsServer.onConnection Scenario.start 0 (Some "/rooms/")
    = (Scenario.start, WsServer.mkConnection 0 "default" None) /\
  WsServer.onMessage 0 100 (WsServer.mkConnection 0 "default" None)
    (Some Scenario.alice_update) Scenario.start
    = (Scenario.start, WsServer.mkConnection 0 "default" None).
Proof.
  assert (Hty : m_type Scenario.alice_update ≠ user_joined) by discriminate.
  split; [right; reflexivity|]. split; [reflexivity|].
  exact (connection_without_identifiers 0 100 SocketIO.init_state "s1" (Some "alice") None
           Scenario.start 0 (Some "/rooms/") (Some Scenario.alice_update)
           (or_intror eq_refl) eq_refl (or_introl Hty)).
Defined.

(** ** Joining again *)

Lemma registrations_at st r p u :
  getRoom st r = Some p ->
  registrations st r u = length (filter (fun kc => kc.1 = u) (clients (room_at st p))).
Proof. intros Hr. unfold registrations. by rewrite Hr. Qed.

Lemma count_absent {V : Type} u (m : list (string * V)) :
  JsMap.get u m = None -> filter (fun kc => kc.1 = u) m = [].
Proof.
  induction m as [|[k v] m IH]; simpl; [done|].
  destruct (decide (u = k)) as [->|Hne]; [done|]. intros Hg.
  rewrite filter_cons_False by (simpl; congruence). auto.
Qed.

Lemma count_set_fresh {V : Type} u (v : V) (m : list (string * V)) :
  JsMap.get u m = None -> filter (fun kc => kc.1 = u) (JsMap.set u v m) = [(u, v)].
Proof.
  induction m as [|[k v'] m IH]; simpl.
  - intros _. by rewrite filter_cons_True.
  - destruct (decide (u = k)) as [->|Hne]; [done|]. intros Hg.
    rewrite filter_cons_False by (simpl; congruence). auto.
Qed.

Lemma quiet_room_after_close st p w :
  quiet_room st p -> quiet_room (with_sock w ws_close st) p.
Proof.
  intros Hq k c Hc. rewrite room_at_with_sock in Hc. specialize (Hq k c Hc).
  unfold thrower in *. rewrite sock_with_sock. case_decide as Hd; [|done].
  destruct Hd as [-> _]. done.
Qed.

Lemma sock_closed_other st w v :
  v ≠ w ->
  sock (if is_open (sock st w) then with_sock w ws_close st else st) v = sock st v.
Proof.
  intros Hne. destruct (is_open (sock st w)); [|done].
  rewrite sock_with_sock. rewrite decide_False; [done|]. intros [? _]. congruence.
Qed.

(** Where the re-join does what the specification says: the user's old
    client is not the only member of the room (and no send throws, the new
    socket is open and is not the old one). The old socket is closed, and
    exactly one client is registered for the user, on the new socket. *)
Lemma rejoin_with_company fuel now st r p u w old k ck :
  getRoom st r = Some p -> quiet_room st p ->
  JsMap.get u (clients (room_at st p)) = Some old ->
  k ≠ u -> JsMap.get k (clients (room_at st p)) = Some ck ->
  w ≠ ws old -> is_open (sock st w) = true -> sendThrows (sock st w) = false ->
  exists st',
    addClient (S fuel) now st r u w = Some st' /\
    getClient st' r u = Some (mkRoomClient w u now) /\
    registrations st' r u = 1 /\
    is_open (sock st' (ws old)) = false.
Proof.
  intros Hr Hq Hold Hne Hk Hw Hopen Hsend.
  unfold addClient, getOrCreateRoom. rewrite Hr. unfold evictExisting. rewrite Hold.
  set (st0 := if is_open (sock st (ws old)) then with_sock (ws old) ws_close st else st).
  assert (Hr0 : getRoom st0 r = Some p) by (unfold st0; destruct (is_open (sock st (ws old))); exact Hr).
  assert (Hroom0 : room_at st0 p = room_at st p)
    by (unfold st0; destruct (is_open (sock st (ws old))); reflexivity).
  assert (Hq0 : quiet_room st0 p).
  { unfold st0. destruct (is_open (sock st (ws old)));
      [by apply quiet_room_after_close|done]. }
  assert (Hclosed0 : is_open (sock st0 (ws old)) = false).
  { unfold st0. destruct (is_open (sock st (ws old))) eqn:Ho; [|done].
    rewrite sock_with_sock. case_decide as Hd; [done|].
    exfalso. apply Hd. split; [done|].
    destruct (decide (ws old < length (sockets st))) as [|Hn]; [done|].
    unfold is_open, sock in Ho. rewrite list_lookup_total_alt in Ho.
    rewrite lookup_ge_None_2 in Ho by lia. done. }
  destruct (removeClient_quiet fuel now st0 r p u Hr0 Hq0)
    as (st1 & Hrun & Hth & Hgone & Hfwd & _ & Hrooms & _).
  rewrite Hrun.
  assert (Hk1 : is_Some (JsMap.get k (clients (room_at st1 p)))).
  { rewrite <- Hroom0 in Hk. specialize (Hfwd k ck Hne Hk).
    destruct (eligible (Some u) st0 ck); [destruct Hfwd|]; eauto. }
  assert (Hr1 : rooms st1 = rooms st).
  { destruct Hrooms as [->|(_ & Hnil & _)];
      [unfold st0; destruct (is_open (sock st (ws old))); reflexivity|].
    rewrite Hnil in Hk1. by destruct Hk1. }
  assert (Hp : p < length (heap st1)).
  { destruct Hk1 as [c1 Hc1]. by eapply room_with_client_valid. }
  set (client := mkRoomClient w u now).
  set (st2 := with_room p (with_clients (JsMap.set u client)) st1).
  set (st4 := with_sock w (ws_on (r, u)) (startPing r u st2)).
  assert (Hcl4 : clients (room_at st4 p) = JsMap.set u client (clients (room_at st1 p))).
  { change (room_at st4 p) with (room_at st2 p). unfold st2.
    by rewrite room_at_with_room_same. }
  assert (Hr4 : getRoom st4 r = Some p).
  { unfold getRoom. change (rooms st4) with (rooms st1). by rewrite Hr1. }
  assert (Hsock4 : forall v, is_open (sock st4 v) = is_open (sock st0 v) /\
                             sendThrows (sock st4 v) = sendThrows (sock st0 v)).
  { intros v. unfold st4. rewrite sock_with_sock.
    change (sock (startPing r u st2) ?x) with (sock st1 x).
    destruct (th_wire _ _ _ _ _ Hth v) as (Hrs & Hst & _).
    unfold is_open. case_decide as Hd; [destruct Hd as [-> _]; simpl|]; by rewrite Hrs, Hst. }
  assert (Hw0 : sock st0 w = sock st w) by (by apply sock_closed_other).
  unfold pingClient. fold st2. fold st4.
  rewrite (getClient_at st4 r p) by done. rewrite Hcl4, get_set_same.
  cbn [ws client].
  destruct (Hsock4 w) as [-> ->]. rewrite Hw0, Hopen, Hsend.
  eexists. split; [reflexivity|].
  set (st5 := with_sock w _ st4).
  assert (Hr5 : getRoom st5 r = Some p) by done.
  assert (Hcl5 : clients (room_at st5 p) = JsMap.set u client (clients (room_at st1 p))) by done.
  split_and!.
  - rewrite (getClient_at st5 r p) by done. by rewrite Hcl5, get_set_same.
  - rewrite (registrations_at st5 r p) by done. by rewrite Hcl5, count_set_fresh.
  - unfold st5. rewrite sock_with_sock. rewrite decide_False; [|by intros [? _]].
    destruct (Hsock4 (ws old)) as [-> _]. done.
Qed.

(** ** One member whose sends throw *)

Lemma will_throw_thrower ex st c : will_throw ex st c = true -> thrower st c = true.
Proof.
  unfold will_throw, eligible, thrower.
  intros [[_ ->]%andb_true_iff ->]%andb_true_iff. done.
Qed.

Lemma will_throw_refreshed now ex st s c cs :
  same_wire st s -> refreshed now st c cs -> will_throw ex s cs = will_throw ex st c.
Proof.
  intros Hw Hk. unfold will_throw. rewrite (eligible_refreshed now ex st s c cs) by done.
  destruct Hk as (-> & _). by destruct (Hw (ws c)) as (_ & -> & _).
Qed.

Lemma lone_thrower_thinning now r p t st st' :
  thinning now r p st st' -> lone_thrower st p t -> lone_thrower st' p t.
Proof.
  intros Hth Hl k c' Hc' Ht.
  assert (Hk := th_clients _ _ _ _ _ Hth k). rewrite Hc' in Hk.
  destruct (JsMap.get k (clients (room_at st p))) as [c|] eqn:Hc; [|done].
  simpl in Hk. destruct (Hl k c Hc) as [-> Hu].
  - rewrite <- Ht. symmetry. apply (same_wire_thrower st st'); [by destruct Hth|by destruct Hk].
  - split; [done|]. destruct Hk as (_ & -> & _). done.
Qed.

Lemma lone_thrower_quiet_for st p t :
  lone_thrower st p t -> t ≠ "" -> quiet_for (Some t) st p.
Proof.
  intros Hl Hne k c Hc He.
  destruct (sendThrows (sock st (ws c))) eqn:Hs; [|done]. exfalso.
  assert (Ht : thrower st c = true).
  { apply (will_throw_thrower (Some t)). unfold will_throw. by rewrite He, Hs. }
  destruct (Hl k c Hc Ht) as [_ Hu].
  unfold eligible, not_excluded in He. rewrite Hu in He.
  rewrite (bool_decide_eq_false_2 (t = "")) in He by done.
  by rewrite (bool_decide_eq_true_2 (t = t)) in He.
Qed.

Lemma lone_thrower_gone st p t :
  lone_thrower st p t -> JsMap.get t (clients (room_at st p)) = None -> quiet_room st p.
Proof.
  intros Hl Hg k c Hc. destruct (thrower st c) eqn:Ht; [|done].
  destruct (Hl k c Hc Ht) as [-> _]. congruence.
Qed.

(** [broadcastToRoom] in a room where at most one member's send throws: it
    returns; the member whose send threw is gone, removed by the
    [removeClient] of the catch; every other member is still there, and
    those that pass the test were sent the message and have
    [lastSeen = now]. *)
Lemma broadcastWith_lone fuel now st r p m ex t :
  getRoom st r = Some p -> lone_thrower st p t -> t ≠ "" ->
  exists st',
    broadcastWith (removeClient (S fuel) now) now st r m ex = Some st' /\
    thinning now r p st st' /\
    (forall k c, JsMap.get k (clients (room_at st p)) = Some c ->
       will_throw ex st c = true ->
       JsMap.get k (clients (room_at st' p)) = None) /\
    (forall k c, JsMap.get k (clients (room_at st p)) = Some c ->
       will_throw ex st c = false ->
       exists c',
         JsMap.get k (clients (room_at st' p)) = Some c' /\ refreshed now st c c' /\
         (eligible ex st c = true ->
          lastSeen c' = now /\ In m (sent (sock st' (ws c))))) /\
    (forall k c ct, JsMap.get k (clients (room_at st p)) = Some c -> k ≠ t ->
       JsMap.get t (clients (room_at st p)) = Some ct ->
       will_throw ex st ct = true ->
       eligible (Some t) st c = true ->
       exists c',
         JsMap.get k (clients (room_at st' p)) = Some c' /\ lastSeen c' = now /\
         In (user_left_message t now) (sent (sock st' (ws c)))).
Proof.
  intros Hr Hl Hne. unfold broadcastWith. rewrite Hr. unfold JSON_stringify.
  set (I := fun (ks : list string) (s : State) =>
    thinning now r p st s /\ lone_thrower s p t /\
    (forall k c, JsMap.get k (clients (room_at st p)) = Some c ->
       will_throw ex st c = true ->
       In k ks \/ JsMap.get k (clients (room_at s p)) = None) /\
    (forall k c, JsMap.get k (clients (room_at st p)) = Some c ->
       will_throw ex st c = false ->
       exists c',
         JsMap.get k (clients (room_at s p)) = Some c' /\ refreshed now st c c' /\
         (eligible ex st c = true ->
          In k ks \/ (lastSeen c' = now /\ In m (sent (sock s (ws c)))))) /\
    (forall k c ct, JsMap.get k (clients (room_at st p)) = Some c -> k ≠ t ->
       JsMap.get t (clients (room_at st p)) = Some ct ->
       will_throw ex st ct = true ->
       eligible (Some t) st c = true ->
       (exists c',
          JsMap.get k (clients (room_at s p)) = Some c' /\ lastSeen c' = now /\
          In (user_left_message t now) (sent (sock s (ws c)))) \/
       (In t ks /\ is_Some (JsMap.get t (clients (room_at s p)))))).
  destruct (forEach_total I (deliver (removeClient (S fuel) now) now r p m ex))
    with (ks := JsMap.keys (clients (room_at st p))) (s := st) as (st' & Hrun & HI).
  - intros a ks s (Hth & Hls & HA & HB & HC).
    assert (Hw : same_wire st s) by (by destruct Hth).
    unfold deliver.
    destruct (JsMap.get a (clients (room_at s p))) as [cs|] eqn:Hcs.
    2:{ exists s. split; [done|]. split; [done|]. split; [done|]. split; [|split].
        - intros k c Hc Hf. destruct (HA k c Hc Hf) as [[->|Hin]|Hn]; auto.
        - intros k c Hc Hf. destruct (HB k c Hc Hf) as (c' & Hc' & Href & Hel).
          exists c'. split_and!; [done|done|]. intros He.
          destruct (Hel He) as [[->|Hin]|?]; [congruence|by left|by right].
        - intros k c ct Hc Hkt Hct Hf He.
          destruct (HC k c ct Hc Hkt Hct Hf He) as [?|[[Heq|Hin] Hsome]];
            [by left| |by right].
          subst a. rewrite Hcs in Hsome. by destruct Hsome. }
    (* the entry of [a] when the broadcast started *)
    assert (Hka := th_clients _ _ _ _ _ Hth a). rewrite Hcs in Hka.
    destruct (JsMap.get a (clients (room_at st p))) as [c|] eqn:Hc; [|done].
    simpl in Hka.
    assert (Hel : eligible ex s cs = eligible ex st c) by (by eapply eligible_refreshed).
    assert (Hwt : will_throw ex s cs = will_throw ex st c) by (by eapply will_throw_refreshed).
    fold (eligible ex s cs).
    destruct (eligible ex s cs) eqn:He.
    2:{ exists s. split; [done|]. split; [done|]. split; [done|]. split; [|split].
        - intros k c0 Hc0 Hf. destruct (HA k c0 Hc0 Hf) as [[->|Hin]|Hn]; auto.
          assert (c0 = c) as -> by congruence.
          unfold will_throw in Hf. rewrite <- Hel in Hf. done.
        - intros k c0 Hc0 Hf. destruct (HB k c0 Hc0 Hf) as (c' & Hc' & Href & Hel').
          exists c'. split_and!; [done|done|]. intros He0.
          destruct (Hel' He0) as [[->|Hin]|?]; [|by left|by right].
          assert (c0 = c) as -> by congruence. congruence.
        - intros k c0 ct Hc0 Hkt Hct Hf He0.
          destruct (HC k c0 ct Hc0 Hkt Hct Hf He0) as [?|[[Heq|Hin] Hsome]];
            [by left| |by right].
          subst a. assert (ct = c) as -> by congruence.
          unfold will_throw in Hf. rewrite <- Hel in Hf. done. }
    destruct (sendThrows (sock s (ws cs))) eqn:Hs.
    + (* the send throws: [a] is the lone thrower and is removed *)
      assert (Hts : thrower s cs = true).
      { apply (will_throw_thrower ex). unfold will_throw. by rewrite He, Hs. }
      destruct (Hls a cs Hcs Hts) as [-> Hu]. rewrite Hu.
      assert (Hrs : getRoom s r = Some p).
      { destruct (thinning_getRoom now r p st s Hth Hr) as [?|[_ Hnil]]; [done|].
        rewrite Hnil in Hcs. done. }
      destruct (removeClient_for fuel now s r p t Hrs)
        as (s' & Hrun & Hth' & Hgone & Hfwd & _).
      { by apply lone_thrower_quiet_for. }
      exists s'. split; [done|].
      assert (Hw' : same_wire s s') by (by destruct Hth').
      split; [|split; [|split; [|split]]].
      * by eapply thinning_trans.
      * by eapply lone_thrower_thinning.
      * intros k c0 Hc0 Hf. destruct (decide (k = t)) as [->|Hkt]; [by right|].
        destruct (HA k c0 Hc0 Hf) as [[Heq|Hin]|Hn]; [congruence|by left|right].
        assert (Hk := th_clients _ _ _ _ _ Hth' k). rewrite Hn in Hk.
        destruct (JsMap.get k (clients (room_at s' p))); done.
      * intros k c0 Hc0 Hf. destruct (HB k c0 Hc0 Hf) as (c' & Hc' & Href & Hel').
        assert (Hkt : k ≠ t).
        { intros ->. assert (c0 = c) as -> by congruence.
          unfold will_throw in Hwt, Hf. rewrite He, Hs in Hwt. simpl in Hwt. congruence. }
        specialize (Hfwd k c' Hkt Hc').
        assert (Hnext : exists c'',
          JsMap.get k (clients (room_at s' p)) = Some c'' /\ refreshed now s c' c'' /\
          (lastSeen c' = now -> lastSeen c'' = now)).
        { destruct (eligible (Some t) s c') eqn:Het.
          - destruct Hfwd as [Hg _]. exists (set_lastSeen now c'). split_and!; [done| |done].
            split; [done|]. split; [done|]. right. split; [done|].
            by apply andb_true_iff in Het as [_ ?].
          - exists c'. split_and!; [done|apply refreshed_refl|done]. }
        destruct Hnext as (c'' & Hc'' & Href' & Hkeep).
        exists c''. split_and!; [done|by eapply refreshed_trans|].
        intros He0. destruct (Hel' He0) as [[Heq|Hin]|[Hnow Hin]]; [congruence|by left|right].
        split; [by apply Hkeep|]. by eapply in_sent_same_wire.
      * intros k c0 ct Hc0 Hkt Hct Hf He0. left.
        assert (Hwf0 : will_throw ex st c0 = false).
        { destruct (will_throw ex st c0) eqn:Hw0; [|done].
          apply will_throw_thrower in Hw0. by destruct (Hl k c0 Hc0 Hw0). }
        destruct (HB k c0 Hc0 Hwf0) as (c' & Hc' & Href & _).
        specialize (Hfwd k c' Hkt Hc').
        rewrite (eligible_refreshed now (Some t) st s c0 c') in Hfwd by done.
        rewrite He0 in Hfwd. destruct Hfwd as [Hg Hin].
        exists (set_lastSeen now c'). split_and!; [done|done|].
        destruct Href as (<- & _). done.
    + (* the send succeeds *)
      assert (Hop : is_open (sock s (ws cs)) = true).
      { unfold eligible in He. by apply andb_true_iff in He as [_ ?]. }
      assert (Hstep := sent_step now p a cs m s Hcs Hop).
      set (s' := with_room p _ _) in *.
      assert (Hw' : same_wire s s') by (by destruct Hstep).
      assert (Hat : JsMap.get a (clients (room_at s' p)) = Some (set_lastSeen now cs)).
      { assert (Hp : p < length (heap s)) by (by eapply room_with_client_valid).
        unfold s'. rewrite room_at_with_room_same by done. simpl.
        rewrite room_at_with_sock. by rewrite get_update_same, Hcs. }
      assert (Hoth : forall k, k ≠ a ->
                JsMap.get k (clients (room_at s' p)) = JsMap.get k (clients (room_at s p))).
      { intros k Hk.
        assert (Hp : p < length (heap s)) by (by eapply room_with_client_valid).
        unfold s'. rewrite room_at_with_room_same by done. simpl.
        rewrite room_at_with_sock. by rewrite get_update_other. }
      assert (Hsent : In m (sent (sock s' (ws cs)))).
      { destruct (deliver_success (removeClient (S fuel) now) now r p m ex s a cs Hcs He Hs)
          as (s1 & Hd & _ & Hs1).
        unfold deliver in Hd. rewrite Hcs in Hd. fold (eligible ex s cs) in Hd.
        rewrite He, Hs in Hd. injection Hd as <-. fold s' in Hs1. rewrite Hs1.
        apply in_or_app. right. by left. }
      exists s'. split; [done|]. split; [|split; [|split; [|split]]].
      * eapply thinning_trans; [exact Hth|by apply quiet_step_thinning].
      * eapply lone_thrower_thinning; [by apply (quiet_step_thinning now r)|done].
      * intros k c0 Hc0 Hf. destruct (decide (k = a)) as [->|Hka'].
        -- assert (c0 = c) as -> by congruence.
           unfold will_throw in Hwt, Hf. rewrite He, Hs in Hwt. simpl in Hwt. congruence.
        -- rewrite Hoth by done.
           destruct (HA k c0 Hc0 Hf) as [[Heq|Hin]|Hn]; [congruence|by left|by right].
      * intros k c0 Hc0 Hf. destruct (HB k c0 Hc0 Hf) as (c' & Hc' & Href & Hel').
        destruct (decide (k = a)) as [->|Hka'].
        -- assert (c0 = c) as -> by congruence. assert (c' = cs) as -> by congruence.
           exists (set_lastSeen now cs). split_and!; [done| |].
           ++ eapply refreshed_trans; [exact Hw|exact Hka|].
              split; [done|]. split; [done|]. right. done.
           ++ intros _. right. split; [done|]. by destruct Hka as (<- & _).
        -- exists c'. rewrite Hoth by done. split_and!; [done|done|].
           intros He0. destruct (Hel' He0) as [[Heq|Hin]|[Hnow Hin]]; [congruence|by left|right].
           split; [done|]. by eapply in_sent_same_wire.
      * intros k c0 ct Hc0 Hkt Hct Hf He0.
        assert (Hat' : a ≠ t).
        { intros ->. assert (ct = c) as -> by congruence.
          unfold will_throw in Hwt, Hf. rewrite He, Hs in Hwt. simpl in Hwt. congruence. }
        destruct (HC k c0 ct Hc0 Hkt Hct Hf He0) as [(c' & Hc' & Hnow & Hin)|[[Heq|Hin] Hsome]].
        -- left. destruct (decide (k = a)) as [->|Hka'].
           ++ exists (set_lastSeen now cs). split_and!; [done|done|].
              by eapply in_sent_same_wire.
           ++ exists c'. rewrite Hoth by done. split_and!; [done|done|].
              by eapply in_sent_same_wire.
        -- done.
        -- right. split; [done|]. rewrite Hoth by done. exact Hsome.
  - split; [apply thinning_refl|]. split; [done|]. split; [|split].
    + intros k c Hc _. left. by eapply get_Some_in_keys.
    + intros k c Hc _. exists c. split_and!; [done|apply refreshed_refl|].
      intros _. left. by eapply get_Some_in_keys.
    + intros k c ct Hc Hkt Hct _ _. right. split; [by eapply get_Some_in_keys|eauto].
  - exists st'. destruct HI as (Hth & _ & HA & HB & HC).
    split; [done|]. split; [done|]. split; [|split].
    + intros k c Hc Hf. by destruct (HA k c Hc Hf) as [[]|?].
    + intros k c Hc Hf. destruct (HB k c Hc Hf) as (c' & Hc' & Href & Hel).
      exists c'. split_and!; [done|done|]. intros He. by destruct (Hel He) as [[]|?].
    + intros k c ct Hc Hkt Hct Hf He.
      by destruct (HC k c ct Hc Hkt Hct Hf He) as [?|[[] _]].
Qed.

Lemma quiet_room_lone st p t : quiet_room st p -> lone_thrower st p t.
Proof. intros Hq k c Hc Ht. rewrite (Hq k c Hc) in Ht. done. Qed.

(** [removeClient] in a room where at most one member's send throws: it
    returns (the recursion is two levels deep at most), and the user is
    gone from the room object. *)
Lemma removeClient_lone fuel now st r p u t :
  getRoom st r = Some p -> lone_thrower st p t -> t ≠ "" ->
  exists st',
    removeClient (S (S fuel)) now st r u = Some st' /\
    thinning now r p st st' /\
    JsMap.get u (clients (room_at st' p)) = None.
Proof.
  intros Hr Hl Hne.
  destruct (broadcastWith_lone fuel now st r p (user_left_message u now) (Some u) t Hr Hl Hne)
    as (st1 & Hb & Hth & _).
  destruct (removeClient_after_broadcast (S fuel) now st r p u st1 Hr Hb)
    as (st' & Hrun & Hth' & Hgone & _).
  exists st'. split_and!; [done|by eapply thinning_trans|done].
Qed.

Lemma alice_alone_quiet : quiet_room Scenario.alice_alone 0.
Proof.
  intros k c. simpl. case_decide; [|done]. by intros [= <-].
Qed.

(** C2. An operation that removes members from a room never leaves the room
    in the registry with zero members: if the room was absent or had a
    member before [removeClient] (the leave operation, also what a closed
    connection and a failed heartbeat run), a heartbeat [pingClient], the
    timeout sweep of the room, or the socket.io 'disconnect' handler, then
    it is absent or has a member when the operation returns, whatever the
    recursion budget and whichever sends throw. [removeClient] does return
    when at most one member's send throws, and a room whose only member it
    removes is then absent from the registry. *)
Theorem no_empty_room_after_removal
    (fuel : nat) (now : Z) (st : State) (roomId userId : string)
    (sio : SocketIO.State) (sk : SocketIO.Socket) :
  inhabited_or_absent st roomId ->
  sio_inhabited_or_absent sio (SocketIO.sk_roomId sk) ->
  (forall st', removeClient fuel now st roomId userId = Some st' ->
     inhabited_or_absent st' roomId) /\
  (forall st', onClose fuel now st (roomId, userId) = Some st' ->
     inhabited_or_absent st' roomId) /\
  (forall st', pingClient fuel now st roomId userId = Some st' ->
     inhabited_or_absent st' roomId) /\
  (forall st', sweepRoom fuel now st roomId = Some st' ->
     inhabited_or_absent st' roomId) /\
  (forall p t, getRoom st roomId = Some p -> lone_thrower st p t -> t ≠ "" ->
     exists st', removeClient (S (S fuel)) now st roomId userId = Some st' /\
       (members st roomId = Some [userId] -> getRoom st' roomId = None)) /\
  sio_inhabited_or_absent (SocketIO.onDisconnect now sk sio) (SocketIO.sk_roomId sk).
Proof.
  intros HI HS. split_and!.
  - intros st' H. by eapply removeClient_keeps_inhabited.
  - intros st' H. by eapply removeClient_keeps_inhabited.
  - intros st' H. by eapply pingClient_keeps_inhabited.
  - intros st' H. by eapply sweepRoom_keeps_inhabited.
  - intros p t Hp Hl Hne.
    destruct (removeClient_lone fuel now st roomId p userId t Hp Hl Hne)
      as (st' & Hrun & Hth & Hgone).
    exists st'. split; [done|]. unfold members. rewrite Hp. intros [= Hkeys].
    assert (Hnil : clients (room_at st' p) = []).
    { apply get_all_None. intros k. destruct (decide (k = userId)) as [->|Hk]; [done|].
      assert (Hst : JsMap.get k (clients (room_at st p)) = None).
      { apply eq_None_not_Some. intros [c Hc].
        apply get_Some_in_keys in Hc. rewrite Hkeys in Hc.
        destruct Hc as [Heq|[]]. congruence. }
      assert (Hk' := th_clients _ _ _ _ _ Hth k). rewrite Hst in Hk'.
      destruct (JsMap.get k (clients (room_at st' p))); done. }
    assert (HI' := removeClient_keeps_inhabited _ _ _ _ _ _ Hrun HI).
    destruct (thinning_getRoom now roomId p st st' Hth Hp) as [Hr'|[Hr' _]]; [|done].
    exfalso. apply HI'. unfold members. by rewrite Hr', Hnil.
  - by apply sio_onDisconnect_keeps_inhabited.
Qed.

Lemma no_empty_room_after_removal_witness :
  inhabited_or_absent Scenario.alice_alone "R1" /\
  sio_inhabited_or_absent Scenario.sio_alice_and_bob "R1" /\
  (forall st', removeClient 1 300 Scenario.alice_alone "R1" "alice" = Some st' ->
     inhabited_or_absent st' "R1") /\
  (exists st', removeClient 3 300 Scenario.alice_alone "R1" "alice" = Some st' /\
     getRoom st' "R1" = None) /\
  sio_inhabited_or_absent
    (SocketIO.onDisconnect 300 Scenario.sio_alice_socket Scenario.sio_alice_and_bob) "R1".
Proof.
  assert (H1 : inhabited_or_absent Scenario.alice_alone "R1") by discriminate.
  assert (H2 : sio_inhabited_or_absent Scenario.sio_alice_and_bob
                 (SocketIO.sk_roomId Scenario.sio_alice_socket)) by discriminate.
  assert (H3 : "alice" ≠ "") by discriminate.
  split; [exact H1|]. split; [exact H2|].
  destruct (no_empty_room_after_removal 1 300 Scenario.alice_alone "R1" "alice"
              Scenario.sio_alice_and_bob Scenario.sio_alice_socket H1 H2)
    as (Hleave & _ & _ & _ & Hlast & Hsio).
  split; [exact Hleave|]. split; [|exact Hsio].
  destruct (Hlast 0 "alice" eq_refl (quiet_room_lone _ _ _ alice_alone_quiet) H3)
    as (st' & Hrun & Hgone).
  exists st'. split; [exact Hrun|]. apply Hgone. reflexivity.
Defined.

(** With exactly one failing member the broadcast heals itself as the
    specification says. alice, bob and carol are in R1 and [send] throws on
    bob's socket only: a broadcast from alice returns, bob is gone, and
    carol has received bob's [user_left] and then the message. *)
Lemma broadcast_with_one_failing_member :
  exists st',
    broadcastToRoom 1 1000 Scenario.bob_failing "R1" Scenario.alice_update (Some "alice")
      = Some st' /\
    members st' "R1" = Some ["alice"; "carol"] /\
    sent (sock st' 2) = sent (sock Scenario.bob_failing 2) ++
                        [user_left_message "bob" 1000; Scenario.alice_update] /\
    sent (sock st' 1) = sent (sock Scenario.bob_failing 1).
Proof. eexists. split; [vm_compute; reflexivity|]. vm_compute. tauto. Qed.

(** The same re-join through the raw-WebSocket server, which deletes the
    old client itself before it calls [addClient]: alice joins again on
    socket 2 and is registered there; but the listeners of the old socket
    still name ("R1", "alice"), so when the old socket's 'close' event
    arrives they remove the new client and, with it, the room. *)
Lemma old_session_close_evicts_new_session :
  exists st1 st2,
    WsServer.receive 1 600 (Scenario.conn 2) (Scenario.hello "alice" 8) Scenario.alice_alone
      = (st1, Scenario.conn_of 2 "alice") /\
    getClient st1 "R1" "alice" = Some (mkRoomClient 2 "alice" 600) /\
    readyState (sock st1 0) = CLOSING /\
    WsServer.closed 1 700 (Scenario.conn_of 0 "alice") st1 = Some st2 /\
    getClient st2 "R1" "alice" = None /\
    members st2 "R1" = None /\
    readyState (sock st2 2) = OPEN.
Proof.
  do 2 eexists. split; [vm_compute; reflexivity|].
  split; [reflexivity|]. split; [reflexivity|].
  split; [vm_compute; reflexivity|]. vm_compute. tauto.
Qed.

(** ** What refreshes [lastSeen] *)

Lemma refreshed_now now st c c' :
  refreshed now st c c' -> lastSeen c' = now -> c' = set_lastSeen now c.
Proof.
  intros (Hw & Hu & _) Hl. destruct c, c'. simpl in *. unfold set_lastSeen. simpl.
  congruence.
Qed.

Lemma excluded_not_eligible st u c :
  u ≠ "" -> userId c = u -> eligible (Some u) st c = false.
Proof.
  intros Hne Hu. unfold eligible, not_excluded. rewrite Hu.
  rewrite (bool_decide_eq_false_2 (u = "")) by done.
  by rewrite (bool_decide_eq_true_2 (u = u)).
Qed.

Lemma other_user_eligible st e c :
  userId c ≠ e -> is_open (sock st (ws c)) = true -> eligible (Some e) st c = true.
Proof.
  intros Hne Ho. unfold eligible, not_excluded. rewrite Ho.
  rewrite (bool_decide_eq_false_2 (userId c = e)) by done. simpl.
  by rewrite orb_true_r.
Qed.

Lemma getRoom_kept_while_inhabited now r p st st' k c :
  thinning now r p st st' -> getRoom st r = Some p ->
  JsMap.get k (clients (room_at st' p)) = Some c -> getRoom st' r = Some p.
Proof.
  intros Hth Hr Hc. destruct (thinning_getRoom now r p st st' Hth Hr) as [?|[_ Hnil]]; [done|].
  by rewrite Hnil in Hc.
Qed.

Lemma bob_failing_lone : lone_thrower Scenario.bob_failing 0 "bob".
Proof.
  intros k c. simpl. repeat case_decide; try done; intros [= <-]; done.
Qed.

(** C6, as amended. For a client registered under [userId] in a room: the
    manager's message listener sets its [lastSeen] to the current time on a
    pong and ignores every other frame. An update received by the
    raw-WebSocket server from that client does not refresh it: when no send
    to another member of the room throws, the whole processing of the frame
    leaves the client's record, [lastSeen] included, as it was. When the
    send to one other member throws (and to no one else), that member is
    evicted and its [user_left] is delivered to the sender as to every
    member whose socket is open, which sets the sender's [lastSeen] to the
    current time. *)
Theorem lastSeen_refreshed_by_pong_not_by_update
    (fuel : nat) (now : Z) (st : State) (roomId uid : string) (p w : nat)
    (c : RoomClient) (d : WebSocketMessage) (t : string) (ct : RoomClient) :
  getRoom st roomId = Some p ->
  JsMap.get uid (clients (room_at st p)) = Some c ->
  userId c = uid ->
  uid ≠ "" ->
  (m_type d = pong ->
     getClient (RoomManager.onMessage now st (roomId, uid) (Some d)) roomId uid
     = Some (set_lastSeen now c)) /\
  (m_type d ≠ pong -> RoomManager.onMessage now st (roomId, uid) (Some d) = st) /\
  (m_type d = update -> quiet_for (Some uid) st p ->
     exists st',
       WsServer.receive fuel now (WsServer.mkConnection w roomId (Some uid)) (Some d) st
       = (st', WsServer.mkConnection w roomId (Some uid)) /\
       getClient st' roomId uid = Some c) /\
  (m_type d = update ->
     lone_thrower st p t -> t ≠ "" -> t ≠ uid ->
     JsMap.get t (clients (room_at st p)) = Some ct -> thrower st ct = true ->
     is_open (sock st (ws c)) = true ->
     exists st',
       WsServer.receive (S fuel) now (WsServer.mkConnection w roomId (Some uid)) (Some d) st
       = (st', WsServer.mkConnection w roomId (Some uid)) /\
       getClient st' roomId t = None /\
       getClient st' roomId uid = Some (set_lastSeen now c) /\
       In (user_left_message t now) (sent (sock st' (ws c)))).
Proof.
  intros Hr Hc Hu Hne.
  assert (Hex : eligible (Some uid) st c = false) by (by apply excluded_not_eligible).
  split_and!.
  - intros Hd. unfold RoomManager.onMessage. rewrite decide_True by done. simpl.
    apply getClient_updateClientLastSeen. unfold getClient. by rewrite Hr.
  - intros Hd. unfold RoomManager.onMessage. by rewrite decide_False.
  - intros Hd Hq. unfold WsServer.receive.
    rewrite (server_relays fuel now _ d st uid) by (done || (rewrite Hd; discriminate)).
    cbn [WsServer.conn_roomId WsServer.conn_ws].
    destruct (broadcastWith_for (removeClient fuel now) now st roomId p d (Some uid) Hr Hq)
      as (st' & Hrun & Hstep & Hkeys).
    rewrite (broadcastToRoom_Returned _ _ _ _ _ _ _ Hrun). cbn [state_of].
    rewrite listeners_ignore_non_pong by (rewrite Hd; discriminate).
    exists st'. split; [done|]. specialize (Hkeys uid c Hc).
    rewrite Hex in Hkeys. unfold getClient, getRoom.
    rewrite (qs_rooms _ _ _ _ Hstep). unfold getRoom in Hr. by rewrite Hr.
  - intros Hd Hl Ht Htu Hct Hthr Hopen. unfold WsServer.receive.
    rewrite (server_relays (S fuel) now _ d st uid) by (done || (rewrite Hd; discriminate)).
    cbn [WsServer.conn_roomId WsServer.conn_ws].
    destruct (broadcastWith_lone fuel now st roomId p d (Some uid) t Hr Hl Ht)
      as (st' & Hrun & Hth & HA & HB & HC).
    rewrite (broadcastToRoom_Returned _ _ _ _ _ _ _ Hrun). cbn [state_of].
    rewrite listeners_ignore_non_pong by (rewrite Hd; discriminate).
    destruct (Hl t ct Hct Hthr) as [_ Hut].
    assert (Hwt : will_throw (Some uid) st ct = true).
    { unfold will_throw. unfold thrower in Hthr.
      apply andb_true_iff in Hthr as [Ho Hs]. rewrite Hs.
      rewrite other_user_eligible; [done| |done]. by rewrite Hut. }
    assert (Hel : eligible (Some t) st c = true).
    { apply other_user_eligible; [|done]. rewrite Hu. congruence. }
    assert (Hwc : will_throw (Some uid) st c = false).
    { unfold will_throw. by rewrite Hex. }
    destruct (HC uid c ct Hc ltac:(congruence) Hct Hwt Hel) as (c' & Hc' & Hnow & Hin).
    destruct (HB uid c Hc Hwc) as (c'' & Hc'' & Href & _).
    assert (c'' = c') as -> by congruence.
    assert (Hr' : getRoom st' roomId = Some p)
      by (by eapply getRoom_kept_while_inhabited).
    exists st'. split; [done|]. split_and!.
    + rewrite (getClient_at st' roomId p) by done. by eapply HA.
    + rewrite (getClient_at st' roomId p) by done. rewrite Hc'. f_equal.
      by eapply refreshed_now.
    + done.
Qed.

Lemma lastSeen_refreshed_by_pong_not_by_update_witness :
  getClient
    (RoomManager.onMessage 1000 Scenario.alice_and_bob ("R1", "alice")
       (Some Scenario.alice_pong)) "R1" "alice"
  = Some (mkRoomClient 0 "alice" 1000) /\
  (exists st',
    WsServer.receive 0 1000 (Scenario.conn_of 0 "alice") (Some Scenario.alice_update)
      Scenario.alice_and_bob = (st', Scenario.conn_of 0 "alice") /\
    getClient st' "R1" "alice" = Some (mkRoomClient 0 "alice" 200)) /\
  (exists st',
    WsServer.receive 1 1000 (Scenario.conn_of 0 "alice") (Some Scenario.alice_update)
      Scenario.bob_failing = (st', Scenario.conn_of 0 "alice") /\
    getClient st' "R1" "bob" = None /\
    getClient st' "R1" "alice" = Some (mkRoomClient 0 "alice" 1000) /\
    In (user_left_message "bob" 1000) (sent (sock st' 0))).
Proof.
  assert (Hne : "alice" ≠ "") by discriminate.
  assert (Hbob : "bob" ≠ "") by discriminate.
  assert (Hba : "bob" ≠ "alice") by discriminate.
  split; [|split].
  - exact (proj1 (lastSeen_refreshed_by_pong_not_by_update 0 1000 Scenario.alice_and_bob
        "R1" "alice" 0 0 (mkRoomClient 0 "alice" 200) Scenario.alice_pong
        "bob" (mkRoomClient 1 "bob" 200) eq_refl eq_refl eq_refl Hne) eq_refl).
  - exact (proj1 (proj2 (proj2 (lastSeen_refreshed_by_pong_not_by_update 0 1000
        Scenario.alice_and_bob "R1" "alice" 0 0 (mkRoomClient 0 "alice" 200)
        Scenario.alice_update "bob" (mkRoomClient 1 "bob" 200)
        eq_refl eq_refl eq_refl Hne))) eq_refl
        (quiet_room_for (Some "alice") _ _ alice_and_bob_quiet)).
  - exact (proj2 (proj2 (proj2 (lastSeen_refreshed_by_pong_not_by_update 0 1000
        Scenario.bob_failing "R1" "alice" 0 0 (mkRoomClient 0 "alice" 300)
        Scenario.alice_update "bob" (mkRoomClient 1 "bob" 300)
        eq_refl eq_refl eq_refl Hne))) eq_refl bob_failing_lone Hbob Hba
        eq_refl eq_refl eq_refl).
Defined.

(** ** Deliveries and the sweep *)

Lemma bob_failing_distinct : rooms_distinct Scenario.bob_failing.
Proof.
  split.
  - apply NoDup_singleton.
  - intros r1 r2 q. unfold getRoom. simpl. repeat case_decide; congruence.
Qed.

(** After a broadcast in a room where at most one member's send throws,
    and that member is not the one excluded, no send in the registry
    throws any more. *)
Lemma all_quiet_after_lone now r p t ex st st' :
  thinning now r p st st' -> rooms st' = rooms st ->
  lone_thrower st p t -> ex ≠ Some t ->
  (forall k c, JsMap.get k (clients (room_at st p)) = Some c ->
     will_throw ex st c = true -> JsMap.get k (clients (room_at st' p)) = None) ->
  (forall r' q, getRoom st r' = Some q -> q ≠ p -> quiet_room st q) ->
  all_quiet st'.
Proof.
  intros Hth Hrooms Hl Hex HA Hoth r' q Hr'.
  unfold getRoom in Hr'. rewrite Hrooms in Hr'.
  destruct (decide (q = p)) as [->|Hne].
  - intros k c' Hc'. assert (Hk := th_clients _ _ _ _ _ Hth k). rewrite Hc' in Hk.
    destruct (JsMap.get k (clients (room_at st p))) as [c|] eqn:Hc; [|done].
    simpl in Hk.
    rewrite (same_wire_thrower st st' c c'); [|by destruct Hth|by destruct Hk].
    destruct (thrower st c) eqn:Hthr; [|done]. exfalso.
    destruct (Hl k c Hc Hthr) as [-> Hu].
    assert (Hw : will_throw ex st c = true).
    { unfold will_throw, eligible, thrower in *.
      apply andb_true_iff in Hthr as [-> ->]. rewrite !andb_true_r.
      unfold not_excluded. destruct ex as [e|]; [|done].
      rewrite Hu. rewrite (bool_decide_eq_false_2 (t = e)) by congruence.
      by rewrite orb_true_r. }
    rewrite (HA t c Hc Hw) in Hc'. done.
  - apply (quiet_room_same_clients st); [by destruct Hth| |by eapply Hoth].
    by rewrite (th_other _ _ _ _ _ Hth).
Qed.

(** C10. A member of a room to which [broadcastToRoom] sends (it is not
    excluded and its socket is open) has its [lastSeen] set to the current
    time by the send itself, when the send does not throw: this holds for
    every single delivery, whatever the state of the registry and whatever
    happens to the other members. So after a broadcast of any message the
    member has been sent the message and has [lastSeen = now], also when
    the send to another member throws and that member is evicted during
    the broadcast; and a cleanup sweep that runs within the timeout of that
    delivery does not evict the member, although it sent nothing itself. *)
Theorem broadcast_delivery_resets_inactivity
    (fuel : nat) (now now' : Z) (st : State) (r : string) (p : nat)
    (m : WebSocketMessage) (ex : option string) (k : string) (c : RoomClient)
    (t : string) :
  getRoom st r = Some p ->
  JsMap.get k (clients (room_at st p)) = Some c ->
  eligible ex st c = true ->
  sendThrows (sock st (ws c)) = false ->
  (forall rc, exists s1,
     deliver rc now r p (JSON_stringify m) ex st k = Some s1 /\
     JsMap.get k (clients (room_at s1 p)) = Some (set_lastSeen now c) /\
     sent (sock s1 (ws c)) = sent (sock st (ws c)) ++ [m]) /\
  (lone_thrower st p t -> t ≠ "" ->
   exists st',
     broadcastToRoom (S fuel) now st r m ex = Some st' /\
     In m (sent (sock st' (ws c))) /\
     getClient st' r k = Some (set_lastSeen now c) /\
     (rooms_distinct st ->
      (forall r' q, getRoom st r' = Some q -> q ≠ p -> quiet_room st q) ->
      ex ≠ Some t ->
      (now <= now' <= now + CLIENT_TIMEOUT)%Z ->
      exists st'',
        cleanupInactiveClients (S fuel) now' st' = Some st'' /\
        is_Some (getClient st'' r k))) /\
  (rooms_distinct st -> all_quiet st ->
   (now <= now' <= now + CLIENT_TIMEOUT)%Z ->
   exists st',
     broadcastToRoom fuel now st r m ex = Some st' /\
     In m (sent (sock st' (ws c))) /\
     getClient st' r k = Some (set_lastSeen now c) /\
     exists st'',
       cleanupInactiveClients (S fuel) now' st' = Some st'' /\
       is_Some (getClient st'' r k)).
Proof.
  intros Hr Hc He Hs.
  assert (Hkept : forall fuel0 st',
    rooms_distinct st' -> all_quiet st' -> getRoom st' r = Some p ->
    JsMap.get k (clients (room_at st' p)) = Some (set_lastSeen now c) ->
    (now <= now' <= now + CLIENT_TIMEOUT)%Z ->
    exists st'',
      cleanupInactiveClients (S fuel0) now' st' = Some st'' /\
      is_Some (getClient st'' r k)).
  { intros fuel0 st' Hd' Hq' Hr' Hk Hnow.
    destruct (cleanup_quiet fuel0 now' st' r p Hd' Hq' Hr')
      as (st'' & Hrun' & _ & Hskip & Hsw & _).
    exists st''. split; [done|].
    destruct (decide (now' - lastCleanup (room_at st' p) < CLEANUP_INTERVAL)%Z) as [Hlt|Hge].
    - destruct (Hskip Hlt) as [Hr'' Hroom]. rewrite (getClient_at st'' r p) by done.
      rewrite Hroom, Hk. eauto.
    - destruct (Hsw ltac:(lia)) as (_ & _ & Hfresh & _).
      destruct (Hfresh k (set_lastSeen now c) Hk) as (c' & Hc' & _); [simpl; lia|eauto]. }
  split; [|split].
  - intros rc. by apply deliver_success.
  - intros Hl Ht.
    destruct (broadcastWith_lone fuel now st r p m ex t Hr Hl Ht)
      as (st' & Hrun & Hth & HA & HB & _).
    assert (Hwc : will_throw ex st c = false).
    { unfold will_throw. by rewrite Hs, andb_false_r. }
    destruct (HB k c Hc Hwc) as (c' & Hc' & Href & Hdel).
    destruct (Hdel He) as [Hnow Hin].
    assert (Hk : JsMap.get k (clients (room_at st' p)) = Some (set_lastSeen now c)).
    { rewrite Hc'. f_equal. by eapply refreshed_now. }
    assert (Hr' : getRoom st' r = Some p) by (by eapply getRoom_kept_while_inhabited).
    exists st'. split; [exact Hrun|]. split; [done|].
    split; [by rewrite (getClient_at st' r p)|].
    intros Hd Hoth Hex Hbound.
    assert (Hrooms : rooms st' = rooms st).
    { destruct (th_rooms _ _ _ _ _ Hth) as [?|[_ Hnil]]; [done|]. by rewrite Hnil in Hk. }
    apply Hkept; [|by eapply all_quiet_after_lone|done|done|done].
    by eapply rooms_distinct_same_rooms.
  - intros Hd Hq Hbound.
    destruct (broadcastWith_quiet (removeClient fuel now) now st r p m ex Hr (Hq r p Hr))
      as (st' & Hrun & Hstep & Hkeys).
    exists st'. split; [exact Hrun|]. specialize (Hkeys k c Hc). rewrite He in Hkeys.
    destruct Hkeys as [Hk Hin]. split; [done|].
    assert (Hr' : getRoom st' r = Some p).
    { unfold getRoom. by rewrite (qs_rooms _ _ _ _ Hstep). }
    split; [by rewrite (getClient_at st' r p)|].
    apply Hkept; [|by eapply all_quiet_step|done|done|done].
    eapply rooms_distinct_same_rooms; [|exact Hd]. by destruct Hstep.
Qed.

Lemma broadcast_delivery_resets_inactivity_witness :
  eligible (Some "alice") Scenario.bob_failing (mkRoomClient 2 "carol" 300) = true /\
  thrower Scenario.bob_failing (mkRoomClient 1 "bob" 300) = true /\
  exists st',
    broadcastToRoom 1 1000 Scenario.bob_failing "R1" Scenario.alice_update (Some "alice")
      = Some st' /\
    getClient st' "R1" "bob" = None /\
    In Scenario.alice_update (sent (sock st' 2)) /\
    getClient st' "R1" "carol" = Some (mkRoomClient 2 "carol" 1000) /\
    exists st'',
      cleanupInactiveClients 1 61000 st' = Some st'' /\
      is_Some (getClient st'' "R1" "carol").
Proof.
  assert (Hnow : (1000 <= 61000 <= 1000 + CLIENT_TIMEOUT)%Z)
    by (unfold CLIENT_TIMEOUT; lia).
  assert (Hbob : "bob" ≠ "") by discriminate.
  assert (Hex : Some "alice" ≠ Some "bob") by discriminate.
  split; [reflexivity|]. split; [reflexivity|].
  destruct (proj1 (proj2 (broadcast_delivery_resets_inactivity 0 1000 61000
              Scenario.bob_failing "R1" 0 Scenario.alice_update (Some "alice") "carol"
              (mkRoomClient 2 "carol" 300) "bob" eq_refl eq_refl eq_refl eq_refl))
              bob_failing_lone Hbob)
    as (st' & H1 & H2 & H3 & H4).
  exists st'. split; [exact H1|]. split.
  - vm_compute in H1. injection H1 as <-. reflexivity.
  - split; [exact H2|]. split; [exact H3|].
    apply H4; [exact bob_failing_distinct| |exact Hex|exact Hnow].
    intros r' q. unfold getRoom. simpl. case_decide; [|done]. intros [= <-]. done.
Defined.

(** * Further properties of the code *)

(** ** What the manager never does *)

Lemma wire_kept_refl st : wire_kept st st.
Proof. intros w. split_and!; try done. exists []. by rewrite app_nil_r. Qed.

Lemma wire_kept_trans st1 st2 st3 :
  wire_kept st1 st2 -> wire_kept st2 st3 -> wire_kept st1 st3.
Proof.
  intros H12 H23 w. destruct (H12 w) as (Ha & Hb & Hc & (l & Hl) & Hd).
  destruct (H23 w) as (Ha' & Hb' & Hc' & (l' & Hl') & Hd').
  split_and!; try congruence.
  - exists (l ++ l'). rewrite Hl', Hl. by rewrite app_assoc.
  - intros Ho. rewrite Hd', Hd; [done|done|]. unfold is_open in *. by rewrite Ha.
Qed.

Lemma only_shrinks_refl st : only_shrinks st st.
Proof. constructor; eauto using wire_kept_refl. Qed.

Lemma only_shrinks_trans st1 st2 st3 :
  only_shrinks st1 st2 -> only_shrinks st2 st3 -> only_shrinks st1 st3.
Proof.
  intros [] []. constructor.
  - eauto.
  - congruence.
  - intros q k c3 H3. destruct (os_clients1 q k c3 H3) as (c2 & H2 & ? & ?).
    destruct (os_clients0 q k c2 H2) as (c1 & H1 & ? & ?).
    exists c1. split_and!; congruence.
  - by eapply wire_kept_trans.
Qed.

Lemma wire_kept_send w m st :
  is_open (sock st w) = true -> wire_kept st (with_sock w (ws_send m) st).
Proof.
  intros Ho v. rewrite sock_with_sock. case_decide as Hd.
  - destruct Hd as [-> _]. simpl. split_and!; try done; [by exists [m]|congruence].
  - split_and!; try done. exists []. by rewrite app_nil_r.
Qed.

Lemma only_shrinks_sent now p k c m st :
  is_open (sock st (ws c)) = true ->
  only_shrinks st
    (with_room p (with_clients (JsMap.update k (set_lastSeen now)))
       (with_sock (ws c) (ws_send m) st)).
Proof.
  intros Ho. constructor.
  - done.
  - simpl. by rewrite length_alter.
  - intros q k' c'. rewrite room_at_with_room, room_at_with_sock.
    case_decide as Hd; [|eauto]. destruct Hd as [<- _]. simpl.
    destruct (decide (k = k')) as [<-|Hne].
    + rewrite get_update_same. destruct (JsMap.get k _) as [c0|]; [|done].
      intros [= <-]. eauto.
    + rewrite get_update_other by done. eauto.
  - intros w. rewrite sock_with_room. by apply wire_kept_send.
Qed.

Lemma only_shrinks_clearPing r u st : only_shrinks st (clearPing r u st).
Proof.
  constructor.
  - unfold getRoom. by rewrite rooms_clearPing.
  - by rewrite heap_clearPing.
  - intros q k c'. rewrite room_at_clearPing. eauto.
  - intros w. rewrite sock_clearPing. apply wire_kept_refl.
Qed.

Lemma only_shrinks_drop p u st :
  only_shrinks st (with_room p (with_clients (JsMap.delete u)) st).
Proof.
  constructor.
  - done.
  - simpl. by rewrite length_alter.
  - intros q k c'. rewrite room_at_with_room. case_decide as Hd; [|eauto].
    destruct Hd as [<- _]. simpl. destruct (decide (u = k)) as [<-|Hne].
    + by rewrite get_delete_same.
    + rewrite get_delete_other by done. eauto.
  - intros w. rewrite sock_with_room. apply wire_kept_refl.
Qed.

Lemma only_shrinks_rooms_delete r st : only_shrinks st (rooms_delete r st).
Proof.
  constructor.
  - intros r' q. unfold getRoom. simpl. destruct (decide (r = r')) as [<-|Hne].
    + by rewrite get_delete_same.
    + by rewrite get_delete_other.
  - done.
  - intros q k c'. change (room_at (rooms_delete r st) q) with (room_at st q). eauto.
  - apply (wire_kept_refl st).
Qed.

Lemma deliver_only_shrinks rc now r p m ex st k st' :
  (forall s r' u s', rc s r' u = Some s' -> only_shrinks s s') ->
  deliver rc now r p m ex st k = Some st' -> only_shrinks st st'.
Proof.
  intros Hrc. unfold deliver.
  destruct (JsMap.get k _) as [c|]; [|intros [= <-]; apply only_shrinks_refl].
  destruct (not_excluded ex c && is_open _) eqn:He;
    [|intros [= <-]; apply only_shrinks_refl].
  destruct (sendThrows _); [apply Hrc|].
  intros [= <-]. apply only_shrinks_sent. by apply andb_true_iff in He as [_ ?].
Qed.

(** An invariant that relates the state of a loop to the state it started
    from. *)
Lemma forEach_relation {S A : Type} (R : S -> S -> Prop) (body : S -> A -> option S) :
  (forall s, R s s) -> (forall s1 s2 s3, R s1 s2 -> R s2 s3 -> R s1 s3) ->
  (forall s a s', body s a = Some s' -> R s s') ->
  forall ks st st', JsMap.forEach ks body st = Some st' -> R st st'.
Proof.
  intros Hrefl Htrans Hstep ks st st' Hrun.
  apply (forEach_invariant (R st) body) with (ks := ks) (st := st); eauto.
Qed.

Lemma broadcastWith_only_shrinks rc now st r m ex st' :
  (forall s r' u s', rc s r' u = Some s' -> only_shrinks s s') ->
  broadcastWith rc now st r m ex = Some st' -> only_shrinks st st'.
Proof.
  intros Hrc. unfold broadcastWith.
  destruct (getRoom st r) as [p|]; [|intros [= <-]; apply only_shrinks_refl].
  apply (forEach_relation only_shrinks);
    eauto using only_shrinks_refl, only_shrinks_trans, deliver_only_shrinks.
Qed.

Lemma removeClient_only_shrinks fuel now :
  forall st r u st', removeClient fuel now st r u = Some st' -> only_shrinks st st'.
Proof.
  induction fuel as [|fuel IH]; intros st r u st'; simpl; [done|].
  destruct (getRoom st r) as [p|]; [|intros [= <-]; apply only_shrinks_refl].
  destruct (broadcastWith _ _ _ _ _ _) as [st1|] eqn:Hb; [|done].
  assert (H1 : only_shrinks st st1) by (eapply broadcastWith_only_shrinks; eauto).
  assert (H2 : only_shrinks st (clearPing r u st1)).
  { eapply only_shrinks_trans; [exact H1|apply only_shrinks_clearPing]. }
  destruct (JsMap.has u _); [|by intros [= <-]].
  assert (H3 : only_shrinks st
                 (with_room p (with_clients (JsMap.delete u)) (clearPing r u st1))).
  { eapply only_shrinks_trans; [exact H2|apply only_shrinks_drop]. }
  destruct (Nat.eqb _ 0); intros [= <-]; [|done].
  eapply only_shrinks_trans; [exact H3|apply only_shrinks_rooms_delete].
Qed.

Lemma pingClient_only_shrinks fuel now st r u st' :
  pingClient fuel now st r u = Some st' -> only_shrinks st st'.
Proof.
  unfold pingClient.
  destruct (getClient st r u) as [c|]; [|apply removeClient_only_shrinks].
  destruct (is_open _) eqn:Ho; [|apply removeClient_only_shrinks].
  destruct (sendThrows _); [apply removeClient_only_shrinks|].
  intros [= <-]. constructor; eauto. by apply wire_kept_send.
Qed.

Lemma only_shrinks_set_lastCleanup p t st :
  only_shrinks st (with_room p (set_lastCleanup t) st).
Proof.
  constructor.
  - done.
  - simpl. by rewrite length_alter.
  - intros q k c'. rewrite clients_set_lastCleanup. eauto.
  - intros w. rewrite sock_with_room. apply wire_kept_refl.
Qed.

Lemma sweepRoom_only_shrinks fuel now st r st' :
  sweepRoom fuel now st r = Some st' -> only_shrinks st st'.
Proof.
  unfold sweepRoom.
  destruct (getRoom st r) as [p|]; [|intros [= <-]; apply only_shrinks_refl].
  destruct (_ <? _)%Z; [intros [= <-]; apply only_shrinks_refl|].
  destruct (JsMap.forEach _ _ _) as [s|] eqn:Hloop; [|done]. intros [= <-].
  eapply only_shrinks_trans; [|apply only_shrinks_set_lastCleanup].
  revert Hloop. apply (forEach_relation only_shrinks);
    eauto using only_shrinks_refl, only_shrinks_trans.
  intros s0 a s1. unfold sweepClient.
  destruct (JsMap.get a _) as [c|]; [|intros [= <-]; apply only_shrinks_refl].
  destruct (_ >? _)%Z; [apply removeClient_only_shrinks|].
  intros [= <-]. apply only_shrinks_refl.
Qed.

Lemma cleanupInactiveClients_only_shrinks fuel now st st' :
  cleanupInactiveClients fuel now st = Some st' -> only_shrinks st st'.
Proof.
  unfold cleanupInactiveClients. apply (forEach_relation only_shrinks);
    eauto using only_shrinks_refl, only_shrinks_trans, sweepRoom_only_shrinks.
Qed.

(** X1. Whenever [removeClient], [broadcastToRoom], [pingClient] or the
    cleanup sweep returns, whatever the sends did, it has registered
    nothing: every room of the registry and every client of a room was
    there before, with the same socket and user id; no socket changed its
    [readyState]; and a socket that was not open was sent nothing. *)
Theorem manager_never_registers
    (fuel : nat) (now : Z) (st st' : State) (r u : string)
    (m : WebSocketMessage) (ex : option string) :
  removeClient fuel now st r u = Some st' \/
  broadcastToRoom fuel now st r m ex = Some st' \/
  pingClient fuel now st r u = Some st' \/
  cleanupInactiveClients fuel now st = Some st' ->
  only_shrinks st st'.
Proof.
  intros [H|[H|[H|H]]].
  - by eapply removeClient_only_shrinks.
  - eapply broadcastWith_only_shrinks; [|exact H].
    intros s r' u' s'. apply removeClient_only_shrinks.
  - by eapply pingClient_only_shrinks.
  - by eapply cleanupInactiveClients_only_shrinks.
Qed.

Lemma manager_never_registers_witness :
  exists st',
    removeClient 1 300 Scenario.alice_and_bob "R1" "bob" = Some st' /\
    only_shrinks Scenario.alice_and_bob st'.
Proof.
  eexists. split; [vm_compute; reflexivity|].
  apply (manager_never_registers 1 300 Scenario.alice_and_bob _ "R1" "bob"
           Scenario.alice_update None).
  left. vm_compute. reflexivity.
Defined.

(** ** The room id of a connection *)

Lemma append_cons a s t : (String a s ++ t = String a (s ++ t))%string.
Proof. reflexivity. Qed.

Lemma append_snoc acc c s : ((acc ++ String c "") ++ s = acc ++ String c s)%string.
Proof.
  induction acc as [|a acc IH]; [done|]. rewrite !append_cons. f_equal. exact IH.
Qed.

Lemma append_empty_r s : (s ++ "" = s)%string.
Proof. induction s as [|a s IH]; [done|]. rewrite append_cons. f_equal. exact IH. Qed.

Lemma lastSegment_cons acc c s :
  WsServer.lastSegment acc (String c s) =
  if decide (c = "/"%char) then WsServer.lastSegment "" s
  else WsServer.lastSegment (acc ++ String c "")%string s.
Proof. reflexivity. Qed.

Lemma no_slash_cons c s :
  no_slash (String c s) = negb (bool_decide (c = "/"%char)) && no_slash s.
Proof. reflexivity. Qed.

Lemma lastSegment_no_slash acc s :
  no_slash s = true -> WsServer.lastSegment acc s = (acc ++ s)%string.
Proof.
  revert acc. induction s as [|c s IH]; intros acc.
  - intros _. simpl. by rewrite append_empty_r.
  - rewrite no_slash_cons, lastSegment_cons.
    intros [Hc Hs]%andb_true_iff. apply negb_true_iff, bool_decide_eq_false in Hc.
    rewrite decide_False by done. rewrite IH by done. apply append_snoc.
Qed.

Lemma lastSegment_after_slash acc pre s :
  WsServer.lastSegment acc (pre ++ String "/" s)%string = WsServer.lastSegment "" s.
Proof.
  revert acc. induction pre as [|c pre IH]; intros acc.
  - change ("" ++ String "/" s)%string with (String "/" s).
    rewrite lastSegment_cons. by rewrite decide_True.
  - rewrite append_cons, lastSegment_cons. destruct (decide (c = "/"%char)); apply IH.
Qed.

Lemma no_slash_append a b :
  no_slash a = true -> no_slash b = true -> no_slash (a ++ b)%string = true.
Proof.
  induction a as [|c a IH]; [done|]. rewrite append_cons, !no_slash_cons.
  intros [Hc Ha]%andb_true_iff Hb. rewrite Hc. simpl. auto.
Qed.

Lemma lastSegment_has_no_slash acc s :
  no_slash acc = true -> no_slash (WsServer.lastSegment acc s) = true.
Proof.
  revert acc. induction s as [|c s IH]; intros acc Hacc; [done|].
  rewrite lastSegment_cons.
  destruct (decide (c = "/"%char)) as [|Hc]; apply IH; [done|].
  apply no_slash_append; [done|]. rewrite no_slash_cons.
  by rewrite (bool_decide_eq_false_2 (c = "/"%char)).
Qed.

(** X2. The room id that the raw-WebSocket server derives from the request
    URL is the text after the last slash, and "default" when that text is
    empty or there is no URL; it is never empty and never contains a
    slash. *)
Theorem roomIdOfUrl_is_last_segment (pre seg : string) (url : option string) :
  no_slash seg = true ->
  WsServer.roomIdOfUrl (Some (pre ++ String "/" seg)%string) =
    (if decide (seg = "") then "default" else seg) /\
  WsServer.roomIdOfUrl (Some seg) = (if decide (seg = "") then "default" else seg) /\
  WsServer.roomIdOfUrl url ≠ "" /\
  no_slash (WsServer.roomIdOfUrl url) = true.
Proof.
  intros Hseg. unfold WsServer.roomIdOfUrl. split_and!.
  - by rewrite lastSegment_after_slash, lastSegment_no_slash.
  - by rewrite lastSegment_no_slash.
  - destruct url as [u|]; [|done]. by case_decide.
  - destruct url as [u|]; [|done]. case_decide; [done|].
    by apply lastSegment_has_no_slash.
Qed.

Lemma roomIdOfUrl_is_last_segment_witness :
  no_slash "R1" = true /\
  WsServer.roomIdOfUrl (Some "/rooms/R1") = "R1" /\
  WsServer.roomIdOfUrl (Some "R1") = "R1".
Proof.
  split; [reflexivity|].
  destruct (roomIdOfUrl_is_last_segment "/rooms" "R1" None eq_refl) as (H1 & H2 & _).
  split; [exact H1|exact H2].
Defined.

(** ** Creating and finding rooms *)

Lemma room_at_createRoom_new now st r :
  room_at (createRoom now st r).1 (length (heap st)) = mkRoom r [] now.
Proof.
  unfold room_at, createRoom. simpl.
  rewrite lookup_total_app_r by lia. by rewrite Nat.sub_diag.
Qed.

Lemma room_at_createRoom_old now st r q :
  q < length (heap st) -> room_at (createRoom now st r).1 q = room_at st q.
Proof. intros Hq. unfold room_at, createRoom. simpl. by rewrite lookup_total_app_l. Qed.

Lemma getRoom_createRoom now st r r' :
  getRoom (createRoom now st r).1 r' =
  if decide (r = r') then Some (length (heap st)) else getRoom st r'.
Proof.
  unfold getRoom, createRoom. simpl. case_decide as Hd.
  - subst. apply get_set_same.
  - by apply get_set_other.
Qed.

(** X3. [createRoom] registers a new, empty room object under the id, in
    place of any room registered there (whose object, members and sockets
    are left as they were, unreachable through the registry).
    [getOrCreateRoom] returns the registered room and changes nothing when
    there is one, creates an empty room stamped [now] otherwise, and
    returns the same room when called again; rooms under other ids and
    existing room objects are untouched either way. *)
Theorem getOrCreateRoom_lookup (now now' : Z) (st : State) (r : string) :
  (members (createRoom now st r).1 r = Some [] /\
   (forall q, q < length (heap st) ->
      room_at (createRoom now st r).1 q = room_at st q) /\
   sockets (createRoom now st r).1 = sockets st) /\
  getRoom (getOrCreateRoom now st r).1 r = Some (getOrCreateRoom now st r).2 /\
  getOrCreateRoom now' (getOrCreateRoom now st r).1 r = getOrCreateRoom now st r /\
  (forall r', r' ≠ r ->
     getRoom (getOrCreateRoom now st r).1 r' = getRoom st r') /\
  (forall q, q < length (heap st) ->
     room_at (getOrCreateRoom now st r).1 q = room_at st q) /\
  match getRoom st r with
  | Some q => getOrCreateRoom now st r = (st, q)
  | None =>
      room_at (getOrCreateRoom now st r).1 (getOrCreateRoom now st r).2
        = mkRoom r [] now
  end.
Proof.
  split.
  { split_and!; [|intros q Hq; by apply room_at_createRoom_old|done].
    unfold members. rewrite getRoom_createRoom, decide_True by done.
    by rewrite room_at_createRoom_new. }
  unfold getOrCreateRoom. destruct (getRoom st r) as [q|] eqn:Hr.
  - simpl. rewrite Hr. done.
  - assert (Hnew : getRoom (createRoom now st r).1 r = Some (length (heap st))).
    { by rewrite getRoom_createRoom, decide_True. }
    split_and!.
    + exact Hnew.
    + rewrite Hnew. reflexivity.
    + intros r' Hne. rewrite getRoom_createRoom. by rewrite decide_False.
    + intros q Hq. by apply room_at_createRoom_old.
    + apply room_at_createRoom_new.
Qed.

(** ** Joining *)

Lemma is_open_valid st w : is_open (sock st w) = true -> w < length (sockets st).
Proof.
  intros Ho. destruct (decide (w < length (sockets st))) as [|Hn]; [done|].
  unfold is_open, sock in Ho. rewrite list_lookup_total_alt in Ho.
  rewrite lookup_ge_None_2 in Ho by lia. done.
Qed.

Lemma sock_with_sock_same w f st :
  w < length (sockets st) -> sock (with_sock w f st) w = f (sock st w).
Proof. intros Hw. rewrite sock_with_sock. by rewrite decide_True. Qed.

Lemma sock_with_sock_other w f st v : w ≠ v -> sock (with_sock w f st) v = sock st v.
Proof. intros Hne. rewrite sock_with_sock. rewrite decide_False; [done|tauto]. Qed.

(** [addClient] for a user that the room does not hold, on an open socket
    whose [send] does not throw: the state it returns, field by field. *)
Lemma addClient_fresh fuel now st r u w :
  (forall q, getRoom st r = Some q -> q < length (heap st)) ->
  getClient st r u = None ->
  is_open (sock st w) = true -> sendThrows (sock st w) = false ->
  exists st' p,
    addClient fuel now st r u w = Some st' /\
    getRoom st' r = Some p /\ p < length (heap st') /\
    (forall q, getRoom st r = Some q -> q = p) /\
    (forall r', r' ≠ r -> getRoom st' r' = getRoom st r') /\
    rooms st' = match getRoom st r with
                | Some _ => rooms st
                | None => JsMap.set r (length (heap st)) (rooms st)
                end /\
    clients (room_at st' p) = JsMap.set u (mkRoomClient w u now) (found_clients st r) /\
    (forall q, q < length (heap st) -> q ≠ p -> room_at st' q = room_at st q) /\
    sock st' w = ws_send (ping_message now) (ws_on (r, u) (sock st w)) /\
    (forall v, v ≠ w -> sock st' v = sock st v) /\
    pingIntervals st' = JsMap.set (pingKey r u) (nextTimer st) (pingIntervals st) /\
    timers st' = timers st ++ [(nextTimer st, (r, u))] /\
    nextTimer st' = S (nextTimer st).
Proof.
  intros Hvalid Hnew Hopen Hsend.
  assert (Hw : w < length (sockets st)) by (by apply is_open_valid).
  unfold addClient.
  destruct (getOrCreateRoom now st r) as [st0 p] eqn:Hgc.
  assert (H0 : getRoom st0 r = Some p /\ p < length (heap st0) /\
               (forall q, getRoom st r = Some q -> q = p) /\
               (forall r', r' ≠ r -> getRoom st0 r' = getRoom st r') /\
               rooms st0 = match getRoom st r with
                           | Some _ => rooms st
                           | None => JsMap.set r (length (heap st)) (rooms st)
                           end /\
               clients (room_at st0 p) = found_clients st r /\
               (forall q, q < length (heap st) -> room_at st0 q = room_at st q) /\
               sockets st0 = sockets st /\ pingIntervals st0 = pingIntervals st /\
               timers st0 = timers st /\ nextTimer st0 = nextTimer st).
  { unfold getOrCreateRoom, found_clients in *.
    destruct (getRoom st r) as [q|] eqn:Hr.
    - injection Hgc as <- <-. split_and!; try done; [by apply Hvalid|congruence].
    - assert (Hst0 : st0 = (createRoom now st r).1) by (by rewrite Hgc).
      assert (Hpp : p = length (heap st)) by (unfold createRoom in Hgc; congruence).
      clear Hgc. subst st0 p. split_and!; try done.
      + by rewrite getRoom_createRoom, decide_True.
      + simpl. rewrite length_app. simpl. lia.
      + intros r' Hne. rewrite getRoom_createRoom. by rewrite decide_False.
      + by rewrite room_at_createRoom_new.
      + intros q Hq. by apply room_at_createRoom_old. }
  destruct H0 as (Hr0 & Hp0 & Hsame & Hoth & Hrooms0 & Hcl0 & Hold & Hsk0 & Hpi0 & Hti0 & Hnt0).
  assert (Hnone : JsMap.get u (clients (room_at st0 p)) = None).
  { rewrite Hcl0. unfold found_clients. unfold getClient in Hnew.
    by destruct (getRoom st r). }
  unfold evictExisting. rewrite Hnone.
  set (client := mkRoomClient w u now).
  set (st2 := with_room p (with_clients (JsMap.set u client)) st0).
  set (st4 := with_sock w (ws_on (r, u)) (startPing r u st2)).
  assert (Hcl4 : clients (room_at st4 p) = JsMap.set u client (found_clients st r)).
  { change (room_at st4 p) with (room_at st2 p). unfold st2.
    rewrite room_at_with_room_same by done. simpl. by rewrite Hcl0. }
  assert (Hr4 : getRoom st4 r = Some p) by exact Hr0.
  assert (Hs4 : sock st4 w = ws_on (r, u) (sock st w)).
  { unfold st4. rewrite sock_with_sock_same.
    - unfold sock. simpl. by rewrite Hsk0.
    - simpl. by rewrite Hsk0. }
  unfold pingClient. rewrite (getClient_at st4 r p) by done.
  rewrite Hcl4, get_set_same. cbn [ws client].
  rewrite Hs4. unfold is_open in *. cbn [readyState sendThrows ws_on].
  rewrite Hopen, Hsend.
  exists (with_sock w (ws_send (JSON_stringify (ping_message now))) st4), p.
  split; [done|]. split_and!; try done.
  - simpl. rewrite length_alter. exact Hp0.
  - intros q Hq Hne. rewrite room_at_with_sock.
    change (room_at st4 q) with (room_at st2 q). unfold st2.
    rewrite room_at_with_room_other by done. by apply Hold.
  - rewrite sock_with_sock_same; [by rewrite Hs4|].
    unfold st4. simpl. rewrite length_alter. by rewrite Hsk0.
  - intros v Hne. rewrite sock_with_sock_other by done.
    unfold st4. rewrite sock_with_sock_other by done.
    unfold sock. simpl. by rewrite Hsk0.
  - simpl. by rewrite Hpi0, Hnt0.
  - simpl. by rewrite Hti0, Hnt0.
  - simpl. by rewrite Hnt0.
Qed.

Lemma keys_set_fresh {V : Type} u (v : V) (m : list (string * V)) :
  JsMap.get u m = None -> JsMap.keys (JsMap.set u v m) = JsMap.keys m ++ [u].
Proof.
  induction m as [|[k v'] m IH]; simpl; [done|].
  destruct (decide (u = k)) as [->|Hne]; [done|]. intros Hg.
  simpl. f_equal. by apply IH.
Qed.

Lemma found_clients_get st r k : JsMap.get k (found_clients st r) = getClient st r k.
Proof. unfold found_clients, getClient. by destruct (getRoom st r). Qed.

(** X4. A user that the room does not hold joins on an open socket whose
    [send] does not throw. [addClient] returns, whatever the recursion
    budget: the user is registered once, on that socket, with
    [lastSeen = now], after the members that were there (the room is
    created when the registry has none); no other member and no other room
    changes; the socket gains the listeners for the user and is sent one
    ping, nothing is sent on any other socket; and a heartbeat timer for
    the user is started and recorded. *)
Theorem join_registers_and_pings (fuel : nat) (now : Z) (st : State) (r u : string)
    (w : nat) :
  (forall q, getRoom st r = Some q -> q < length (heap st)) ->
  getClient st r u = None ->
  is_open (sock st w) = true -> sendThrows (sock st w) = false ->
  exists st',
    addClient fuel now st r u w = Some st' /\
    getClient st' r u = Some (mkRoomClient w u now) /\
    registrations st' r u = 1 /\
    members st' r = Some (default [] (members st r) ++ [u]) /\
    (forall k, k ≠ u -> getClient st' r k = getClient st r k) /\
    (forall r', r' ≠ r -> getRoom st' r' = getRoom st r') /\
    sock st' w = ws_send (ping_message now) (ws_on (r, u) (sock st w)) /\
    (forall v, v ≠ w -> sock st' v = sock st v) /\
    JsMap.get (pingKey r u) (pingIntervals st') = Some (nextTimer st) /\
    timers st' = timers st ++ [(nextTimer st, (r, u))].
Proof.
  intros Hvalid Hnew Hopen Hsend.
  destruct (addClient_fresh fuel now st r u w Hvalid Hnew Hopen Hsend)
    as (st' & p & Hrun & Hr & Hp & Hsame & Hoth & Hrooms & Hcl & Hold & Hsk & Hsko & Hpi & Hti & Hnt).
  assert (Hfc : JsMap.get u (found_clients st r) = None)
    by (by rewrite found_clients_get).
  exists st'. split_and!; try done.
  - rewrite (getClient_at st' r p) by done. rewrite Hcl. apply get_set_same.
  - rewrite (registrations_at st' r p) by done. rewrite Hcl.
    by rewrite count_set_fresh.
  - unfold members at 1. rewrite Hr, Hcl, keys_set_fresh by done.
    unfold members, found_clients. by destruct (getRoom st r).
  - intros k Hne. rewrite (getClient_at st' r p) by done. rewrite Hcl.
    rewrite get_set_other by done. apply found_clients_get.
  - rewrite Hpi. apply get_set_same.
Qed.

Lemma join_registers_and_pings_witness :
  exists st',
    addClient 0 200 Scenario.alice_alone "R1" "bob" 1 = Some st' /\
    getClient st' "R1" "bob" = Some (mkRoomClient 1 "bob" 200) /\
    members st' "R1" = Some ["alice"; "bob"] /\
    sent (sock st' 1) = [ping_message 200].
Proof.
  destruct (join_registers_and_pings 0 200 Scenario.alice_alone "R1" "bob" 1)
    as (st' & H1 & H2 & _ & H4 & _ & _ & H7 & _).
  - intros q [= <-]. simpl. lia.
  - reflexivity.
  - reflexivity.
  - reflexivity.
  - exists st'. split_and!; [exact H1|exact H2|exact H4|by rewrite H7].
Defined.

(** ** Heartbeat timers *)

Lemma same_timers_refl st : same_timers st st.
Proof. by split_and!. Qed.

Lemma deliver_timers rc now r p m ex st k st' :
  quiet_for ex st p ->
  deliver rc now r p m ex st k = Some st' -> same_timers st st'.
Proof.
  intros Hq. unfold deliver.
  destruct (JsMap.get k _) as [c|] eqn:Hc; [|intros [= <-]; apply same_timers_refl].
  destruct (not_excluded ex c && is_open _) eqn:He;
    [|intros [= <-]; apply same_timers_refl].
  rewrite (Hq k c Hc He). intros [= <-]. by split_and!.
Qed.

Lemma broadcastWith_timers rc now st r p m ex st' :
  getRoom st r = Some p ->
  quiet_for ex st p ->
  broadcastWith rc now st r m ex = Some st' -> same_timers st st'.
Proof.
  intros Hr Hq. unfold broadcastWith. rewrite Hr. intros Hrun.
  apply (forEach_invariant (fun s => quiet_for ex s p /\ same_timers st s)
           (deliver rc now r p (JSON_stringify m) ex))
    with (ks := JsMap.keys (clients (room_at st p))) (st := st) (st' := st') in Hrun.
  - tauto.
  - intros s a s' [Hqs (H1 & H2 & H3)] Hd. split.
    + destruct (deliver_quiet rc now r p (JSON_stringify m) ex s a Hqs)
        as (s'' & Hd' & Hstep & _).
      rewrite Hd in Hd'. injection Hd' as ->. by eapply quiet_for_step.
    + destruct (deliver_timers _ _ _ _ _ _ _ _ _ Hqs Hd) as (H1' & H2' & H3').
      split_and!; congruence.
  - split; [done|apply same_timers_refl].
Qed.

Lemma delete_absent {V : Type} k (m : list (string * V)) :
  JsMap.get k m = None -> JsMap.delete k m = m.
Proof.
  induction m as [|[k' v] m IH]; simpl; [done|].
  destruct (decide (k = k')); [done|]. intros Hg. f_equal. by apply IH.
Qed.

Lemma removeClient_timers fuel now st r p u st' :
  getRoom st r = Some p ->
  quiet_for (Some u) st p ->
  removeClient (S fuel) now st r u = Some st' ->
  pingIntervals st' = JsMap.delete (pingKey r u) (pingIntervals st) /\
  timers st' = match JsMap.get (pingKey r u) (pingIntervals st) with
               | Some h => filter (fun t => t.1 ≠ h) (timers st)
               | None => timers st
               end /\
  nextTimer st' = nextTimer st.
Proof.
  intros Hr Hq. simpl. rewrite Hr.
  destruct (broadcastWith _ _ _ _ _ _) as [st1|] eqn:Hb; [|done].
  destruct (broadcastWith_timers _ _ _ _ _ _ _ _ Hr Hq Hb) as (H1 & H2 & H3).
  assert (Hc : pingIntervals (clearPing r u st1)
                 = JsMap.delete (pingKey r u) (pingIntervals st) /\
               timers (clearPing r u st1)
                 = match JsMap.get (pingKey r u) (pingIntervals st) with
                   | Some h => filter (fun t => t.1 ≠ h) (timers st)
                   | None => timers st
                   end /\
               nextTimer (clearPing r u st1) = nextTimer st).
  { unfold clearPing. rewrite H1.
    destruct (JsMap.get (pingKey r u) (pingIntervals st)) as [h|] eqn:Hk; simpl.
    - by rewrite H2.
    - by rewrite delete_absent. }
  destruct (JsMap.has u _); [|by intros [= <-]].
  destruct (Nat.eqb _ 0); by intros [= <-].
Qed.

(** X5. Leaving stops the heartbeat of the user who leaves and no other.
    In a registered room where no [send] of the farewell throws,
    [removeClient] returns; afterwards [pingIntervals] has no entry under
    the user's key and the same entries under all other keys; the timer
    that was recorded under the key no longer runs, every other timer
    still does, and no timer was started. This holds whether or not the
    user was a member of the room. *)
Theorem leave_stops_the_heartbeat (fuel : nat) (now : Z) (st : State) (r u : string)
    (p : nat) :
  getRoom st r = Some p ->
  quiet_for (Some u) st p ->
  exists st',
    removeClient (S fuel) now st r u = Some st' /\
    JsMap.get (pingKey r u) (pingIntervals st') = None /\
    (forall k, k ≠ pingKey r u ->
       JsMap.get k (pingIntervals st') = JsMap.get k (pingIntervals st)) /\
    (forall h, JsMap.get (pingKey r u) (pingIntervals st) = Some h ->
       forall t, In t (timers st') <-> In t (timers st) /\ t.1 ≠ h) /\
    (JsMap.get (pingKey r u) (pingIntervals st) = None -> timers st' = timers st) /\
    nextTimer st' = nextTimer st.
Proof.
  intros Hr Hq.
  destruct (removeClient_for fuel now st r p u Hr Hq) as (st' & Hrun & _).
  destruct (removeClient_timers _ _ _ _ _ _ _ Hr Hq Hrun) as (H1 & H2 & H3).
  exists st'. split_and!; try done.
  - rewrite H1. apply get_delete_same.
  - intros k Hne. rewrite H1. by apply get_delete_other.
  - intros h Hh t. rewrite H2, Hh. rewrite <- !list_elem_of_In.
    rewrite list_elem_of_filter. tauto.
  - intros Hn. by rewrite H2, Hn.
Qed.

Lemma leave_stops_the_heartbeat_witness :
  exists st',
    removeClient 1 300 Scenario.alice_and_bob "R1" "bob" = Some st' /\
    JsMap.get "R1-bob" (pingIntervals st') = None /\
    JsMap.get "R1-alice" (pingIntervals st') = Some 0 /\
    (In (0, ("R1", "alice")) (timers st') /\ ~ In (1, ("R1", "bob")) (timers st')).
Proof.
  destruct (leave_stops_the_heartbeat 0 300 Scenario.alice_and_bob "R1" "bob" 0 eq_refl)
    as (st' & H1 & H2 & H3 & H4 & _).
  - apply quiet_room_for, alice_and_bob_quiet.
  - exists st'. split; [exact H1|]. split; [exact H2|]. split.
    + rewrite H3 by discriminate. reflexivity.
    + split.
      * apply (H4 1 eq_refl). split; [simpl; tauto|simpl; lia].
      * intros Hin. apply (H4 1 eq_refl) in Hin as [_ Hne]. by apply Hne.
Defined.

(** ** Joining and leaving again *)

Lemma delete_set_fresh {V : Type} k (v : V) (m : list (string * V)) :
  JsMap.get k m = None -> JsMap.delete k (JsMap.set k v m) = m.
Proof.
  induction m as [|[k' v'] m IH]; simpl.
  - intros _. by rewrite decide_True.
  - destruct (decide (k = k')) as [->|Hne]; [done|]. intros Hg. simpl.
    rewrite decide_False by done. f_equal. by apply IH.
Qed.

Lemma filter_keeps_all (h : nat) (ts : list (nat * (string * string))) :
  (forall t, In t ts -> t.1 ≠ h) -> filter (fun t => t.1 ≠ h) ts = ts.
Proof.
  induction ts as [|t ts IH]; intros Hall; [done|].
  rewrite filter_cons_True by (apply Hall; by left).
  f_equal. apply IH. intros t' Hin. apply Hall. by right.
Qed.

(** X6. Joining and then leaving undoes the join. A user that the room
    does not hold joins on an open socket whose [send] does not throw, and
    then leaves, no [send] of the farewell throwing: both calls return; the
    room holds the users it held before, a room that the join created is
    deleted again and the registry is the one before the join; rooms under
    other ids are as they were; and, when no heartbeat was recorded for the
    user, [pingIntervals] and the running timers are the ones before the
    join. *)
Theorem join_then_leave_restores (fuel fuel' : nat) (now now' : Z) (st : State)
    (r u : string) (w : nat) :
  (forall q, getRoom st r = Some q ->
     q < length (heap st) /\ quiet_for (Some u) st q) ->
  getClient st r u = None ->
  is_open (sock st w) = true -> sendThrows (sock st w) = false ->
  exists st1 st2,
    addClient fuel now st r u w = Some st1 /\
    removeClient (S fuel') now' st1 r u = Some st2 /\
    (forall k, is_Some (getClient st2 r k) <-> is_Some (getClient st r k)) /\
    (forall r', r' ≠ r -> getRoom st2 r' = getRoom st r') /\
    (getRoom st r = None -> rooms st2 = rooms st) /\
    (JsMap.get (pingKey r u) (pingIntervals st) = None ->
     (forall t, In t (timers st) -> t.1 ≠ nextTimer st) ->
     pingIntervals st2 = pingIntervals st /\ timers st2 = timers st).
Proof.
  intros Hvalid Hnew Hopen Hsend.
  destruct (addClient_fresh fuel now st r u w) as
    (st1 & p & Hrun & Hr1 & Hp1 & Hsame & Hoth & Hrooms & Hcl & Hold & Hsk & Hsko
       & Hpi & Hti & Hnt); try done.
  { intros q Hq. by apply Hvalid. }
  assert (Hfc : JsMap.get u (found_clients st r) = None)
    by (by rewrite found_clients_get).
  assert (Hq1 : quiet_for (Some u) st1 p).
  { intros k c Hc He. rewrite Hcl in Hc.
    destruct (decide (ws c = w)) as [Hw|Hw].
    - rewrite Hw, Hsk. exact Hsend.
    - rewrite Hsko by done.
      destruct (decide (u = k)) as [<-|Hne].
      + rewrite get_set_same in Hc. injection Hc as <-. done.
      + rewrite get_set_other in Hc by done. rewrite found_clients_get in Hc.
        unfold getClient in Hc. destruct (getRoom st r) as [q|] eqn:Hr; [|done].
        destruct (Hvalid q eq_refl) as [_ Hq]. apply (Hq k c Hc).
        unfold eligible in *. by rewrite Hsko in He. }
  destruct (removeClient_for fuel' now' st1 r p u Hr1 Hq1)
    as (st2 & Hrun2 & Hth & Hgone & Hkeep & Hnone & Hrooms2 & Hdel).
  destruct (removeClient_timers _ _ _ _ _ _ _ Hr1 Hq1 Hrun2) as (Hpi2 & Hti2 & _).
  assert (Hmem : forall k, k ≠ u ->
            is_Some (JsMap.get k (clients (room_at st2 p))) <->
            is_Some (getClient st r k)).
  { intros k Hne. rewrite <- found_clients_get.
    destruct (JsMap.get k (found_clients st r)) as [c|] eqn:Hk.
    - assert (Hk1 : JsMap.get k (clients (room_at st1 p)) = Some c)
        by (by rewrite Hcl, get_set_other).
      specialize (Hkeep k c Hne Hk1).
      destruct (eligible (Some u) st1 c); [destruct Hkeep as [-> _]|rewrite Hkeep];
        split; eauto.
    - rewrite Hnone; [done|done|]. by rewrite Hcl, get_set_other. }
  assert (Hu1 : is_Some (JsMap.get u (clients (room_at st1 p))))
    by (rewrite Hcl, get_set_same; eauto).
  assert (Hroom2 : forall k, is_Some (getClient st2 r k) <-> is_Some (getClient st r k)).
  { intros k. destruct (getRoom st2 r) as [p2|] eqn:Hr2.
    - assert (p2 = p) as ->.
      { destruct Hrooms2 as [Heq|(Heq & _)]; unfold getRoom in *.
        - rewrite Heq in Hr2. congruence.
        - rewrite Heq, get_delete_same in Hr2. done. }
      rewrite (getClient_at st2 r p) by done.
      destruct (decide (k = u)) as [->|Hne]; [|by apply Hmem].
      rewrite Hgone, Hnew. done.
    - rewrite (getClient_absent st2) by done.
      destruct Hrooms2 as [Heq|(Heq & Hnil & _)].
      { unfold getRoom in *. rewrite Heq in Hr2. congruence. }
      destruct (decide (k = u)) as [->|Hne]; [by rewrite Hnew|].
      rewrite <- (Hmem k Hne), Hnil. done. }
  exists st1, st2. split_and!; try done.
  - intros r' Hne. rewrite <- (Hoth r' Hne).
    destruct Hrooms2 as [Heq|(Heq & _)]; unfold getRoom; rewrite Heq; [done|].
    by apply get_delete_other.
  - intros Hr. rewrite Hr in Hrooms.
    assert (Hnil : clients (room_at st2 p) = []).
    { apply get_all_None. intros k. destruct (decide (k = u)) as [->|Hne]; [done|].
      apply Hnone; [done|]. rewrite Hcl, get_set_other by done.
      rewrite found_clients_get. by apply getClient_absent. }
    specialize (Hdel Hnil Hu1).
    destruct Hrooms2 as [Heq|(Heq & _)].
    + unfold getRoom in *. rewrite Heq in Hdel. congruence.
    + rewrite Heq, Hrooms. apply delete_set_fresh. exact Hr.
  - intros Hkey Hfresh. split.
    + rewrite Hpi2, Hpi. by apply delete_set_fresh.
    + rewrite Hti2, Hpi, get_set_same, Hti. rewrite filter_app.
      rewrite filter_keeps_all by done.
      rewrite filter_cons_False by (simpl; tauto). simpl. apply app_nil_r.
Qed.

Lemma join_then_leave_restores_witness :
  exists st1 st2,
    addClient 0 100 Scenario.start "R1" "alice" 0 = Some st1 /\
    removeClient 1 150 st1 "R1" "alice" = Some st2 /\
    rooms st2 = [] /\ pingIntervals st2 = [] /\ timers st2 = [].
Proof.
  destruct (join_then_leave_restores 0 0 100 150 Scenario.start "R1" "alice" 0)
    as (st1 & st2 & H1 & H2 & _ & _ & H5 & H6); try reflexivity.
  - intros q Hq. discriminate Hq.
  - exists st1, st2. split; [exact H1|]. split; [exact H2|].
    split; [exact (H5 eq_refl)|].
    apply H6; [reflexivity|]. intros t Hin. destruct Hin.
Defined.

(** ** Shutting down *)

Lemma closeIfOpen_closed s : is_open (closeIfOpen s) = false.
Proof.
  unfold closeIfOpen. destruct (is_open s) eqn:Ho; [|done].
  reflexivity.
Qed.

Lemma filter_all {A : Type} (P : A -> Prop) `{forall x, Decision (P x)} (l : list A) :
  (forall x, In x l -> P x) -> filter P l = l.
Proof.
  induction l as [|x l IH]; intros Hall; [done|].
  rewrite filter_cons_True by (apply Hall; by left).
  f_equal. apply IH. intros y Hin. apply Hall. by right.
Qed.

Lemma closeIfOpen_twice s : closeIfOpen (closeIfOpen s) = closeIfOpen s.
Proof. unfold closeIfOpen at 1. by rewrite closeIfOpen_closed. Qed.

Lemma closeRoom_closeSockets st p :
  closeRoom st p = closeSockets (map (fun kc => ws kc.2) (clients (room_at st p))) st.
Proof.
  unfold closeRoom, closeSockets. generalize (clients (room_at st p)).
  intros l. revert st. induction l as [|kc l IH]; intros st; simpl; [done|apply IH].
Qed.

Lemma closeSockets_frame l st :
  rooms (closeSockets l st) = rooms st /\ heap (closeSockets l st) = heap st /\
  pingIntervals (closeSockets l st) = pingIntervals st /\
  timers (closeSockets l st) = timers st /\
  nextTimer (closeSockets l st) = nextTimer st /\
  length (sockets (closeSockets l st)) = length (sockets st).
Proof.
  revert st. induction l as [|w l IH]; intros st; [done|].
  change (closeSockets (w :: l) st) with (closeSockets l (with_sock w closeIfOpen st)).
  destruct (IH (with_sock w closeIfOpen st)) as (-> & -> & -> & -> & -> & ->).
  simpl. by rewrite length_alter.
Qed.

Lemma sock_out_of_range st w :
  length (sockets st) <= w -> sock st w = mkWebSocket CLOSED false [] [].
Proof.
  intros Hw. unfold sock. rewrite list_lookup_total_alt.
  by rewrite lookup_ge_None_2.
Qed.

Lemma sock_closeSockets l st v :
  sock (closeSockets l st) v =
  if decide (v ∈ l) then closeIfOpen (sock st v) else sock st v.
Proof.
  revert st. induction l as [|w l IH]; intros st.
  - rewrite decide_False; [done|]. apply not_elem_of_nil.
  - change (closeSockets (w :: l) st) with (closeSockets l (with_sock w closeIfOpen st)).
    rewrite IH. rewrite sock_with_sock.
    destruct (decide (w = v)) as [->|Hne].
    + rewrite (decide_True (P := v ∈ v :: l)) by apply list_elem_of_here.
      destruct (decide (v < length (sockets st))) as [Hv|Hv].
      * rewrite (decide_True (P := v = v /\ v < length (sockets st))) by (split; [done|lia]).
        rewrite closeIfOpen_twice. by case_decide.
      * rewrite (decide_False (P := v = v /\ v < length (sockets st)))
          by (intros [_ ?]; done).
        rewrite sock_out_of_range by lia.
        by case_decide.
    + rewrite (decide_False (P := w = v /\ w < length (sockets st)))
        by (intros [? _]; done).
      destruct (decide (v ∈ l)) as [Hin|Hin].
      * rewrite decide_True; [done|]. by apply list_elem_of_further.
      * rewrite decide_False; [done|]. intros Hc. apply list_elem_of_In in Hc. destruct Hc as [Hc|Hc]; [congruence|]. by apply Hin, list_elem_of_In.
Qed.

Lemma closeRooms_closeSockets st rs s :
  heap s = heap st ->
  fold_left (fun s kp => closeRoom s kp.2) rs s =
  closeSockets
    (flat_map (fun kp : string * nat =>
                 map (fun kc => ws kc.2) (clients (room_at st kp.2))) rs) s.
Proof.
  revert s. induction rs as [|[r p] rs IH]; intros s Hs; simpl; [done|].
  unfold closeSockets. rewrite fold_left_app. fold (closeSockets).
  rewrite closeRoom_closeSockets.
  assert (Hsame : room_at s p = room_at st p) by (unfold room_at; by rewrite Hs).
  rewrite Hsame. apply IH.
  destruct (closeSockets_frame
              (map (fun kc => ws kc.2) (clients (room_at st p))) s) as (_ & Hh & _).
  etransitivity; [exact Hh|exact Hs].
Qed.

Lemma sock_cleanup st v :
  sock (cleanup st) v =
  if decide (v ∈ registered_sockets st) then closeIfOpen (sock st v) else sock st v.
Proof.
  unfold cleanup. rewrite (closeRooms_closeSockets st) by done.
  apply (sock_closeSockets (registered_sockets st) st v).
Qed.

Lemma get_In {V : Type} k (v : V) (m : list (string * V)) :
  JsMap.get k m = Some v -> In (k, v) m.
Proof.
  induction m as [|[k' v'] m IH]; simpl; [done|].
  destruct (decide (k = k')) as [->|Hne]; [intros [= ->]; by left|].
  intros Hg. right. by apply IH.
Qed.

Lemma registered_socket st r p k c :
  getRoom st r = Some p -> JsMap.get k (clients (room_at st p)) = Some c ->
  ws c ∈ registered_sockets st.
Proof.
  intros Hr Hc. rewrite list_elem_of_In. unfold registered_sockets.
  apply in_flat_map. exists (r, p). split; [by apply get_In|].
  simpl. apply in_map_iff. exists (k, c). split; [done|by apply get_In].
Qed.

(** X7. Shutting down. [cleanup] empties the registry and [pingIntervals]
    and stops every recorded heartbeat timer, while a timer whose handle
    [pingIntervals] does not record keeps running; the socket of every
    client of a registered room is not open afterwards; every socket is as
    it was or was open and is now closing, so nothing is sent (no farewell
    either) and the listeners stay; the room objects keep their clients;
    a close event that arrives afterwards finds no room and changes
    nothing; and shutting down twice is shutting down once. *)
Theorem cleanup_closes_and_clears (st : State) :
  rooms (cleanup st) = [] /\ pingIntervals (cleanup st) = [] /\
  (forall key h, JsMap.get key (pingIntervals st) = Some h ->
     forall t, In t (timers (cleanup st)) -> t.1 ≠ h) /\
  (forall t, In t (timers st) -> t.1 ∉ map snd (pingIntervals st) ->
     In t (timers (cleanup st))) /\
  (forall r p k c, getRoom st r = Some p ->
     JsMap.get k (clients (room_at st p)) = Some c ->
     is_open (sock (cleanup st) (ws c)) = false) /\
  (forall w, sock (cleanup st) w = sock st w \/
             (is_open (sock st w) = true /\ sock (cleanup st) w = ws_close (sock st w))) /\
  heap (cleanup st) = heap st /\
  (forall fuel now h, onClose (S fuel) now (cleanup st) h = Some (cleanup st)) /\
  cleanup (cleanup st) = cleanup st.
Proof.
  assert (Hfold : fold_left (fun s kp => closeRoom s kp.2) (rooms st) st
                  = closeSockets (registered_sockets st) st)
    by (by apply closeRooms_closeSockets).
  destruct (closeSockets_frame (registered_sockets st) st)
    as (Hf1 & Hf2 & Hf3 & Hf4 & Hf5 & Hf6).
  split_and!; try done.
  - intros key h Hk t. unfold cleanup. simpl. rewrite Hfold, Hf4.
    rewrite <- list_elem_of_In, list_elem_of_filter. intros [Hnot _] Heq.
    apply Hnot. rewrite list_elem_of_In. apply in_map_iff.
    exists (key, h). split; [by rewrite Heq|by apply get_In].
  - intros t Hin Hnot. unfold cleanup. simpl. rewrite Hfold, Hf4.
    rewrite <- list_elem_of_In, list_elem_of_filter. split; [exact Hnot|].
    by apply list_elem_of_In.
  - intros r p k c Hr Hc. rewrite sock_cleanup.
    rewrite decide_True by (by eapply registered_socket).
    apply closeIfOpen_closed.
  - intros w. rewrite sock_cleanup. case_decide; [|by left].
    unfold closeIfOpen. destruct (is_open (sock st w)); [by right|by left].
  - unfold cleanup. simpl. by rewrite Hfold.
  - unfold cleanup at 1. simpl.
    rewrite filter_all by (intros t _; apply not_elem_of_nil).
    reflexivity.
Qed.

(** ** The heartbeat *)

(** X8. A heartbeat for a member of a registered room, no [send] of a
    farewell throwing. [pingClient] returns. When the member's socket is
    open and its [send] does not throw, the socket is sent one ping and
    nothing else changes: in particular the member's [lastSeen] is not
    refreshed by the ping. Otherwise (the socket is not open, or the
    [send] throws) the member is evicted: it is no longer registered, its
    heartbeat timer is stopped, and every other member that passes the test
    of [broadcastToRoom] was sent its [user_left]. *)
Theorem heartbeat_pings_or_evicts (fuel : nat) (now : Z) (st : State) (r u : string)
    (p : nat) (c : RoomClient) :
  getRoom st r = Some p ->
  JsMap.get u (clients (room_at st p)) = Some c ->
  quiet_for (Some u) st p ->
  exists st',
    pingClient (S fuel) now st r u = Some st' /\
    if is_open (sock st (ws c)) && negb (sendThrows (sock st (ws c)))
    then
      rooms st' = rooms st /\ heap st' = heap st /\ same_timers st st' /\
      getClient st' r u = Some c /\
      sock st' (ws c) = ws_send (ping_message now) (sock st (ws c)) /\
      (forall v, v ≠ ws c -> sock st' v = sock st v)
    else
      getClient st' r u = None /\
      JsMap.get (pingKey r u) (pingIntervals st') = None /\
      (forall k c', k ≠ u -> JsMap.get k (clients (room_at st p)) = Some c' ->
         eligible (Some u) st c' = true ->
         In (user_left_message u now) (sent (sock st' (ws c')))).
Proof.
  intros Hr Hc Hq. unfold pingClient. rewrite (getClient_at st r p) by done.
  rewrite Hc.
  assert (Hevict : exists st',
    removeClient (S fuel) now st r u = Some st' /\
    getClient st' r u = None /\
    JsMap.get (pingKey r u) (pingIntervals st') = None /\
    (forall k c', k ≠ u -> JsMap.get k (clients (room_at st p)) = Some c' ->
       eligible (Some u) st c' = true ->
       In (user_left_message u now) (sent (sock st' (ws c'))))).
  { destruct (removeClient_for fuel now st r p u Hr Hq)
      as (st' & Hrun & Hth & Hgone & Hkeep & _ & Hrooms & _).
    destruct (removeClient_timers _ _ _ _ _ _ _ Hr Hq Hrun) as (Hpi & _).
    exists st'. split_and!; [done| | |].
    - unfold getClient. destruct Hrooms as [Heq|(Heq & _)]; unfold getRoom.
      + rewrite Heq. fold (getRoom st r). by rewrite Hr.
      + by rewrite Heq, get_delete_same.
    - rewrite Hpi. apply get_delete_same.
    - intros k c' Hne Hc' He. specialize (Hkeep k c' Hne Hc'). rewrite He in Hkeep.
      tauto. }
  destruct (is_open (sock st (ws c))) eqn:Ho; simpl; [|exact Hevict].
  destruct (sendThrows (sock st (ws c))) eqn:Hs; simpl; [exact Hevict|].
  eexists. split; [reflexivity|]. unfold JSON_stringify.
  assert (Hw : ws c < length (sockets st)) by (by apply is_open_valid).
  split_and!; try done.
  - by rewrite (getClient_at _ r p).
  - by rewrite sock_with_sock_same.
  - intros v Hne. by rewrite sock_with_sock_other.
Qed.

Lemma heartbeat_pings_or_evicts_witness :
  exists st',
    pingClient 1 300 Scenario.alice_and_bob "R1" "bob" = Some st' /\
    getClient st' "R1" "bob" = Some (mkRoomClient 1 "bob" 200) /\
    sent (sock st' 1) = [ping_message 200; ping_message 300].
Proof.
  destruct (heartbeat_pings_or_evicts 0 300 Scenario.alice_and_bob "R1" "bob" 0
              (mkRoomClient 1 "bob" 200) eq_refl eq_refl)
    as (st' & H1 & H2).
  - apply quiet_room_for, alice_and_bob_quiet.
  - simpl in H2. destruct H2 as (_ & _ & _ & H3 & H4 & _).
    exists st'. split; [exact H1|]. split; [exact H3|]. by rewrite H4.
Defined.

(** ** Joining through the raw-WebSocket server *)

Lemma broadcastWith_sock_frame rc now st r p m ex st' v :
  getRoom st r = Some p ->
  quiet_for ex st p ->
  broadcastWith rc now st r m ex = Some st' ->
  (forall k c, JsMap.get k (clients (room_at st p)) = Some c ->
     eligible ex st c = true -> ws c ≠ v) ->
  sock st' v = sock st v.
Proof.
  intros Hr Hq Hrun Hv. unfold broadcastWith in Hrun. rewrite Hr in Hrun.
  apply (forEach_invariant
           (fun s => quiet_for ex s p /\ quiet_step now p st s /\ sock s v = sock st v)
           (deliver rc now r p (JSON_stringify m) ex))
    with (ks := JsMap.keys (clients (room_at st p))) (st := st) (st' := st') in Hrun.
  - tauto.
  - intros s a s' (Hqs & Hstep & Hsv) Hd.
    destruct (deliver_quiet rc now r p (JSON_stringify m) ex s a Hqs)
      as (s'' & Hd' & Hstep' & _).
    rewrite Hd in Hd'. injection Hd' as <-.
    split; [by eapply quiet_for_step|]. split; [by eapply quiet_step_trans|].
    rewrite <- Hsv. unfold deliver in Hd.
    destruct (JsMap.get a (clients (room_at s p))) as [c'|] eqn:Hc'; [|congruence].
    destruct (not_excluded ex c' && is_open (sock s (ws c'))) eqn:He; [|congruence].
    rewrite (Hqs a c' Hc' He) in Hd. injection Hd as <-.
    rewrite sock_with_room. apply sock_with_sock_other.
    assert (Hk := qs_clients _ _ _ _ Hstep a). rewrite Hc' in Hk.
    destruct (JsMap.get a (clients (room_at st p))) as [c0|] eqn:Hc0; [|done].
    simpl in Hk. assert (Hw : same_wire st s) by (by destruct Hstep).
    assert (He0 : eligible ex st c0 = true).
    { rewrite <- (eligible_refreshed now ex st s c0 c') by done. exact He. }
    destruct Hk as (-> & _). by eapply Hv.
  - split; [done|]. split; [apply quiet_step_refl|done].
Qed.

Lemma dropStale_absent st r u :
  getClient st r u = None -> WsServer.dropStale st r u = st.
Proof.
  unfold getClient, WsServer.dropStale. destruct (getRoom st r); [|done].
  by intros ->.
Qed.

Lemma server_join (fuel : nat) (now : Z) (c : WsServer.Connection)
    (data : WebSocketMessage) (st0 st : State) :
  WsServer.dropStale st0 (WsServer.conn_roomId c) (m_userId data) = st ->
  m_type data = user_joined -> m_userId data ≠ "" ->
  (forall q, getRoom st (WsServer.conn_roomId c) = Some q ->
     q < length (heap st) /\ quiet_for (Some (m_userId data)) st q) ->
  getClient st (WsServer.conn_roomId c) (m_userId data) = None ->
  is_open (sock st (WsServer.conn_ws c)) = true ->
  sendThrows (sock st (WsServer.conn_ws c)) = false ->
  exists st',
    WsServer.receive fuel now c (Some data) st0 =
      (st', WsServer.mkConnection (WsServer.conn_ws c) (WsServer.conn_roomId c)
              (Some (m_userId data))) /\
    getClient st' (WsServer.conn_roomId c) (m_userId data)
      = Some (mkRoomClient (WsServer.conn_ws c) (m_userId data) now) /\
    (forall k c', k ≠ m_userId data ->
       getClient st (WsServer.conn_roomId c) k = Some c' ->
       if eligible (Some (m_userId data)) st c'
       then getClient st' (WsServer.conn_roomId c) k = Some (set_lastSeen now c') /\
            In (WsServer.user_joined_message (m_userId data) now)
               (sent (sock st' (ws c'))) /\
            In data (sent (sock st' (ws c')))
       else getClient st' (WsServer.conn_roomId c) k = Some c') /\
    ((forall k c', getClient st (WsServer.conn_roomId c) k = Some c' ->
        ws c' ≠ WsServer.conn_ws c) ->
     sock st' (WsServer.conn_ws c)
       = ws_send (ping_message now)
           (ws_on (WsServer.conn_roomId c, m_userId data)
              (sock st (WsServer.conn_ws c)))) /\
    (forall v, is_open (sock st' v) = is_open (sock st v)) /\
    rooms st' = match getRoom st (WsServer.conn_roomId c) with
                | Some _ => rooms st
                | None => JsMap.set (WsServer.conn_roomId c) (length (heap st)) (rooms st)
                end /\
    pingIntervals st' =
      JsMap.set (pingKey (WsServer.conn_roomId c) (m_userId data)) (nextTimer st)
        (pingIntervals st) /\
    timers st' = timers st ++ [(nextTimer st, (WsServer.conn_roomId c, m_userId data))].
Proof.
  destruct c as [w r cu]. simpl. set (u := m_userId data).
  intros Hdrop Hty Hu Hvalid Hnew Hopen Hsend.
  destruct (addClient_fresh fuel now st r u w) as
    (st1 & p & Hrun & Hr1 & Hp1 & Hsame & Hoth & Hrooms & Hcl & Hold & Hsk & Hsko
       & Hpi1 & Hti1 & _); try done.
  { intros q Hq. by apply Hvalid. }
  assert (Hopen1 : forall v, is_open (sock st1 v) = is_open (sock st v)).
  { intros v. destruct (decide (v = w)) as [->|Hne]; [by rewrite Hsk|by rewrite Hsko]. }
  assert (Hel1 : forall c', eligible (Some u) st1 c' = eligible (Some u) st c').
  { intros c'. unfold eligible. by rewrite Hopen1. }
  assert (Hnew_excl : eligible (Some u) st1 (mkRoomClient w u now) = false).
  { unfold eligible, not_excluded. simpl.
    rewrite (bool_decide_eq_false_2 (u = "")) by done.
    by rewrite (bool_decide_eq_true_2 (u = u)). }
  assert (Hget1 : forall k, k ≠ u ->
            JsMap.get k (clients (room_at st1 p)) = getClient st r k).
  { intros k Hne. rewrite Hcl, get_set_other by done. apply found_clients_get. }
  assert (Hq1 : quiet_for (Some u) st1 p).
  { intros k c' Hc' He. rewrite Hcl in Hc'.
    destruct (decide (u = k)) as [<-|Hne].
    - rewrite get_set_same in Hc'. injection Hc' as <-. congruence.
    - destruct (decide (ws c' = w)) as [Hw|Hw]; [by rewrite Hw, Hsk|].
      rewrite Hsko by done.
      rewrite get_set_other in Hc' by done. rewrite found_clients_get in Hc'.
      unfold getClient in Hc'. destruct (getRoom st r) as [q|] eqn:Hr; [|done].
      destruct (Hvalid q eq_refl) as [_ Hq]. apply (Hq k c' Hc').
      by rewrite <- Hel1. }
  destruct (broadcastWith_for (removeClient fuel now) now st1 r p
              (WsServer.user_joined_message u now) (Some u) Hr1 Hq1)
    as (st2 & Hb2 & Hstep2 & Hdel2).
  assert (Hr2 : getRoom st2 r = Some p).
  { unfold getRoom. rewrite (qs_rooms _ _ _ _ Hstep2). exact Hr1. }
  assert (Hq2 : quiet_for (Some u) st2 p) by (by eapply quiet_for_step).
  destruct (broadcastWith_for (removeClient fuel now) now st2 r p data (Some u) Hr2 Hq2)
    as (st3 & Hb3 & Hstep3 & Hdel3).
  assert (Hr3 : getRoom st3 r = Some p).
  { unfold getRoom. rewrite (qs_rooms _ _ _ _ Hstep3). exact Hr2. }
  assert (Hw12 : same_wire st1 st2) by (by destruct Hstep2).
  assert (Hw23 : same_wire st2 st3) by (by destruct Hstep3).
  exists st3. split; [|split_and!].
  - unfold WsServer.receive, WsServer.onMessage, WsServer.identify, WsServer.joins.
    simpl. rewrite (bool_decide_eq_true_2 _ Hty).
    rewrite (bool_decide_eq_false_2 (m_userId data = "")) by done. simpl.
    fold u. rewrite Hdrop. rewrite (addClient_Returned _ _ _ _ _ _ _ Hrun).
    rewrite (broadcastToRoom_Returned _ _ _ _ _ _ _ Hb2). simpl.
    rewrite decide_False by done.
    rewrite (broadcastToRoom_Returned _ _ _ _ _ _ _ Hb3). simpl. f_equal.
    apply (listeners_ignore_non_pong now data (listeners (sock st0 w)) st3).
    rewrite Hty. discriminate.
  - rewrite (getClient_at st3 r p) by done.
    assert (H1 : JsMap.get u (clients (room_at st1 p)) = Some (mkRoomClient w u now))
      by (rewrite Hcl; apply get_set_same).
    specialize (Hdel2 u _ H1). rewrite Hnew_excl in Hdel2.
    specialize (Hdel3 u _ Hdel2).
    rewrite (eligible_same_wire (Some u) st1 st2) in Hdel3 by done.
    by rewrite Hnew_excl in Hdel3.
  - intros k c' Hne Hk. rewrite <- (Hget1 k Hne) in Hk.
    rewrite (getClient_at st3 r p) by done.
    specialize (Hdel2 k c' Hk). rewrite Hel1 in Hdel2.
    destruct (eligible (Some u) st c') eqn:He.
    + destruct Hdel2 as [Hk2 Hin2]. specialize (Hdel3 k _ Hk2).
      assert (He2 : eligible (Some u) st2 (set_lastSeen now c') = true).
      { rewrite (eligible_same_wire (Some u) st1 st2) by done.
        rewrite Hel1. exact He. }
      rewrite He2 in Hdel3. destruct Hdel3 as [Hk3 Hin3]. split_and!.
      * by rewrite Hk3.
      * by apply (in_sent_same_wire st2 st3).
      * exact Hin3.
    + specialize (Hdel3 k c' Hdel2).
      rewrite (eligible_same_wire (Some u) st1 st2) in Hdel3 by done.
      rewrite Hel1, He in Hdel3. exact Hdel3.
  - intros Hown.
    rewrite (broadcastWith_sock_frame _ _ _ _ _ _ _ _ w Hr2 Hq2 Hb3).
    + rewrite (broadcastWith_sock_frame _ _ _ _ _ _ _ _ w Hr1 Hq1 Hb2); [exact Hsk|].
      intros k c' Hc' He. destruct (decide (k = u)) as [->|Hne].
      * rewrite Hcl, get_set_same in Hc'. injection Hc' as <-. congruence.
      * rewrite Hget1 in Hc' by done. by eapply Hown.
    + intros k c2 Hc2 He2.
      assert (Hk := qs_clients _ _ _ _ Hstep2 k). rewrite Hc2 in Hk.
      destruct (JsMap.get k (clients (room_at st1 p))) as [c1|] eqn:Hc1; [|done].
      simpl in Hk. destruct Hk as (Hws & _). rewrite Hws.
      destruct (decide (k = u)) as [->|Hne].
      * rewrite Hcl, get_set_same in Hc1. injection Hc1 as <-.
        rewrite (eligible_refreshed now (Some u) st1 st2 (mkRoomClient w u now) c2) in He2;
          [congruence|done|].
        assert (Hk' := qs_clients _ _ _ _ Hstep2 u).
        rewrite Hc2, Hcl, get_set_same in Hk'. exact Hk'.
      * rewrite Hget1 in Hc1 by done. by eapply Hown.
  - intros v. rewrite <- Hopen1.
    rewrite (same_wire_is_open st2 st3) by done.
    by rewrite (same_wire_is_open st1 st2).
  - rewrite (qs_rooms _ _ _ _ Hstep3), (qs_rooms _ _ _ _ Hstep2). exact Hrooms.
  - destruct (broadcastWith_timers _ _ _ _ _ _ _ _ Hr1 Hq1 Hb2) as (Ha & _).
    destruct (broadcastWith_timers _ _ _ _ _ _ _ _ Hr2 Hq2 Hb3) as (Hb & _).
    by rewrite Hb, Ha.
  - destruct (broadcastWith_timers _ _ _ _ _ _ _ _ Hr1 Hq1 Hb2) as (_ & Ha & _).
    destruct (broadcastWith_timers _ _ _ _ _ _ _ _ Hr2 Hq2 Hb3) as (_ & Hb & _).
    by rewrite Hb, Ha.
Qed.

(** X9. The first [user_joined] frame of a connection, naming a user that
    the room does not hold, on an open socket whose [send] does not throw
    and in a room where no [send] throws. The server's handler returns and
    the connection is identified; the user is registered on the socket with
    [lastSeen = now]; every other member that passes the test of
    [broadcastToRoom] is sent the server's [user_joined], stamped [now],
    and then also the client's own frame, and has [lastSeen = now]; the
    other members are left as they were; and the joining socket is sent one
    ping and neither announcement (when no other member shares it). *)
Theorem first_frame_joins (fuel : nat) (now : Z) (c : WsServer.Connection)
    (data : WebSocketMessage) (st : State) :
  m_type data = user_joined -> m_userId data ≠ "" ->
  (forall q, getRoom st (WsServer.conn_roomId c) = Some q ->
     q < length (heap st) /\ quiet_for (Some (m_userId data)) st q) ->
  getClient st (WsServer.conn_roomId c) (m_userId data) = None ->
  is_open (sock st (WsServer.conn_ws c)) = true ->
  sendThrows (sock st (WsServer.conn_ws c)) = false ->
  exists st',
    WsServer.receive fuel now c (Some data) st =
      (st', WsServer.mkConnection (WsServer.conn_ws c) (WsServer.conn_roomId c)
              (Some (m_userId data))) /\
    getClient st' (WsServer.conn_roomId c) (m_userId data)
      = Some (mkRoomClient (WsServer.conn_ws c) (m_userId data) now) /\
    (forall k c', k ≠ m_userId data ->
       getClient st (WsServer.conn_roomId c) k = Some c' ->
       if eligible (Some (m_userId data)) st c'
       then getClient st' (WsServer.conn_roomId c) k = Some (set_lastSeen now c') /\
            In (WsServer.user_joined_message (m_userId data) now)
               (sent (sock st' (ws c'))) /\
            In data (sent (sock st' (ws c')))
       else getClient st' (WsServer.conn_roomId c) k = Some c') /\
    ((forall k c', getClient st (WsServer.conn_roomId c) k = Some c' ->
        ws c' ≠ WsServer.conn_ws c) ->
     sock st' (WsServer.conn_ws c)
       = ws_send (ping_message now)
           (ws_on (WsServer.conn_roomId c, m_userId data)
              (sock st (WsServer.conn_ws c)))).
Proof.
  intros Hty Hu Hvalid Hnew Hopen Hsend.
  destruct (server_join fuel now c data st st) as (st' & H1 & H2 & H3 & H4 & _);
    try done.
  - by apply dropStale_absent.
  - by exists st'.
Qed.

Lemma first_frame_joins_witness :
  exists st',
    WsServer.receive 0 200 (Scenario.conn 1) (Scenario.hello "bob" 8) Scenario.alice_alone
      = (st', Scenario.conn_of 1 "bob") /\
    getClient st' "R1" "bob" = Some (mkRoomClient 1 "bob" 200) /\
    sent (sock st' 1) = [ping_message 200].
Proof.
  destruct (first_frame_joins 0 200 (Scenario.conn 1)
              (mkMessage user_joined "bob" 8 None None) Scenario.alice_alone)
    as (st' & H1 & H2 & _ & H4).
  - reflexivity.
  - discriminate.
  - intros q [= <-]. split; [simpl; lia|apply quiet_room_for, alice_alone_quiet].
  - reflexivity.
  - reflexivity.
  - reflexivity.
  - exists st'. split; [exact H1|]. split; [exact H2|].
    simpl in H4. rewrite H4; [reflexivity|].
    intros k c' Hk. unfold getClient in Hk. simpl in Hk.
    destruct (decide (k = "alice")); [|discriminate].
    injection Hk as <-. simpl. lia.
Defined.

Lemma dropStale_member st r p u old :
  getRoom st r = Some p ->
  JsMap.get u (clients (room_at st p)) = Some old ->
  rooms (WsServer.dropStale st r u) = rooms st /\
  length (heap (WsServer.dropStale st r u)) = length (heap st) /\
  clients (room_at (WsServer.dropStale st r u) p)
    = JsMap.delete u (clients (room_at st p)) /\
  sock (WsServer.dropStale st r u) (ws old) = closeIfOpen (sock st (ws old)) /\
  (forall v, v ≠ ws old -> sock (WsServer.dropStale st r u) v = sock st v) /\
  same_timers st (WsServer.dropStale st r u).
Proof.
  intros Hr Hc. assert (Hp : p < length (heap st)) by (by eapply room_with_client_valid).
  unfold WsServer.dropStale. rewrite Hr, Hc. unfold closeIfOpen.
  destruct (is_open (sock st (ws old))) eqn:Ho.
  - assert (Hw : ws old < length (sockets st)) by (by apply is_open_valid).
    split_and!; try done.
    + simpl. by rewrite length_alter.
    + rewrite room_at_with_room_same by done. reflexivity.
    + rewrite sock_with_room. by rewrite sock_with_sock_same.
    + intros v Hne. rewrite sock_with_room. by rewrite sock_with_sock_other.
  - split_and!; try done.
    + simpl. by rewrite length_alter.
    + by rewrite room_at_with_room_same.
Qed.

(** X10. A [user_joined] frame naming a user that the room already holds
    on another socket, received on an open socket whose [send] does not
    throw, in a room where no [send] throws. The server's handler returns;
    the room stays registered, also when the user was its only member; the
    user is registered on the new socket with [lastSeen = now]; the socket
    of the previous session is not open afterwards; the other members are
    still there; and no timer is stopped: the heartbeat started for the
    previous session keeps running, while [pingIntervals] records the new
    one under the user's key. *)
Theorem rejoin_through_server (fuel : nat) (now : Z) (c : WsServer.Connection)
    (data : WebSocketMessage) (st : State) (p : nat) (old : RoomClient) :
  m_type data = user_joined -> m_userId data ≠ "" ->
  getRoom st (WsServer.conn_roomId c) = Some p ->
  JsMap.get (m_userId data) (clients (room_at st p)) = Some old ->
  quiet_for (Some (m_userId data)) st p ->
  ws old ≠ WsServer.conn_ws c ->
  is_open (sock st (WsServer.conn_ws c)) = true ->
  sendThrows (sock st (WsServer.conn_ws c)) = false ->
  exists st',
    WsServer.receive fuel now c (Some data) st =
      (st', WsServer.mkConnection (WsServer.conn_ws c) (WsServer.conn_roomId c)
              (Some (m_userId data))) /\
    getRoom st' (WsServer.conn_roomId c) = Some p /\
    getClient st' (WsServer.conn_roomId c) (m_userId data)
      = Some (mkRoomClient (WsServer.conn_ws c) (m_userId data) now) /\
    is_open (sock st' (ws old)) = false /\
    (forall k, k ≠ m_userId data ->
       is_Some (getClient st (WsServer.conn_roomId c) k) ->
       is_Some (getClient st' (WsServer.conn_roomId c) k)) /\
    JsMap.get (pingKey (WsServer.conn_roomId c) (m_userId data)) (pingIntervals st')
      = Some (nextTimer st) /\
    (forall t, In t (timers st) -> In t (timers st')) /\
    In (nextTimer st, (WsServer.conn_roomId c, m_userId data)) (timers st').
Proof.
  intros Hty Hu Hr Hold Hq Hw Hopen Hsend.
  set (r := WsServer.conn_roomId c) in *. set (u := m_userId data) in *.
  set (w := WsServer.conn_ws c) in *.
  destruct (dropStale_member st r p u old Hr Hold)
    as (Hrooms0 & Hlen0 & Hcl0 & Hsk0 & Hsko0 & Hpi0 & Hti0 & Hnt0).
  set (st0 := WsServer.dropStale st r u) in *.
  assert (Hp : p < length (heap st)) by (by eapply room_with_client_valid).
  assert (Hr0 : getRoom st0 r = Some p) by (unfold getRoom; by rewrite Hrooms0).
  assert (Hget0 : forall k, k ≠ u -> getClient st0 r k = getClient st r k).
  { intros k Hne. rewrite (getClient_at st0 r p), (getClient_at st r p) by done.
    rewrite Hcl0. by apply get_delete_other. }
  assert (Hopen0 : forall v, is_open (sock st0 v) = true -> sock st0 v = sock st v).
  { intros v Hv. destruct (decide (v = ws old)) as [->|Hne]; [|by apply Hsko0].
    rewrite Hsk0 in Hv. by rewrite closeIfOpen_closed in Hv. }
  destruct (server_join fuel now c data st st0) as
    (st' & H1 & H2 & H3 & _ & H5 & H6 & H7 & H8); try done.
  - intros q Hq0. fold r in Hq0. rewrite Hr0 in Hq0. injection Hq0 as <-.
    split; [lia|]. intros k c' Hc' He. rewrite Hcl0 in Hc'.
    destruct (decide (u = k)) as [<-|Hne]; [by rewrite get_delete_same in Hc'|].
    rewrite get_delete_other in Hc' by done.
    assert (Ho : is_open (sock st0 (ws c')) = true)
      by (by apply andb_true_iff in He as [_ ?]).
    rewrite (Hopen0 _ Ho). apply (Hq k c' Hc').
    unfold eligible in *. by rewrite <- (Hopen0 _ Ho).
  - fold r u. rewrite (getClient_at st0 r p) by done. rewrite Hcl0.
    apply get_delete_same.
  - fold w. rewrite Hsko0 by done. exact Hopen.
  - fold w. rewrite Hsko0 by done. exact Hsend.
  - fold r u w in H1, H2, H3, H5, H6, H7, H8. rewrite Hr0 in H6.
    exists st'. split_and!; try done.
    + unfold getRoom. rewrite H6, Hrooms0. exact Hr.
    + rewrite H5, Hsk0. apply closeIfOpen_closed.
    + intros k Hne [c' Hc']. rewrite <- Hget0 in Hc' by done.
      specialize (H3 k c' Hne Hc').
      destruct (eligible (Some u) st0 c'); [destruct H3 as [-> _]|rewrite H3]; eauto.
    + rewrite H7, Hnt0. apply get_set_same.
    + intros t Hin. rewrite H8, Hti0. apply in_or_app. by left.
    + rewrite H8, Hnt0. apply in_or_app. right. by left.
Qed.

Lemma rejoin_through_server_witness :
  exists st',
    WsServer.receive 0 200 (Scenario.conn 1) (Scenario.hello "alice" 8)
      Scenario.alice_alone = (st', Scenario.conn_of 1 "alice") /\
    getClient st' "R1" "alice" = Some (mkRoomClient 1 "alice" 200) /\
    is_open (sock st' 0) = false /\
    In (0, ("R1", "alice")) (timers st') /\ In (1, ("R1", "alice")) (timers st').
Proof.
  destruct (rejoin_through_server 0 200 (Scenario.conn 1)
              (mkMessage user_joined "alice" 8 None None) Scenario.alice_alone 0
              (mkRoomClient 0 "alice" 100))
    as (st' & H1 & _ & H3 & H4 & _ & _ & H7 & H8).
  - reflexivity.
  - discriminate.
  - reflexivity.
  - reflexivity.
  - apply quiet_room_for, alice_alone_quiet.
  - simpl. lia.
  - reflexivity.
  - reflexivity.
  - exists st'. split; [exact H1|]. split; [exact H3|]. split; [exact H4|].
    split; [apply H7; simpl; tauto|exact H8].
Defined.

(** ** A connection closes *)

Lemma all_quiet_thinning now r p st st' :
  thinning now r p st st' -> all_quiet st -> all_quiet st'.
Proof.
  intros Hs Hq r2 q Hr2.
  assert (Hr : getRoom st r2 = Some q).
  { unfold getRoom in *. destruct (th_rooms _ _ _ _ _ Hs) as [Heq|[Heq _]];
      rewrite Heq in Hr2; [done|].
    destruct (decide (r = r2)) as [->|Hne]; [by rewrite get_delete_same in Hr2|].
    by rewrite get_delete_other in Hr2. }
  destruct (decide (q = p)) as [->|Hne].
  - eapply quiet_room_thinning; [exact Hs|]. by apply (Hq r2).
  - apply (quiet_room_same_clients st); [by destruct Hs| |by apply (Hq r2)].
    by rewrite (th_other _ _ _ _ _ Hs).
Qed.

Lemma all_quiet_closed st w : all_quiet st -> all_quiet (with_sock w WsServer.ws_closed st).
Proof.
  intros Hq r p Hr k c Hc. rewrite room_at_with_sock in Hc.
  specialize (Hq r p Hr k c Hc).
  unfold thrower in *. rewrite sock_with_sock. case_decide as Hd; [|done].
  destruct Hd as [-> _]. done.
Qed.

Lemma getClient_only_shrinks st st' r u :
  only_shrinks st st' -> getClient st r u = None -> getClient st' r u = None.
Proof.
  intros Hs Hn. unfold getClient in *.
  destruct (getRoom st' r) as [q|] eqn:Hr; [|done].
  rewrite (os_rooms _ _ Hs r q Hr) in Hn.
  destruct (JsMap.get u (clients (room_at st' q))) as [c'|] eqn:Hc; [|done].
  destruct (os_clients _ _ Hs q u c' Hc) as (c & Hc0 & _). congruence.
Qed.

Lemma removeClient_all_quiet fuel now st r u :
  all_quiet st ->
  exists st',
    removeClient (S fuel) now st r u = Some st' /\
    all_quiet st' /\ only_shrinks st st' /\ getClient st' r u = None.
Proof.
  intros Hq. destruct (getRoom st r) as [p|] eqn:Hr.
  - destruct (removeClient_quiet fuel now st r p u Hr (Hq r p Hr))
      as (st' & Hrun & Hth & Hgone & _ & _ & Hrooms & _).
    exists st'. split_and!; [done| | |].
    + by eapply all_quiet_thinning.
    + by eapply removeClient_only_shrinks.
    + unfold getClient. destruct Hrooms as [Heq|(Heq & _)]; unfold getRoom.
      * rewrite Heq. fold (getRoom st r). by rewrite Hr.
      * by rewrite Heq, get_delete_same.
  - exists st. rewrite removeClient_unknown_room by done.
    split_and!; [done|done|apply only_shrinks_refl|by apply getClient_absent].
Qed.

(** X11. The socket of a connection closes, in a registry where no [send]
    throws. The server's 'close' handler and the 'close' listeners that
    [addClient] registered on the socket all return; afterwards the user
    that the connection identified as is not registered in its room, and
    neither is any user that was registered through this socket; and
    nothing was registered in their place. *)
Theorem closed_connection_is_forgotten (fuel : nat) (now : Z) (c : WsServer.Connection)
    (st : State) :
  all_quiet st ->
  exists st',
    WsServer.closed (S fuel) now c st = Some st' /\
    (forall u, WsServer.conn_userId c = Some u -> u ≠ "" ->
       getClient st' (WsServer.conn_roomId c) u = None) /\
    (forall h, In h (listeners (sock st (WsServer.conn_ws c))) ->
       getClient st' h.1 h.2 = None) /\
    only_shrinks (with_sock (WsServer.conn_ws c) WsServer.ws_closed st) st' /\
    all_quiet st'.
Proof.
  intros Hq. unfold WsServer.closed.
  set (st0 := with_sock (WsServer.conn_ws c) WsServer.ws_closed st).
  set (ls := listeners (sock st (WsServer.conn_ws c))).
  assert (Hq0 : all_quiet st0) by (by apply all_quiet_closed).
  assert (H1 : exists st1,
    WsServer.onClose (S fuel) now c st0 = Some st1 /\ all_quiet st1 /\
    only_shrinks st0 st1 /\
    (forall u, WsServer.conn_userId c = Some u -> u ≠ "" ->
       getClient st1 (WsServer.conn_roomId c) u = None)).
  { unfold WsServer.onClose. destruct (WsServer.conn_userId c) as [u|].
    - destruct (decide (u = "")) as [->|Hne].
      + exists st0. split_and!; [done|done|apply only_shrinks_refl|].
        by intros u [= <-].
      + destruct (removeClient_all_quiet fuel now st0 (WsServer.conn_roomId c) u Hq0)
          as (st1 & Hrun & Hq1 & Hs1 & Hg1).
        exists st1. split_and!; try done. by intros u' [= <-].
    - exists st0. split_and!; [done|done|apply only_shrinks_refl|done]. }
  destruct H1 as (st1 & -> & Hq1 & Hs1 & Hg1).
  destruct (forEach_total
    (fun ks s => all_quiet s /\ only_shrinks st1 s /\
                 forall h, In h ls -> ~ In h ks -> getClient s h.1 h.2 = None)
    (RoomManager.onClose (S fuel) now)) with (ks := ls) (s := st1)
    as (st' & Hrun & Hq' & Hs' & Hg').
  - intros a ks s (Hqs & Hss & Hgs). unfold RoomManager.onClose.
    destruct (removeClient_all_quiet fuel now s a.1 a.2 Hqs)
      as (s' & Hr' & Hq' & Hs' & Hg').
    exists s'. split; [done|]. split; [done|].
    split; [by eapply only_shrinks_trans|].
    intros h Hin Hnot. destruct (decide (h = a)) as [->|Hne]; [done|].
    apply (getClient_only_shrinks s s' _ _ Hs'). apply Hgs; [done|].
    intros [Heq|Hin']; [congruence|tauto].
  - split; [done|]. split; [apply only_shrinks_refl|]. tauto.
  - exists st'. split; [done|]. split_and!.
    + intros u Hu Hne. apply (getClient_only_shrinks st1 st' _ _ Hs'). by apply Hg1.
    + intros h Hin. apply Hg'; [done|]. by intros [].
    + by eapply only_shrinks_trans.
    + done.
Qed.

Lemma closed_connection_is_forgotten_witness :
  exists st',
    WsServer.closed 1 300 (Scenario.conn_of 1 "bob") Scenario.alice_and_bob = Some st' /\
    getClient st' "R1" "bob" = None.
Proof.
  destruct (closed_connection_is_forgotten 0 300 (Scenario.conn_of 1 "bob")
              Scenario.alice_and_bob alice_and_bob_all_quiet)
    as (st' & H1 & H2 & _).
  exists st'. split; [exact H1|]. apply H2; [reflexivity|discriminate].
Defined.

(** ** The socket.io server *)

Lemma sio_room_at_with_room_same p f st :
  p < length (SocketIO.heap st) ->
  SocketIO.room_at (SocketIO.with_room p f st) p = f (SocketIO.room_at st p).
Proof. intros. rewrite sio_room_at_with_room. by rewrite decide_True. Qed.

Lemma sio_room_at_with_room_other p f st q :
  p ≠ q -> SocketIO.room_at (SocketIO.with_room p f st) q = SocketIO.room_at st q.
Proof. intros. rewrite sio_room_at_with_room. rewrite decide_False; [done|tauto]. Qed.

(** [io.on('connection')] with both identifiers: the state it leaves, field
    by field. *)
Lemma sio_connect now st sid u r :
  u ≠ "" -> r ≠ "" ->
  (forall q, JsMap.get r (SocketIO.rooms st) = Some q -> q < length (SocketIO.heap st)) ->
  exists st1 p,
    SocketIO.onConnection now st sid (Some u) (Some r)
      = (st1, Some (SocketIO.mkSocket sid u r p)) /\
    JsMap.get r (SocketIO.rooms st1) = Some p /\
    p < length (SocketIO.heap st1) /\
    SocketIO.rooms st1 = match JsMap.get r (SocketIO.rooms st) with
                         | Some _ => SocketIO.rooms st
                         | None => JsMap.set r (length (SocketIO.heap st)) (SocketIO.rooms st)
                         end /\
    (forall q, JsMap.get r (SocketIO.rooms st) = Some q -> q = p) /\
    SocketIO.lastActivity (SocketIO.room_at st1 p)
      = match JsMap.get r (SocketIO.rooms st) with
        | Some q => SocketIO.lastActivity (SocketIO.room_at st q)
        | None => now
        end /\
    SocketIO.users (SocketIO.room_at st1 p)
      = JsMap.set u (SocketIO.mkUser u 16777215 None now) (sio_found_users st r) /\
    (forall q, q < length (SocketIO.heap st) -> q ≠ p ->
       SocketIO.room_at st1 q = SocketIO.room_at st q) /\
    SocketIO.socketToUser st1 = JsMap.set sid u (SocketIO.socketToUser st) /\
    SocketIO.joined st1 = SocketIO.joined st ++ [(sid, r)] /\
    SocketIO.dropped st1 = SocketIO.dropped st /\
    SocketIO.emitted st1 = SocketIO.emitted st
      ++ [SocketIO.ToRoom r (mkMessage user_joined u now None None)].
Proof.
  intros Hu Hr Hvalid. unfold SocketIO.onConnection, SocketIO.missing, sio_found_users.
  rewrite (bool_decide_eq_false_2 (u = "")), (bool_decide_eq_false_2 (r = "")) by done.
  simpl. unfold JsMap.has.
  destruct (JsMap.get r (SocketIO.rooms st)) as [q|] eqn:Hq.
  - rewrite Hq. simpl. specialize (Hvalid q eq_refl).
    eexists _, q. split; [reflexivity|]. split_and!; try done.
    + simpl. by rewrite length_alter.
    + intros q' [= <-]. done.
    + unfold SocketIO.room_at, SocketIO.emit, SocketIO.with_room. simpl.
      rewrite list_lookup_total_alter. by rewrite decide_True.
    + unfold SocketIO.room_at, SocketIO.emit, SocketIO.with_room. simpl.
      rewrite list_lookup_total_alter. by rewrite decide_True.
    + intros q' Hq' Hne.
      unfold SocketIO.room_at, SocketIO.emit, SocketIO.with_room. simpl.
      rewrite list_lookup_total_alter. rewrite decide_False; [done|]. intros [? _]. done.
  - simpl. rewrite get_set_same. simpl.
    assert (Hlen : length (SocketIO.heap st)
                   < length (SocketIO.heap st ++ [SocketIO.mkRoom [] now])).
    { rewrite length_app. simpl. lia. }
    assert (Hnew : (SocketIO.heap st ++ [SocketIO.mkRoom [] now])
                     !!! length (SocketIO.heap st) = SocketIO.mkRoom [] now).
    { rewrite lookup_total_app_r by lia. by rewrite Nat.sub_diag. }
    eexists _, (length (SocketIO.heap st)). split; [reflexivity|]. split_and!; try done.
    + simpl. apply get_set_same.
    + simpl. by rewrite length_alter.
    + unfold SocketIO.room_at, SocketIO.emit, SocketIO.with_room. simpl.
      rewrite list_lookup_total_alter. rewrite decide_True by done. by rewrite Hnew.
    + unfold SocketIO.room_at, SocketIO.emit, SocketIO.with_room. simpl.
      rewrite list_lookup_total_alter. rewrite decide_True by done. by rewrite Hnew.
    + intros q' Hq' Hne.
      unfold SocketIO.room_at, SocketIO.emit, SocketIO.with_room. simpl.
      rewrite list_lookup_total_alter. rewrite decide_False by (intros [? _]; done).
      by rewrite lookup_total_app_l.
Qed.

Lemma sio_onDisconnect_known now sk st uid :
  JsMap.get (SocketIO.sk_id sk) (SocketIO.socketToUser st) = Some uid ->
  uid ≠ "" ->
  SocketIO.sk_room sk < length (SocketIO.heap st) ->
  SocketIO.users (SocketIO.room_at (SocketIO.onDisconnect now sk st) (SocketIO.sk_room sk))
    = JsMap.delete uid (SocketIO.users (SocketIO.room_at st (SocketIO.sk_room sk))) /\
  (forall q, q ≠ SocketIO.sk_room sk ->
     SocketIO.room_at (SocketIO.onDisconnect now sk st) q = SocketIO.room_at st q) /\
  SocketIO.socketToUser (SocketIO.onDisconnect now sk st)
    = JsMap.delete (SocketIO.sk_id sk) (SocketIO.socketToUser st) /\
  SocketIO.emitted (SocketIO.onDisconnect now sk st) = SocketIO.emitted st
    ++ [SocketIO.ToRoom (SocketIO.sk_roomId sk) (mkMessage user_left uid now None None)] /\
  SocketIO.rooms (SocketIO.onDisconnect now sk st) =
    (if Nat.eqb (JsMap.size (JsMap.delete uid
                   (SocketIO.users (SocketIO.room_at st (SocketIO.sk_room sk))))) 0
     then JsMap.delete (SocketIO.sk_roomId sk) (SocketIO.rooms st)
     else SocketIO.rooms st).
Proof.
  intros Hsid Hne Hp. unfold SocketIO.onDisconnect. rewrite Hsid, decide_False by done.
  assert (Hroom : forall X q,
            SocketIO.heap X
              = SocketIO.heap (SocketIO.with_room (SocketIO.sk_room sk)
                                 (SocketIO.with_users (JsMap.delete uid)) st) ->
            SocketIO.room_at X q =
            if decide (q = SocketIO.sk_room sk)
            then SocketIO.with_users (JsMap.delete uid)
                   (SocketIO.room_at st (SocketIO.sk_room sk))
            else SocketIO.room_at st q).
  { intros X q HX. unfold SocketIO.room_at. rewrite HX. simpl.
    rewrite list_lookup_total_alter. case_decide as Hd.
    - destruct Hd as [<- _]. by rewrite decide_True.
    - rewrite decide_False; [done|]. intros ->. tauto. }
  set (st3 := SocketIO.emit _ _).
  rewrite (Hroom st3 (SocketIO.sk_room sk) eq_refl).
  rewrite decide_True by done. simpl.
  destruct (Nat.eqb _ 0); (split_and!; try done;
    [erewrite Hroom by reflexivity; by rewrite decide_True
    |intros q Hq; erewrite Hroom by reflexivity; by rewrite decide_False]).
Qed.

(** X12. A socket connects to the socket.io server with both identifiers
    and later disconnects. The connection registers the user in the room
    (created when the registry has none) with the default colour and
    [lastUpdate = now], records the socket, and emits one [user_joined] to
    the room. The disconnection removes the user and the socket's entry and
    emits one [user_left]; the users that were in the room stay, and so
    does the room; a room that the connection created is deleted again, so
    that the registry and (for a socket id not recorded before)
    [socketToUser] are the ones before the connection; and a second
    'disconnect' of the socket changes nothing. *)
Theorem sio_connect_then_disconnect (now now' : Z) (st : SocketIO.State)
    (sid u r : string) :
  u ≠ "" -> r ≠ "" ->
  (forall q, JsMap.get r (SocketIO.rooms st) = Some q -> q < length (SocketIO.heap st)) ->
  exists st1 sk,
    SocketIO.onConnection now st sid (Some u) (Some r) = (st1, Some sk) /\
    SocketIO.sk_id sk = sid /\ SocketIO.sk_userId sk = u /\ SocketIO.sk_roomId sk = r /\
    JsMap.get r (SocketIO.rooms st1) = Some (SocketIO.sk_room sk) /\
    JsMap.get u (SocketIO.users (SocketIO.room_at st1 (SocketIO.sk_room sk)))
      = Some (SocketIO.mkUser u 16777215 None now) /\
    JsMap.get sid (SocketIO.socketToUser st1) = Some u /\
    SocketIO.emitted st1 = SocketIO.emitted st
      ++ [SocketIO.ToRoom r (mkMessage user_joined u now None None)] /\
    JsMap.get sid (SocketIO.socketToUser (SocketIO.onDisconnect now' sk st1)) = None /\
    JsMap.get u (SocketIO.users (SocketIO.room_at (SocketIO.onDisconnect now' sk st1)
                                   (SocketIO.sk_room sk))) = None /\
    SocketIO.emitted (SocketIO.onDisconnect now' sk st1) = SocketIO.emitted st1
      ++ [SocketIO.ToRoom r (mkMessage user_left u now' None None)] /\
    (forall k v, k ≠ u -> JsMap.get k (sio_found_users st r) = Some v ->
       JsMap.get r (SocketIO.rooms (SocketIO.onDisconnect now' sk st1))
         = Some (SocketIO.sk_room sk) /\
       JsMap.get k (SocketIO.users (SocketIO.room_at (SocketIO.onDisconnect now' sk st1)
                                      (SocketIO.sk_room sk))) = Some v) /\
    (JsMap.get r (SocketIO.rooms st) = None ->
     SocketIO.rooms (SocketIO.onDisconnect now' sk st1) = SocketIO.rooms st) /\
    (JsMap.get sid (SocketIO.socketToUser st) = None ->
     SocketIO.socketToUser (SocketIO.onDisconnect now' sk st1) = SocketIO.socketToUser st) /\
    SocketIO.onDisconnect now' sk (SocketIO.onDisconnect now' sk st1)
      = SocketIO.onDisconnect now' sk st1.
Proof.
  intros Hu Hr Hvalid.
  destruct (sio_connect now st sid u r Hu Hr Hvalid)
    as (st1 & p & Hrun & Hr1 & Hp1 & Hrooms1 & Hsame & Hact & Hus1 & Hold & Hs2u
          & Hj & Hd & He).
  exists st1, (SocketIO.mkSocket sid u r p). simpl.
  assert (Hsid : JsMap.get sid (SocketIO.socketToUser st1) = Some u)
    by (rewrite Hs2u; apply get_set_same).
  set (sk := SocketIO.mkSocket sid u r p).
  destruct (sio_onDisconnect_known now' sk st1 u Hsid Hu Hp1)
    as (Hus2 & _ & Hs2u2 & Hem2 & Hrooms2).
  set (st2 := SocketIO.onDisconnect now' sk st1) in *. simpl in Hus2, Hs2u2, Hem2, Hrooms2.
  rewrite <- Hus2 in Hrooms2.
  split; [exact Hrun|]. split_and!; try done.
  - rewrite Hus1. apply get_set_same.
  - rewrite Hs2u2. apply get_delete_same.
  - rewrite Hus2. apply get_delete_same.
  - intros k v Hne Hk.
    assert (Hk2 : JsMap.get k (SocketIO.users (SocketIO.room_at st2 p)) = Some v).
    { rewrite Hus2, get_delete_other by done. rewrite Hus1.
      by rewrite get_set_other. }
    split; [|exact Hk2]. rewrite Hrooms2.
    destruct (Nat.eqb _ 0) eqn:Hsz; [|done].
    apply size_zero in Hsz. by rewrite Hsz in Hk2.
  - intros Hnone. rewrite Hrooms2.
    assert (Hnil : SocketIO.users (SocketIO.room_at st2 p) = []).
    { rewrite Hus2, Hus1. unfold sio_found_users. rewrite Hnone. simpl.
      by rewrite decide_True. }
    rewrite Hnil. simpl. rewrite Hrooms1, Hnone. by apply delete_set_fresh.
  - intros Hnone. rewrite Hs2u2, Hs2u. by apply delete_set_fresh.
  - unfold SocketIO.onDisconnect at 1. fold st2. simpl.
    rewrite Hs2u2, get_delete_same. done.
Qed.

Lemma sio_connect_then_disconnect_witness :
  exists st1 sk,
    SocketIO.onConnection 100 SocketIO.init_state "s1" (Some "alice") (Some "R1")
      = (st1, Some sk) /\
    JsMap.get "s1" (SocketIO.socketToUser st1) = Some "alice" /\
    SocketIO.rooms (SocketIO.onDisconnect 150 sk st1) = [] /\
    SocketIO.socketToUser (SocketIO.onDisconnect 150 sk st1) = [].
Proof.
  destruct (sio_connect_then_disconnect 100 150 SocketIO.init_state "s1" "alice" "R1")
    as (st1 & sk & H1 & _ & _ & _ & _ & _ & H7 & _ & _ & _ & _ & _ & H13 & H14 & _).
  - discriminate.
  - discriminate.
  - intros q Hq. discriminate Hq.
  - exists st1, sk. split; [exact H1|]. split; [exact H7|].
    split; [exact (H13 eq_refl)|exact (H14 eq_refl)].
Defined.

Lemma sio_broadcast_loop st rs s :
  SocketIO.heap s = SocketIO.heap st ->
  let s' := fold_left
      (fun s kp =>
         let cs := map snd (SocketIO.users (SocketIO.room_at s kp.2)) in
         if Nat.ltb 0 (length cs) then SocketIO.emit (SocketIO.ClientsOf kp.1 cs) s else s)
      rs s in
  SocketIO.rooms s' = SocketIO.rooms s /\ SocketIO.heap s' = SocketIO.heap s /\
  SocketIO.socketToUser s' = SocketIO.socketToUser s /\
  SocketIO.joined s' = SocketIO.joined s /\ SocketIO.dropped s' = SocketIO.dropped s /\
  SocketIO.emitted s' = SocketIO.emitted s ++
    flat_map
      (fun kp : string * nat =>
         match SocketIO.users (SocketIO.room_at st kp.2) with
         | [] => []
         | _ :: _ =>
             [SocketIO.ClientsOf kp.1 (map snd (SocketIO.users (SocketIO.room_at st kp.2)))]
         end) rs.
Proof.
  revert s. induction rs as [|[r p] rs IH]; intros s Hs; simpl.
  - split_and!; try done. by rewrite app_nil_r.
  - assert (Hroom : SocketIO.room_at s p = SocketIO.room_at st p)
      by (unfold SocketIO.room_at; by rewrite Hs).
    rewrite Hroom. destruct (SocketIO.users (SocketIO.room_at st p)) as [|kv l] eqn:Hus.
    + simpl. by apply IH.
    + destruct (IH (SocketIO.emit
                      (SocketIO.ClientsOf r (map snd (kv :: l))) s) Hs)
        as (H1 & H2 & H3 & H4 & H5 & H6).
      split_and!; [exact H1|exact H2|exact H3|exact H4|exact H5|].
      etransitivity; [exact H6|]. simpl. by rewrite <- app_assoc.
Qed.

(** X13. One round of the periodic state broadcast of the socket.io
    server changes nothing but the events handed to socket.io: every
    registered room that has a user gets one ['clients'] event that lists
    all its users in the order they were added; a registered room without
    users gets none, so that no empty list is ever emitted; and only
    registered rooms get one. *)
Theorem sio_broadcast_lists_every_room (st : SocketIO.State) :
  SocketIO.rooms (SocketIO.broadcastState st) = SocketIO.rooms st /\
  SocketIO.heap (SocketIO.broadcastState st) = SocketIO.heap st /\
  SocketIO.socketToUser (SocketIO.broadcastState st) = SocketIO.socketToUser st /\
  SocketIO.emitted (SocketIO.broadcastState st) = SocketIO.emitted st ++ sio_room_states st /\
  (forall r p, In (r, p) (SocketIO.rooms st) ->
     SocketIO.users (SocketIO.room_at st p) ≠ [] ->
     In (SocketIO.ClientsOf r (map snd (SocketIO.users (SocketIO.room_at st p))))
        (sio_room_states st)) /\
  (forall e, In e (sio_room_states st) ->
     exists r p, In (r, p) (SocketIO.rooms st) /\
       SocketIO.users (SocketIO.room_at st p) ≠ [] /\
       e = SocketIO.ClientsOf r (map snd (SocketIO.users (SocketIO.room_at st p)))).
Proof.
  destruct (sio_broadcast_loop st (SocketIO.rooms st) st eq_refl)
    as (H1 & H2 & H3 & _ & _ & H6).
  split_and!; try done.
  - intros r p Hin Hne. unfold sio_room_states. apply in_flat_map.
    exists (r, p). split; [done|]. simpl.
    destruct (SocketIO.users (SocketIO.room_at st p)); [done|]. by left.
  - intros e Hin. unfold sio_room_states in Hin. apply in_flat_map in Hin.
    destruct Hin as ([r p] & Hin & He). simpl in He. exists r, p.
    destruct (SocketIO.users (SocketIO.room_at st p)) as [|kv l] eqn:Hus; [done|].
    destruct He as [<-|[]]. by split_and!.
Qed.

Lemma get_filter_kept {V : Type} (P : string * V -> Prop) `{forall x, Decision (P x)}
    k v (m : list (string * V)) :
  JsMap.get k m = Some v -> P (k, v) -> JsMap.get k (filter P m) = Some v.
Proof.
  induction m as [|[k' v'] m IH]; simpl; [done|].
  destruct (decide (k = k')) as [->|Hne].
  - intros [= ->] HP. rewrite filter_cons_True by done. simpl. by rewrite decide_True.
  - intros Hg HP. destruct (decide (P (k', v'))).
    + rewrite filter_cons_True by done. simpl. rewrite decide_False by done. by apply IH.
    + rewrite filter_cons_False by done. by apply IH.
Qed.

Lemma get_filter_In {V : Type} (P : string * V -> Prop) `{forall x, Decision (P x)}
    k v (m : list (string * V)) :
  JsMap.get k (filter P m) = Some v -> In (k, v) m /\ P (k, v).
Proof.
  intros Hg. apply get_In in Hg. apply list_elem_of_In in Hg.
  apply list_elem_of_filter in Hg as [HP Hin]. split; [by apply list_elem_of_In|done].
Qed.

Lemma unique_key {V : Type} k (v v' : V) (m : list (string * V)) :
  NoDup (JsMap.keys m) -> In (k, v) m -> In (k, v') m -> v = v'.
Proof.
  induction m as [|[k0 v0] m IH]; simpl; [done|].
  intros Hnd. apply NoDup_cons in Hnd as [Hnot Hnd].
  assert (Hkey : forall w, In (k0, w) m -> False).
  { intros w Hin. apply Hnot. apply list_elem_of_In. unfold JsMap.keys.
    apply in_map_iff. by exists (k0, w). }
  intros [Heq|Hin] [Heq'|Hin'].
  - congruence.
  - injection Heq as -> ->. by destruct (Hkey v').
  - injection Heq' as -> ->. by destruct (Hkey v).
  - by apply IH.
Qed.

Lemma sio_onUpdate_activity t sk msg st :
  SocketIO.sk_room sk < length (SocketIO.heap st) ->
  SocketIO.rooms (SocketIO.onUpdate t sk msg st) = SocketIO.rooms st /\
  SocketIO.lastActivity (SocketIO.room_at (SocketIO.onUpdate t sk msg st) (SocketIO.sk_room sk))
    = t.
Proof.
  intros Hp. unfold SocketIO.onUpdate.
  set (st1 := SocketIO.with_room (SocketIO.sk_room sk) (SocketIO.set_lastActivity t) st).
  assert (H1 : SocketIO.lastActivity (SocketIO.room_at st1 (SocketIO.sk_room sk)) = t).
  { unfold st1. by rewrite sio_room_at_with_room_same. }
  destruct (JsMap.get _ _); [|done]. destruct msg as [msg|]; [|done].
  split; [done|].
  unfold SocketIO.room_at, SocketIO.emit, SocketIO.with_room. simpl.
  rewrite list_lookup_total_alter. rewrite decide_True.
  - rewrite list_lookup_total_alter. by rewrite decide_True.
  - split; [done|]. by rewrite length_alter.
Qed.

(** X14. The five-minute sweep of the socket.io server deletes from the
    registry the rooms that had no update for more than five minutes,
    whether or not they have users, and does nothing else: room objects,
    users and socket entries stay and nothing is emitted. A room stays
    registered when it is not idle; in particular when an update was
    handled in it at most five minutes before the sweep. *)
Theorem sio_reap_spares_active_rooms (now : Z) (st : SocketIO.State) (r : string)
    (p : nat) :
  JsMap.get r (SocketIO.rooms st) = Some p ->
  (~ sio_idle now st p -> JsMap.get r (SocketIO.rooms (SocketIO.reap now st)) = Some p) /\
  (sio_idle now st p -> NoDup (JsMap.keys (SocketIO.rooms st)) ->
   JsMap.get r (SocketIO.rooms (SocketIO.reap now st)) = None) /\
  (forall r' q, JsMap.get r' (SocketIO.rooms (SocketIO.reap now st)) = Some q ->
     In (r', q) (SocketIO.rooms st) /\ ~ sio_idle now st q) /\
  SocketIO.heap (SocketIO.reap now st) = SocketIO.heap st /\
  SocketIO.socketToUser (SocketIO.reap now st) = SocketIO.socketToUser st /\
  SocketIO.emitted (SocketIO.reap now st) = SocketIO.emitted st /\
  (forall t sk msg,
     SocketIO.sk_room sk = p -> p < length (SocketIO.heap st) ->
     (now - t <= 5 * 60 * 1000)%Z ->
     JsMap.get r (SocketIO.rooms (SocketIO.reap now (SocketIO.onUpdate t sk msg st)))
       = Some p).
Proof.
  intros Hr. split_and!; try done.
  - intros Hact. unfold SocketIO.reap. simpl.
    by apply (get_filter_kept (fun kp : string * nat =>
      ¬ (now - SocketIO.lastActivity (SocketIO.room_at st kp.2) > 5 * 60 * 1000)%Z)).
  - intros Hidle Hnd. unfold SocketIO.reap. simpl.
    destruct (JsMap.get r (filter _ _)) as [q|] eqn:Hg; [|done].
    apply get_filter_In in Hg as [Hin Hq]. simpl in Hq.
    assert (q = p) as -> by (eapply unique_key; eauto using get_In).
    done.
  - intros r' q Hg. unfold SocketIO.reap in Hg. simpl in Hg.
    by apply get_filter_In in Hg.
  - intros t sk msg Hsk Hp Ht. subst p.
    destruct (sio_onUpdate_activity t sk msg st Hp) as [Hrooms Hact].
    unfold SocketIO.reap. simpl.
    apply (get_filter_kept (fun kp : string * nat =>
      ¬ (now - SocketIO.lastActivity
                 (SocketIO.room_at (SocketIO.onUpdate t sk msg st) kp.2) > 5 * 60 * 1000)%Z)).
    + by rewrite Hrooms.
    + simpl. rewrite Hact. lia.
Qed.

Lemma sio_reap_spares_active_rooms_witness :
  JsMap.get "R1" (SocketIO.rooms (SocketIO.reap 300200 Scenario.sio_alice_and_bob)) = None /\
  JsMap.get "R1"
    (SocketIO.rooms
       (SocketIO.reap 300200
          (SocketIO.onUpdate 250 Scenario.sio_alice_socket None Scenario.sio_alice_and_bob)))
    = Some 0.
Proof.
  destruct (sio_reap_spares_active_rooms 300200 Scenario.sio_alice_and_bob "R1" 0 eq_refl)
    as (_ & H2 & _ & _ & _ & _ & H7).
  split.
  - apply H2.
    + unfold sio_idle. simpl. lia.
    + apply NoDup_singleton.
  - apply H7; [reflexivity|simpl; lia|lia].
Defined.

(** X15. The 'disconnect' handler of the socket.io server works on the
    room object that the socket found when it connected, but deletes the
    registry entry by room id. When the registry holds another room object
    under that id by then (the first was swept and the id registered anew)
    and the socket's user was the last one in the old object, the
    disconnection unregisters the new room, whose object and users are left
    as they are. *)
Theorem sio_disconnect_unregisters_by_id (now : Z) (sk : SocketIO.Socket)
    (st : SocketIO.State) (uid : string) (p : nat) :
  JsMap.get (SocketIO.sk_id sk) (SocketIO.socketToUser st) = Some uid ->
  uid ≠ "" ->
  JsMap.get (SocketIO.sk_roomId sk) (SocketIO.rooms st) = Some p ->
  p ≠ SocketIO.sk_room sk ->
  SocketIO.sk_room sk < length (SocketIO.heap st) ->
  (forall k, k ≠ uid ->
     JsMap.get k (SocketIO.users (SocketIO.room_at st (SocketIO.sk_room sk))) = None) ->
  JsMap.get (SocketIO.sk_roomId sk) (SocketIO.rooms (SocketIO.onDisconnect now sk st)) = None /\
  SocketIO.room_at (SocketIO.onDisconnect now sk st) p = SocketIO.room_at st p.
Proof.
  intros Hsid Hne Hr Hp Hlen Honly.
  destruct (sio_onDisconnect_known now sk st uid Hsid Hne Hlen)
    as (_ & Hother & _ & _ & Hrooms).
  split; [|by apply Hother].
  rewrite Hrooms.
  assert (Hnil : JsMap.delete uid
                   (SocketIO.users (SocketIO.room_at st (SocketIO.sk_room sk))) = []).
  { apply get_all_None. intros k. destruct (decide (uid = k)) as [<-|Hk].
    - apply get_delete_same.
    - rewrite get_delete_other by done. apply Honly. congruence. }
  rewrite Hnil. simpl. apply get_delete_same.
Qed.

Lemma sio_disconnect_unregisters_by_id_witness :
  SocketIO.members sio_swept_and_rejoined "R1" = Some ["bob"] /\
  JsMap.get "R1"
    (SocketIO.rooms
       (SocketIO.onDisconnect 400002 (SocketIO.mkSocket "s1" "alice" "R1" 0)
          sio_swept_and_rejoined)) = None /\
  JsMap.keys
    (SocketIO.users
       (SocketIO.room_at
          (SocketIO.onDisconnect 400002 (SocketIO.mkSocket "s1" "alice" "R1" 0)
             sio_swept_and_rejoined) 1)) = ["bob"].
Proof.
  destruct (sio_disconnect_unregisters_by_id 400002
              (SocketIO.mkSocket "s1" "alice" "R1" 0) sio_swept_and_rejoined "alice" 1)
    as [H1 H2].
  - reflexivity.
  - discriminate.
  - reflexivity.
  - simpl. lia.
  - simpl. lia.
  - intros k Hk. simpl. by rewrite decide_False.
  - split; [reflexivity|]. split; [exact H1|].
    rewrite H2. reflexivity.
Defined.

(** ** An invariant of the manager *)

Lemma well_formed_same st st' :
  rooms st' = rooms st -> heap st' = heap st -> well_formed st -> well_formed st'.
Proof.
  intros Hr Hh [H1 H2]. split.
  - intros r q. unfold getRoom. rewrite Hr, Hh. apply H1.
  - intros q k c. unfold room_at. rewrite Hh. apply H2.
Qed.

Lemma well_formed_only_shrinks st st' :
  only_shrinks st st' -> well_formed st -> well_formed st'.
Proof.
  intros Hs [H1 H2]. split.
  - intros r q Hr. rewrite (os_len _ _ Hs). apply (H1 r). by apply (os_rooms _ _ Hs).
  - intros q k c' Hc'. destruct (os_clients _ _ Hs q k c' Hc') as (c & Hc & _ & ->).
    by eapply H2.
Qed.

Lemma well_formed_init socks : well_formed (init_state socks).
Proof.
  split; [done|]. intros q k c. rewrite room_at_out_of_range; [done|]. simpl. lia.
Qed.

Lemma well_formed_createRoom now st r :
  well_formed st -> well_formed (createRoom now st r).1.
Proof.
  intros [H1 H2]. split.
  - intros r' q. rewrite getRoom_createRoom. simpl. rewrite length_app. simpl.
    case_decide; [intros [= <-]; lia|]. intros Hq. specialize (H1 r' q Hq). lia.
  - intros q k c. destruct (decide (q < length (heap st))) as [Hq|Hq].
    + rewrite room_at_createRoom_old by done. apply H2.
    + destruct (decide (q = length (heap st))) as [->|Hne].
      * by rewrite room_at_createRoom_new.
      * rewrite room_at_out_of_range; [done|]. simpl. rewrite length_app. simpl. lia.
Qed.

Lemma well_formed_map_clients p f st :
  (forall m k c,
     (forall k0 c0, JsMap.get k0 m = Some c0 -> userId c0 = k0) ->
     JsMap.get k (f m) = Some c -> userId c = k) ->
  well_formed st -> well_formed (with_room p (with_clients f) st).
Proof.
  intros Hf [H1 H2]. split.
  - intros r q Hr. simpl. rewrite length_alter. by apply (H1 r).
  - intros q k c. rewrite room_at_with_room. case_decide as Hd; [|apply H2].
    destruct Hd as [<- _]. simpl. apply Hf. apply H2.
Qed.

Lemma well_formed_set p u w now st :
  well_formed st ->
  well_formed (with_room p (with_clients (JsMap.set u (mkRoomClient w u now))) st).
Proof.
  apply well_formed_map_clients. intros m k c Hm.
  destruct (decide (u = k)) as [<-|Hne].
  - rewrite get_set_same. by intros [= <-].
  - rewrite get_set_other by done. apply Hm.
Qed.

Lemma well_formed_delete p u st :
  well_formed st -> well_formed (with_room p (with_clients (JsMap.delete u)) st).
Proof.
  apply well_formed_map_clients. intros m k c Hm.
  destruct (decide (u = k)) as [<-|Hne].
  - by rewrite get_delete_same.
  - rewrite get_delete_other by done. apply Hm.
Qed.

Lemma well_formed_refresh p u now st :
  well_formed st ->
  well_formed (with_room p (with_clients (JsMap.update u (set_lastSeen now))) st).
Proof.
  apply well_formed_map_clients. intros m k c Hm.
  destruct (decide (u = k)) as [<-|Hne].
  - rewrite get_update_same. destruct (JsMap.get u m) as [c0|] eqn:Hc0; [|done].
    intros [= <-]. simpl. by apply Hm.
  - rewrite get_update_other by done. apply Hm.
Qed.

Lemma well_formed_addClient fuel now st r u w st' :
  addClient fuel now st r u w = Some st' -> well_formed st -> well_formed st'.
Proof.
  unfold addClient. intros Hrun Hwf.
  destruct (getOrCreateRoom now st r) as [st0 p] eqn:Hgc.
  assert (Hwf0 : well_formed st0).
  { unfold getOrCreateRoom in Hgc. destruct (getRoom st r).
    - by injection Hgc as <- _.
    - assert (st0 = (createRoom now st r).1) as -> by (by rewrite Hgc).
      by apply well_formed_createRoom. }
  destruct (evictExisting fuel now st0 r u p) as [st1|] eqn:Hev; [|done].
  assert (Hwf1 : well_formed st1).
  { unfold evictExisting in Hev. destruct (JsMap.get u _) as [old|]; [|congruence].
    apply removeClient_only_shrinks in Hev.
    apply (well_formed_only_shrinks _ _ Hev).
    destruct (is_open _); [|done]. by apply (well_formed_same st0). }
  apply pingClient_only_shrinks in Hrun.
  apply (well_formed_only_shrinks _ _ Hrun).
  eapply well_formed_same; [| |apply (well_formed_set p u w now st1 Hwf1)]; done.
Qed.

Lemma heap_cleanup st : heap (cleanup st) = heap st.
Proof.
  unfold cleanup. simpl. rewrite (closeRooms_closeSockets st) by done.
  apply closeSockets_frame.
Qed.

Lemma well_formed_cleanup st : well_formed st -> well_formed (cleanup st).
Proof.
  intros [H1 H2]. split; [done|]. intros q k c. unfold room_at.
  rewrite heap_cleanup. apply H2.
Qed.

Lemma well_formed_updateClientLastSeen now st r u :
  well_formed st -> well_formed (updateClientLastSeen now st r u).
Proof.
  intros Hwf. unfold updateClientLastSeen. destruct (getRoom st r); [|done].
  destruct (JsMap.get u _); [|done]. by apply well_formed_refresh.
Qed.

(** The states reached by the calls that a caller may catch, whether they
    return or raise. *)

Lemma forEach_state_relation {A : Type} (R : State -> State -> Prop)
    (body : State -> A -> Outcome) :
  (forall s, R s s) -> (forall s1 s2 s3, R s1 s2 -> R s2 s3 -> R s1 s3) ->
  (forall s a, R s (state_of (body s a))) ->
  forall ks st, R st (state_of (Unwinding.forEach ks body st)).
Proof.
  intros Hrefl Htrans Hstep ks. induction ks as [|a ks IH]; intros st; simpl; [done|].
  specialize (Hstep st a). destruct (body st a) as [s1|s1]; simpl in *; eauto.
Qed.

Lemma unwinding_deliver_only_shrinks rc now r p m ex st k :
  (forall s r' u, only_shrinks s (state_of (rc s r' u))) ->
  only_shrinks st (state_of (Unwinding.deliver rc now r p m ex st k)).
Proof.
  intros Hrc. unfold Unwinding.deliver.
  destruct (JsMap.get k _) as [c|]; [|apply only_shrinks_refl].
  destruct (not_excluded ex c && is_open _) eqn:He; [|apply only_shrinks_refl].
  destruct (sendThrows _); [apply Hrc|].
  apply only_shrinks_sent. by apply andb_true_iff in He as [_ ?].
Qed.

Lemma unwinding_broadcastWith_only_shrinks rc now st r m ex :
  (forall s r' u, only_shrinks s (state_of (rc s r' u))) ->
  only_shrinks st (state_of (Unwinding.broadcastWith rc now st r m ex)).
Proof.
  intros Hrc. unfold Unwinding.broadcastWith.
  destruct (getRoom st r) as [p|]; [|apply only_shrinks_refl].
  apply (forEach_state_relation only_shrinks);
    eauto using only_shrinks_refl, only_shrinks_trans, unwinding_deliver_only_shrinks.
Qed.

Lemma unwinding_removeClient_only_shrinks fuel now :
  forall st r u, only_shrinks st (state_of (Unwinding.removeClient fuel now st r u)).
Proof.
  induction fuel as [|fuel IH]; intros st r u; simpl; [apply only_shrinks_refl|].
  destruct (getRoom st r) as [p|]; [|apply only_shrinks_refl].
  assert (H1 := unwinding_broadcastWith_only_shrinks (Unwinding.removeClient fuel now)
                  now st r (user_left_message u now) (Some u) IH).
  destruct (Unwinding.broadcastWith _ _ _ _ _ _) as [st1|st1]; simpl in H1; [|done].
  assert (H2 : only_shrinks st (clearPing r u st1)).
  { eapply only_shrinks_trans; [exact H1|apply only_shrinks_clearPing]. }
  destruct (JsMap.has u _); [|done].
  assert (H3 : only_shrinks st
                 (with_room p (with_clients (JsMap.delete u)) (clearPing r u st1))).
  { eapply only_shrinks_trans; [exact H2|apply only_shrinks_drop]. }
  destruct (Nat.eqb _ 0); simpl; [|done].
  eapply only_shrinks_trans; [exact H3|apply only_shrinks_rooms_delete].
Qed.

Lemma unwinding_broadcastToRoom_only_shrinks fuel now st r m ex :
  only_shrinks st (state_of (Unwinding.broadcastToRoom fuel now st r m ex)).
Proof.
  apply unwinding_broadcastWith_only_shrinks. apply unwinding_removeClient_only_shrinks.
Qed.

Lemma unwinding_pingClient_only_shrinks fuel now st r u :
  only_shrinks st (state_of (Unwinding.pingClient fuel now st r u)).
Proof.
  unfold Unwinding.pingClient.
  destruct (getClient st r u) as [c|]; [|apply unwinding_removeClient_only_shrinks].
  destruct (is_open _) eqn:Ho; [|apply unwinding_removeClient_only_shrinks].
  destruct (sendThrows _); [apply unwinding_removeClient_only_shrinks|].
  simpl. constructor; eauto. by apply wire_kept_send.
Qed.

Lemma well_formed_unwinding_addClient fuel now st r u w :
  well_formed st -> well_formed (state_of (Unwinding.addClient fuel now st r u w)).
Proof.
  unfold Unwinding.addClient. intros Hwf.
  destruct (getOrCreateRoom now st r) as [st0 p] eqn:Hgc.
  assert (Hwf0 : well_formed st0).
  { unfold getOrCreateRoom in Hgc. destruct (getRoom st r).
    - by injection Hgc as <- _.
    - assert (st0 = (createRoom now st r).1) as -> by (by rewrite Hgc).
      by apply well_formed_createRoom. }
  assert (Hwf1 : well_formed (state_of (Unwinding.evictExisting fuel now st0 r u p))).
  { unfold Unwinding.evictExisting. destruct (JsMap.get u _) as [old|]; [|done].
    eapply well_formed_only_shrinks; [apply unwinding_removeClient_only_shrinks|].
    destruct (is_open _); [|done]. by apply (well_formed_same st0). }
  destruct (Unwinding.evictExisting fuel now st0 r u p) as [st1|st1]; simpl in Hwf1;
    [|done].
  eapply well_formed_only_shrinks; [apply unwinding_pingClient_only_shrinks|].
  eapply well_formed_same; [| |apply (well_formed_set p u w now st1 Hwf1)]; done.
Qed.

Lemma well_formed_dropStale st r u :
  well_formed st -> well_formed (WsServer.dropStale st r u).
Proof.
  intros Hwf. unfold WsServer.dropStale. destruct (getRoom st r); [|done].
  destruct (JsMap.get _ _) as [old|]; [|done].
  apply well_formed_delete. destruct (is_open _); [|done].
  by apply (well_formed_same st).
Qed.

Lemma well_formed_onMessage fuel now c frame st :
  well_formed st -> well_formed (WsServer.onMessage fuel now c frame st).1.
Proof.
  intros Hwf. unfold WsServer.onMessage. destruct frame as [data|]; [|done].
  assert (Hid : well_formed (state_of (WsServer.identify fuel now c data st).1)).
  { unfold WsServer.identify. destruct (WsServer.joins data); [|done].
    assert (Ha := well_formed_unwinding_addClient fuel now
                    (WsServer.dropStale st (WsServer.conn_roomId c) (m_userId data))
                    (WsServer.conn_roomId c) (m_userId data) (WsServer.conn_ws c)
                    (well_formed_dropStale _ _ _ Hwf)).
    destruct (Unwinding.addClient _ _ _ _ _ _) as [st2|st2]; simpl in *; [|done].
    eapply well_formed_only_shrinks; [apply unwinding_broadcastToRoom_only_shrinks|done]. }
  destruct (WsServer.identify fuel now c data st) as [[st1|st1] c1]; simpl in *; [|done].
  destruct (WsServer.conn_userId c1) as [u|]; [|done].
  destruct (decide (u = "")); [done|]. simpl.
  eapply well_formed_only_shrinks; [apply unwinding_broadcastToRoom_only_shrinks|done].
Qed.

Lemma well_formed_receive fuel now c frame st :
  well_formed st -> well_formed (WsServer.receive fuel now c frame st).1.
Proof.
  intros Hwf. unfold WsServer.receive.
  assert (Hwf1 := well_formed_onMessage fuel now c frame st Hwf).
  destruct (WsServer.onMessage fuel now c frame st) as [st1 c1]. simpl in *.
  generalize (listeners (sock st (WsServer.conn_ws c))). intros ls.
  revert st1 Hwf1. induction ls as [|h ls IH]; intros st1 Hwf1; [done|].
  simpl. apply IH. unfold RoomManager.onMessage.
  destruct frame as [d|]; [|done]. destruct (decide _); [|done].
  by apply well_formed_updateClientLastSeen.
Qed.

Lemma well_formed_closed fuel now c st st' :
  WsServer.closed fuel now c st = Some st' -> well_formed st -> well_formed st'.
Proof.
  unfold WsServer.closed. intros Hrun Hwf.
  destruct (WsServer.onClose fuel now c _) as [st1|] eqn:Hc; [|done].
  assert (Hwf1 : well_formed st1).
  { assert (H0 : well_formed (with_sock (WsServer.conn_ws c) WsServer.ws_closed st))
      by (by apply (well_formed_same st)).
    unfold WsServer.onClose in Hc. destruct (WsServer.conn_userId c) as [u|]; [|congruence].
    destruct (decide (u = "")); [congruence|].
    apply removeClient_only_shrinks in Hc. by apply (well_formed_only_shrinks _ _ Hc). }
  apply (forEach_relation only_shrinks) in Hrun;
    eauto using only_shrinks_refl, only_shrinks_trans.
  - by apply (well_formed_only_shrinks _ _ Hrun).
  - intros s a s'. apply removeClient_only_shrinks.
Qed.

(** X16. An invariant of the manager and of the raw-WebSocket server: the
    registry names existing room objects only, and every client of a room
    object is stored under its own user id. It is preserved by every
    operation that returns: joining, leaving, broadcasting, the heartbeat,
    the sweep, shutting down and the closing of a connection; by the
    server's handling of a frame, which always returns, also when a call
    it makes raises and the handler catches the error; and it holds in the
    state that a join, a leave, a broadcast or a heartbeat has reached when
    it raises. *)
Theorem well_formed_is_invariant (fuel : nat) (now : Z) (st st' : State) :
  well_formed st ->
  (exists r u w, addClient fuel now st r u w = Some st') \/
  (exists r u, removeClient fuel now st r u = Some st') \/
  (exists r m ex, broadcastToRoom fuel now st r m ex = Some st') \/
  (exists r u, pingClient fuel now st r u = Some st') \/
  cleanupInactiveClients fuel now st = Some st' \/
  st' = cleanup st \/
  (exists c frame, st' = (WsServer.receive fuel now c frame st).1) \/
  (exists c, WsServer.closed fuel now c st = Some st') \/
  (exists r u w, st' = state_of (Unwinding.addClient fuel now st r u w)) \/
  (exists r u, st' = state_of (Unwinding.removeClient fuel now st r u)) \/
  (exists r m ex, st' = state_of (Unwinding.broadcastToRoom fuel now st r m ex)) \/
  (exists r u, st' = state_of (Unwinding.pingClient fuel now st r u)) ->
  well_formed st'.
Proof.
  intros Hwf [(r & u & w & H)|[(r & u & H)|[(r & m & ex & H)|[(r & u & H)|[H|[H|[H|
    [H|[H|[H|[H|H]]]]]]]]]]].
  - by eapply well_formed_addClient.
  - apply removeClient_only_shrinks in H. by eapply well_formed_only_shrinks.
  - apply broadcastWith_only_shrinks in H;
      [|intros ????; apply removeClient_only_shrinks].
    by eapply well_formed_only_shrinks.
  - apply pingClient_only_shrinks in H. by eapply well_formed_only_shrinks.
  - apply cleanupInactiveClients_only_shrinks in H. by eapply well_formed_only_shrinks.
  - subst. by apply well_formed_cleanup.
  - destruct H as (c & frame & ->). by apply well_formed_receive.
  - destruct H as (c & H). by eapply well_formed_closed.
  - destruct H as (r & u & w & ->). by apply well_formed_unwinding_addClient.
  - destruct H as (r & u & ->).
    eapply well_formed_only_shrinks; [apply unwinding_removeClient_only_shrinks|done].
  - destruct H as (r & m & ex & ->).
    eapply well_formed_only_shrinks; [apply unwinding_broadcastToRoom_only_shrinks|done].
  - destruct H as (r & u & ->).
    eapply well_formed_only_shrinks; [apply unwinding_pingClient_only_shrinks|done].
Qed.

Lemma well_formed_is_invariant_witness :
  well_formed Scenario.both_failing /\
  (exists s, Unwinding.broadcastToRoom 5 1000 Scenario.both_failing "R1"
               Scenario.alice_update (Some "alice") = Raised s) /\
  well_formed
    (WsServer.receive 5 1000 (Scenario.conn_of 0 "alice") (Some Scenario.alice_update)
       Scenario.both_failing).1.
Proof.
  assert (H0 : well_formed Scenario.start) by apply well_formed_init.
  assert (H1 : well_formed Scenario.alice_alone).
  { apply (well_formed_is_invariant 1 100 Scenario.start _ H0).
    do 6 right. left. exists (Scenario.conn 0), (Scenario.hello "alice" 7).
    by rewrite alice_alone_reached. }
  assert (H2 : well_formed Scenario.alice_and_bob).
  { apply (well_formed_is_invariant 1 200 Scenario.alice_alone _ H1).
    do 6 right. left. exists (Scenario.conn 1), (Scenario.hello "bob" 8).
    by rewrite alice_and_bob_reached. }
  assert (H3 : well_formed Scenario.both_failing).
  { by apply (well_formed_same Scenario.alice_and_bob). }
  split; [exact H3|]. split; [eexists; vm_compute; reflexivity|].
  apply (well_formed_is_invariant 5 1000 Scenario.both_failing _ H3).
  do 6 right. left. by exists (Scenario.conn_of 0 "alice"), (Some Scenario.alice_update).
Defined.

(** ** Updates on the socket.io server *)

(** X17. An 'update' event on the socket.io server, from a socket whose
    room object exists. The room's [lastActivity] is set to [now] in every
    case. When the room object holds the socket's user and the payload can
    be read, the user's particles are replaced by the payload's, its
    colour by the payload's unless that is absent or zero (so a colour
    that is not zero stays not zero), its [lastUpdate] is [now]; its id,
    the other users and their order are kept; and one update stamped
    [now], carrying the payload's particles and colour as received, is
    emitted to the other sockets of the room. When the room object does not
    hold the user, or the payload cannot be read, the users stay as they
    are and nothing is emitted. The registry and the socket entries are
    never changed. *)
Theorem sio_update_is_stored_and_relayed (now : Z) (sk : SocketIO.Socket)
    (message : option SocketIO.UpdatePayload) (st : SocketIO.State) :
  SocketIO.sk_room sk < length (SocketIO.heap st) ->
  SocketIO.lastActivity
    (SocketIO.room_at (SocketIO.onUpdate now sk message st) (SocketIO.sk_room sk)) = now /\
  SocketIO.rooms (SocketIO.onUpdate now sk message st) = SocketIO.rooms st /\
  SocketIO.socketToUser (SocketIO.onUpdate now sk message st) = SocketIO.socketToUser st /\
  match JsMap.get (SocketIO.sk_userId sk)
          (SocketIO.users (SocketIO.room_at st (SocketIO.sk_room sk))), message with
  | Some old, Some msg =>
      JsMap.get (SocketIO.sk_userId sk)
        (SocketIO.users
           (SocketIO.room_at (SocketIO.onUpdate now sk message st) (SocketIO.sk_room sk)))
        = Some (SocketIO.mkUser (SocketIO.id old)
                  (match SocketIO.up_color msg with
                   | Some v => if decide (v = 0%Z) then SocketIO.color old else v
                   | None => SocketIO.color old
                   end)
                  (SocketIO.up_particles msg) now) /\
      (SocketIO.color old ≠ 0%Z ->
       forall new,
         JsMap.get (SocketIO.sk_userId sk)
           (SocketIO.users
              (SocketIO.room_at (SocketIO.onUpdate now sk message st) (SocketIO.sk_room sk)))
         = Some new -> SocketIO.color new ≠ 0%Z) /\
      (forall k, k ≠ SocketIO.sk_userId sk ->
         JsMap.get k
           (SocketIO.users
              (SocketIO.room_at (SocketIO.onUpdate now sk message st) (SocketIO.sk_room sk)))
         = JsMap.get k (SocketIO.users (SocketIO.room_at st (SocketIO.sk_room sk)))) /\
      JsMap.keys
        (SocketIO.users
           (SocketIO.room_at (SocketIO.onUpdate now sk message st) (SocketIO.sk_room sk)))
        = JsMap.keys (SocketIO.users (SocketIO.room_at st (SocketIO.sk_room sk))) /\
      SocketIO.emitted (SocketIO.onUpdate now sk message st) = SocketIO.emitted st
        ++ [SocketIO.ToOthers (SocketIO.sk_id sk) (SocketIO.sk_roomId sk)
              (mkMessage update (SocketIO.sk_userId sk) now
                 (SocketIO.up_particles msg) (SocketIO.up_color msg))]
  | _, _ =>
      SocketIO.users
        (SocketIO.room_at (SocketIO.onUpdate now sk message st) (SocketIO.sk_room sk))
        = SocketIO.users (SocketIO.room_at st (SocketIO.sk_room sk)) /\
      SocketIO.emitted (SocketIO.onUpdate now sk message st) = SocketIO.emitted st
  end.
Proof.
  intros Hp. destruct (sio_onUpdate_activity now sk message st Hp) as [Hrooms Hact].
  split; [exact Hact|]. split; [exact Hrooms|].
  unfold SocketIO.onUpdate.
  set (p := SocketIO.sk_room sk) in *. set (u := SocketIO.sk_userId sk).
  set (st1 := SocketIO.with_room p (SocketIO.set_lastActivity now) st).
  assert (Hus1 : SocketIO.users (SocketIO.room_at st1 p) = SocketIO.users (SocketIO.room_at st p)).
  { unfold st1. by rewrite sio_room_at_with_room_same. }
  assert (Hp1 : p < length (SocketIO.heap st1)) by (simpl; by rewrite length_alter).
  rewrite Hus1.
  destruct (JsMap.get u (SocketIO.users (SocketIO.room_at st p))) as [old|] eqn:Hold;
    [|by split_and!].
  destruct message as [msg|]; [|by split_and!].
  split; [done|].
  set (f := fun u0 : SocketIO.User => _).
  assert (Hus2 : SocketIO.users
                   (SocketIO.room_at
                      (SocketIO.emit
                         (SocketIO.ToOthers (SocketIO.sk_id sk) (SocketIO.sk_roomId sk)
                            (mkMessage update u now (SocketIO.up_particles msg)
                               (SocketIO.up_color msg)))
                         (SocketIO.with_room p (SocketIO.with_users (JsMap.update u f)) st1))
                      p)
                 = JsMap.update u f (SocketIO.users (SocketIO.room_at st p))).
  { change (SocketIO.room_at (SocketIO.emit ?e ?s) p) with (SocketIO.room_at s p).
    rewrite sio_room_at_with_room_same by done. simpl. by rewrite Hus1. }
  rewrite Hus2. split_and!.
  - by rewrite get_update_same, Hold.
  - intros Hc new. rewrite get_update_same, Hold. intros [= <-]. simpl.
    unfold SocketIO.pick_color. destruct (SocketIO.up_color msg) as [v|]; [|done].
    by destruct (decide (v = 0%Z)).
  - intros k Hne. by rewrite get_update_other.
  - apply keys_update.
  - done.
Qed.

Lemma sio_update_is_stored_and_relayed_witness :
  JsMap.get "alice"
    (SocketIO.users
       (SocketIO.room_at
          (SocketIO.onUpdate 250 Scenario.sio_alice_socket
             (Some (SocketIO.mkUpdate (Some "[1]") (Some 255%Z))) Scenario.sio_alice_and_bob) 0))
    = Some (SocketIO.mkUser "alice" 255 (Some "[1]") 250) /\
  JsMap.get "alice"
    (SocketIO.users
       (SocketIO.room_at
          (SocketIO.onUpdate 250 Scenario.sio_alice_socket
             (Some (SocketIO.mkUpdate (Some "[1]") (Some 0%Z))) Scenario.sio_alice_and_bob) 0))
    = Some (SocketIO.mkUser "alice" 16777215 (Some "[1]") 250).
Proof.
  assert (Hp : SocketIO.sk_room Scenario.sio_alice_socket
               < length (SocketIO.heap Scenario.sio_alice_and_bob)) by (simpl; lia).
  split.
  - destruct (sio_update_is_stored_and_relayed 250 Scenario.sio_alice_socket
                (Some (SocketIO.mkUpdate (Some "[1]") (Some 255%Z)))
                Scenario.sio_alice_and_bob Hp) as (_ & _ & _ & H).
    simpl in H. destruct H as (H & _). exact H.
  - destruct (sio_update_is_stored_and_relayed 250 Scenario.sio_alice_socket
                (Some (SocketIO.mkUpdate (Some "[1]") (Some 0%Z)))
                Scenario.sio_alice_and_bob Hp) as (_ & _ & _ & H).
    simpl in H. destruct H as (H & _). exact H.
Defined.

(** ** The keys of the heartbeat timers *)

Lemma append_assoc3 a b c : ((a ++ b) ++ c = a ++ (b ++ c))%string.
Proof. induction a as [|x a IH]; [done|]. rewrite !append_cons. by rewrite IH. Qed.

Lemma pingKey_cons c r u : pingKey (String c r) u = String c (pingKey r u).
Proof. reflexivity. Qed.

Lemma pingKey_empty u : pingKey "" u = String "-" u.
Proof. reflexivity. Qed.

Lemma no_dash_cons c s :
  no_dash (String c s) = negb (bool_decide (c = "-"%char)) && no_dash s.
Proof. reflexivity. Qed.

(** X18. The key [roomId-userId] under which a heartbeat timer is
    recorded determines the room and the user when room ids contain no
    hyphen: two members then never share a key. Without that condition
    keys collide: the user [c] of the room [a-b] and the user [b-c] of the
    room [a] have the same key. *)
Theorem heartbeat_keys_are_distinct :
  (forall r u r' u',
     no_dash r = true -> no_dash r' = true ->
     pingKey r u = pingKey r' u' -> r = r' /\ u = u') /\
  (forall a b c,
     pingKey (a ++ "-" ++ b)%string c = pingKey a (b ++ "-" ++ c)%string).
Proof.
  split.
  - intros r. induction r as [|x r IH]; intros u r' u' Hr Hr' Hk.
    + destruct r' as [|y r'].
      * rewrite !pingKey_empty in Hk. by injection Hk as ->.
      * rewrite pingKey_empty, pingKey_cons in Hk. injection Hk as <- _.
        rewrite no_dash_cons in Hr'. by rewrite bool_decide_eq_true_2 in Hr'.
    + rewrite no_dash_cons in Hr. apply andb_true_iff in Hr as [Hx Hr].
      destruct r' as [|y r'].
      * rewrite pingKey_empty, pingKey_cons in Hk. injection Hk as -> _.
        by rewrite bool_decide_eq_true_2 in Hx.
      * rewrite no_dash_cons in Hr'. apply andb_true_iff in Hr' as [_ Hr'].
        rewrite !pingKey_cons in Hk. injection Hk as -> Hk.
        destruct (IH u r' u' Hr Hr' Hk) as [-> ->]. done.
  - intros a b c. unfold pingKey. by rewrite !append_assoc3.
Qed.
